(** * rekrea.modules.background_removal.remover — shallow embedding

    The module drives three external tools (ffprobe/ffmpeg, the rembg
    segmentation model, the file system) through a fixed sequence of calls.
    The embedding keeps that shape:

    - the file system is an explicit store ([World]): a finite map from
      paths to file contents and a finite set of directories;
    - Python exceptions are values of [exn]; every operation returns an
      [Outcome]: a result (value or raised exception), the world it leaves
      behind (also when it raises), and the list of observable events it
      emitted, in order;
    - the opaque computations of the external tools (what ffprobe reports
      for a container, which frames ffmpeg decodes, what the network
      predicts for an image, which model names rembg knows) are the fields
      of an environment record [Env]; nothing is assumed about them except
      where a theorem says so in a hypothesis. *)

From Stdlib Require Import QArith.
From stdpp Require Import gmap strings list sorting.
From Stdlib Require Import Ascii DecimalString.
From Stdlib Require DecimalNat DecimalFacts.

Local Open Scope string_scope.
Local Open Scope list_scope.
#[local] Set Warnings "-clear-no-such-hyp".

(* ===================================================================== *)
(** ** Data *)
(* ===================================================================== *)

(** Python [bytes]. *)
Abbreviation bytes := (list Byte.byte).

(** A [pathlib.Path], as the list of its components from the root. *)
Abbreviation Path := (list string).

(** [p / name] *)
Definition child (p : Path) (name : string) : Path := p ++ [name].
Infix "</>" := child (at level 40, left associativity).

(** [p.parent] and [p.name] *)
Definition parent (p : Path) : Path := removelast p.
Definition name (p : Path) : string := default "" (last p).

(** Python floats occur as frame rates, the literal [30.0] and the
    quotient [int(num) / int(den)], and as the percentage of the script.
    A double is carried as a rational; a quotient is carried exactly,
    where Python rounds it to the nearest double.  The value of a frame
    rate is therefore stated for quotients that are doubles
    ([is_binary64]); of the percentage only its bounds and the value 100
    are stated, which the rounding keeps for every number of frames
    below [2^1074]. *)
Abbreviation float := Q.

(** The exceptions that can leave the module.  [FfmpegError] is
    [ffmpeg.Error] (the ffmpeg or ffprobe process exited with an error),
    [RembgError] is whatever rembg or its runtime raises, [CallbackError]
    whatever a caller's progress callback raises; the others are Python
    built-ins. *)
Inductive exn : Type :=
| FfmpegError (msg : string)
| RembgError (msg : string)
| CallbackError (msg : string)
| StopIteration
| KeyError (key : string)
| ValueError (msg : string)
| ZeroDivisionError
| OverflowError
| FileNotFoundError (p : Path)
| FileExistsError (p : Path)
| IsADirectoryError (p : Path)
| NotADirectoryError (p : Path).

Inductive Res (A : Type) : Type :=
| Ok (a : A)
| Raise (e : exn).
Arguments Ok {A} a.
Arguments Raise {A} e.

(** A loaded rembg session: the model it was built for and the identity of
    the Python object. *)
Record Session : Type := mkSession { sess_model : string; sess_id : nat }.

(** A Python dict with string keys and string values, as ffprobe's JSON has
    them for the fields read here. *)
Abbreviation dict := (list (string * string)).

(** The result of [ffmpeg.probe]: only [probe["streams"]] is read. *)
Record Probe : Type := mkProbe { streams : list dict }.

(** Observable events, in the order the calls are made. *)
Inductive Event : Type :=
| EvMkdir (p : Path)                       (* os.mkdir succeeded *)
| EvGlob (dir : Path)                      (* directory listed *)
| EvNewSession (model : string)            (* rembg.new_session called *)
| EvRead (p : Path)                        (* Path.read_bytes *)
| EvInfer (s : Session) (input : bytes)    (* rembg.remove called *)
| EvWrite (p : Path) (data : bytes)        (* Path.write_bytes *)
| EvProgress (current total : Z)           (* progress_callback called *)
| EvProbe (video : Path)                   (* ffmpeg.probe called *)
| EvExtract (video dir : Path)             (* ffmpeg run, video -> frames *)
| EvEncode (dir out : Path) (framerate : float) (* ffmpeg run, frames -> video *)
| EvMkdtemp (p : Path)                     (* TemporaryDirectory created *)
| EvCleanup (p : Path).                    (* TemporaryDirectory.cleanup *)

(** The store: files, directories, the position in the stream of random
    temporary names, and the next object identity. *)
Record World : Type := mkWorld {
  files : gmap Path bytes;
  dirs : gset Path;
  rng_pos : nat;
  next_id : nat
}.

(** What the external tools compute. *)
Record Env : Type := mkEnv {
  (** [tempfile.gettempdir()] *)
  tempdir : Path;
  (** the stream of names of [tempfile._get_candidate_names()] *)
  random_name : nat -> string;
  (** ffprobe on a container's bytes *)
  ffprobe : bytes -> Res Probe;
  (** ffmpeg decoding a container: the frames it writes, and whether it
      then exits with an error *)
  ffmpeg_decode : bytes -> list bytes * option exn;
  (** ffmpeg encoding a frame sequence at a frame rate (libx264, yuv420p) *)
  ffmpeg_encode : list bytes -> float -> Res bytes;
  (** [rembg.new_session(model_name)]: [None] when the session is built *)
  load_model : string -> option exn;
  (** [rembg.remove(input_bytes, session=session)] *)
  infer : Session -> bytes -> Res bytes
}.

(* ===================================================================== *)
(** ** The effect monad: state, exceptions and an event log *)
(* ===================================================================== *)

Record Outcome (A : Type) : Type := mkOutcome {
  result : Res A;
  world : World;
  events : list Event
}.
Arguments mkOutcome {A} _ _ _.
Arguments result {A} _.
Arguments world {A} _.
Arguments events {A} _.

Definition M (A : Type) : Type := World -> Outcome A.

Definition ret {A} (a : A) : M A := fun w => mkOutcome (Ok a) w [].

Definition raise {A} (e : exn) : M A := fun w => mkOutcome (Raise e) w [].

Definition bind {A B} (m : M A) (f : A -> M B) : M B := fun w =>
  let o := m w in
  match result o with
  | Ok a => let o' := f a (world o) in
            mkOutcome (result o') (world o') (events o ++ events o')
  | Raise e => mkOutcome (Raise e) (world o) (events o)
  end.

Definition emit (e : Event) : M unit := fun w => mkOutcome (Ok tt) w [e].

Definition get_world : M World := fun w => mkOutcome (Ok w) w [].

Definition put_world (w' : World) : M unit := fun _ => mkOutcome (Ok tt) w' [].

(** A pure computation that may raise. *)
Definition lift {A} (r : Res A) : M A := fun w => mkOutcome r w [].

Declare Scope m_scope.
Delimit Scope m_scope with m.
Notation "x <- c1 ;; c2" := (bind c1 (fun x => c2))
  (at level 100, c1 at next level, right associativity) : m_scope.
Notation "c1 ;;; c2" := (bind c1 (fun _ => c2))
  (at level 100, right associativity) : m_scope.
Local Open Scope m_scope.

(* ===================================================================== *)
(** ** The file system, as [pathlib], [os] and [tempfile] use it *)
(* ===================================================================== *)

(** The root is always a directory. *)
Definition is_dir (w : World) (p : Path) : bool :=
  bool_decide (p = [] ∨ p ∈ dirs w).

Definition is_file (w : World) (p : Path) : bool :=
  bool_decide (is_Some (files w !! p)).

Definition add_dir (p : Path) (w : World) : World :=
  mkWorld (files w) ({[p]} ∪ dirs w) (rng_pos w) (next_id w).

Definition set_file (p : Path) (data : bytes) (w : World) : World :=
  mkWorld (<[p := data]> (files w)) (dirs w) (rng_pos w) (next_id w).

(** The proper ancestors of [p], the root first. *)
Definition ancestors (p : Path) : list Path := (λ k, take k p) <$> seq 0 (length p).

(** The way to [p] leads through a regular file ([ENOTDIR]). *)
Definition under_a_file (w : World) (p : Path) : bool :=
  existsb (is_file w) (ancestors p).

(** [os.mkdir(p)]: one level, fails when [p] exists, an ancestor is a
    regular file or the parent is missing. *)
Definition os_mkdir (p : Path) : M unit := fun w =>
  if is_dir w p || is_file w p then raise (FileExistsError p) w
  else if under_a_file w p then raise (NotADirectoryError p) w
  else if negb (is_dir w (parent p)) then raise (FileNotFoundError p) w
  else mkOutcome (Ok tt) (add_dir p w) [EvMkdir p].

(** [p.mkdir(parents=False, exist_ok=True)]: an [OSError] other than
    [FileNotFoundError] is swallowed when [p] is a directory. *)
Definition mkdir_exist_ok (p : Path) : M unit := fun w =>
  let o := os_mkdir p w in
  match result o with
  | Ok _ => o
  | Raise (FileNotFoundError _) => o
  | Raise _ => if is_dir (world o) p then mkOutcome (Ok tt) (world o) (events o)
               else o
  end.

(** [p.mkdir(parents=True, exist_ok=True)], by pathlib's recursion on the
    parent; [rp] is the path with its components reversed, so that the
    parent is the tail. *)
Fixpoint mkdir_parents_rev (rp : list string) : M unit := fun w =>
  let p := rev rp in
  let o := os_mkdir p w in
  match result o with
  | Ok _ => o
  | Raise (FileNotFoundError _) =>
      match rp with
      | [] => o
      | _ :: rparent =>
          let o' := (mkdir_parents_rev rparent ;;; mkdir_exist_ok p) (world o) in
          mkOutcome (result o') (world o') (events o ++ events o')
      end
  | Raise _ => if is_dir (world o) p then mkOutcome (Ok tt) (world o) (events o)
               else o
  end.

Definition mkdir (p : Path) : M unit := mkdir_parents_rev (rev p).

(** [p.read_bytes()] *)
Definition read_bytes (p : Path) : M bytes := fun w =>
  match files w !! p with
  | Some data => mkOutcome (Ok data) w [EvRead p]
  | None => if is_dir w p then raise (IsADirectoryError p) w
            else if under_a_file w p then raise (NotADirectoryError p) w
            else raise (FileNotFoundError p) w
  end.

(** [p.write_bytes(data)]: creates or replaces the file. *)
Definition write_bytes (p : Path) (data : bytes) : M unit := fun w =>
  if is_dir w p then raise (IsADirectoryError p) w
  else if under_a_file w p then raise (NotADirectoryError p) w
  else if negb (is_dir w (parent p)) then raise (FileNotFoundError p) w
  else mkOutcome (Ok tt) (set_file p data w) [EvWrite p data].

(** The entries of directory [d], files and directories alike, in the
    enumeration order of the store (which nothing may rely on). *)
Definition scandir (w : World) (d : Path) : list Path :=
  filter (λ p, p ≠ [] ∧ parent p = d) (elements (dom (files w) ∪ dirs w)).

(** [fnmatch] for a pattern [pre*suf] with a single star. *)
Definition fnmatch_star (pre suf n : string) : bool :=
  String.prefix pre n
  && String.eqb (String.substring (String.length n - String.length suf)
                           (String.length suf) n) suf
  && (String.length pre + String.length suf <=? String.length n)%nat.

(** What [d.glob("pre*suf")] yields: nothing when [d] is not a directory. *)
Definition glob_list (w : World) (d : Path) (pre suf : string) : list Path :=
  if is_dir w d
  then filter (λ p, fnmatch_star pre suf (name p) = true) (scandir w d)
  else [].

Definition glob (d : Path) (pre suf : string) : M (list Path) := fun w =>
  mkOutcome (Ok (glob_list w d pre suf)) w [EvGlob d].

(** Paths compare as their lists of components (POSIX flavour: no case
    folding), strings by code unit, which is the order of code points
    for names that are valid UTF-8. *)
Fixpoint path_leb (p q : Path) : bool :=
  match p, q with
  | [], _ => true
  | _ :: _, [] => false
  | a :: p', b :: q' =>
      if decide (a = b) then path_leb p' q' else String.leb a b
  end.

Definition path_le (p q : Path) : Prop := path_leb p q.

#[global] Instance path_le_dec : RelDecision path_le.
Proof. intros p q. unfold path_le. apply _. Defined.

(** [sorted(paths)] *)
Definition sorted (l : list Path) : list Path := merge_sort path_le l.

(** [shutil.rmtree(root)]: everything at or below [root] goes. *)
Definition rmtree (root : Path) (w : World) : World :=
  mkWorld (filter (λ kv, ¬ root `prefix_of` kv.1) (files w))
          (filter (λ p, ¬ root `prefix_of` p) (dirs w))
          (rng_pos w) (next_id w).

Definition TMP_MAX : nat := 100 * 100.

(** [tempfile.mkdtemp(prefix=prefix)]: the first candidate name that does
    not exist yet, at most [TMP_MAX] tries. *)
Fixpoint mkdtemp_loop (env : Env) (fuel : nat) (prefix : string) : M Path :=
  fun w =>
  match fuel with
  | O => raise (FileExistsError (tempdir env)) w
  | S fuel' =>
      let file := tempdir env </> (prefix +:+ random_name env (rng_pos w)) in
      let w1 := mkWorld (files w) (dirs w) (S (rng_pos w)) (next_id w) in
      let o := os_mkdir file w1 in
      match result o with
      | Ok _ => mkOutcome (Ok file) (world o) (events o)
      | Raise (FileExistsError _) => mkdtemp_loop env fuel' prefix (world o)
      | Raise e => mkOutcome (Raise e) (world o) (events o)
      end
  end.

Definition mkdtemp (env : Env) (prefix : string) : M Path :=
  mkdtemp_loop env TMP_MAX prefix.

(** [with tempfile.TemporaryDirectory(prefix=prefix) as tmp: body]:
    the directory is made on entry; [__exit__] runs [cleanup] however the
    body ends and does not swallow the body's exception. *)
Definition with_TemporaryDirectory {A} (env : Env) (prefix : string)
    (body : Path -> M A) : M A := fun w =>
  let o := mkdtemp env prefix w in
  match result o with
  | Raise e => mkOutcome (Raise e) (world o) (events o)
  | Ok tmp =>
      let ob := body tmp (world o) in
      mkOutcome (result ob) (rmtree tmp (world ob))
                (events o ++ [EvMkdtemp tmp] ++ events ob ++ [EvCleanup tmp])
  end.

(* ===================================================================== *)
(** ** Python built-ins used by the module *)
(* ===================================================================== *)

(** [d[key]] *)
Fixpoint getitem (d : dict) (key : string) : Res string :=
  match d with
  | [] => Raise (KeyError key)
  | (k, v) :: d' => if String.eqb k key then Ok v else getitem d' key
  end.

(** [s.split(sep)] for a one-character separator, on the characters. *)
Fixpoint split_chars (sep : ascii) (s : list ascii) : list (list ascii) :=
  match s with
  | [] => [[]]
  | c :: s' =>
      if Ascii.eqb c sep then [] :: split_chars sep s'
      else match split_chars sep s' with
           | h :: t => (c :: h) :: t
           | [] => [[c]]
           end
  end.

Definition split (sep : ascii) (s : string) : list string :=
  map String.string_of_list_ascii (split_chars sep (String.list_ascii_of_string s)).

(** The white space [int] skips around a literal in an ASCII string:
    tab, line feed, vertical tab, form feed, carriage return and space. *)
Definition is_space (c : ascii) : bool :=
  let n := nat_of_ascii c in
  ((9 <=? n) && (n <=? 13) || (n =? 32))%nat.

Definition digit_of (c : ascii) : option Z :=
  let n := nat_of_ascii c in
  if ((48 <=? n) && (n <=? 57))%nat then Some (Z.of_nat (n - 48)) else None.

Fixpoint lstrip (s : list ascii) : list ascii :=
  match s with
  | c :: s' => if is_space c then lstrip s' else s
  | [] => []
  end.

Definition strip (s : list ascii) : list ascii := rev (lstrip (rev (lstrip s))).

(** Decimal digits, single underscores allowed between two digits. *)
Fixpoint digits_value (acc : Z) (after_digit : bool) (s : list ascii) : option Z :=
  match s with
  | [] => if after_digit then Some acc else None
  | c :: s' =>
      match digit_of c with
      | Some d => digits_value (10 * acc + d) true s'
      | None =>
          if Ascii.eqb c "_" && after_digit
          then match s' with [] => None | _ => digits_value acc false s' end
          else None
      end
  end.

(** [sys.get_int_max_str_digits()], as Python sets it by default. *)
Definition int_max_str_digits : nat := 4300.

(** The number of digits in the run of digits and single underscores a
    literal starts with; [None] when the run is malformed or empty. *)
Fixpoint digit_run (after_underscore : bool) (n : nat) (s : list ascii) : option nat :=
  match s with
  | [] => if after_underscore then None else Some n
  | c :: s' =>
      match digit_of c with
      | Some _ => digit_run false (S n) s'
      | None =>
          if after_underscore then None
          else if Ascii.eqb c "_" then digit_run true n s'
          else Some n
      end
  end.

(** [int(s)], base ten, for ASCII input: a literal of more digits than
    the limit is refused before it is converted. *)
Definition python_int (s : string) : Res Z :=
  let invalid := Raise (ValueError ("invalid literal for int(): " +:+ s)) in
  let too_long :=
    Raise (ValueError "Exceeds the limit for integer string conversion") in
  match strip (String.list_ascii_of_string s) with
  | c :: body =>
      let unsigned :=
        if Ascii.eqb c "-" || Ascii.eqb c "+" then body else c :: body in
      match digit_run true 0 unsigned with
      | None => invalid
      | Some n =>
          if (int_max_str_digits <? n)%nat then too_long
          else if Ascii.eqb c "-" then
            match digits_value 0 false body with Some v => Ok (- v)%Z | None => invalid end
          else if Ascii.eqb c "+" then
            match digits_value 0 false body with Some v => Ok v | None => invalid end
          else
            match digits_value 0 false (c :: body) with Some v => Ok v | None => invalid end
      end
  | [] => invalid
  end.

(** [a / b] on two ints: [ZeroDivisionError] when [b] is 0,
    [OverflowError] when the quotient rounds to a double beyond the
    largest one, that is from [2^1024 - 2^970] on; otherwise the double
    nearest to the quotient, carried as the quotient itself. *)
Definition truediv (a b : Z) : Res float :=
  if (b =? 0)%Z then Raise ZeroDivisionError
  else if ((2 ^ 1024 - 2 ^ 970) * Z.abs b <=? Z.abs a)%Z then Raise OverflowError
  else Ok (inject_Z a / inject_Z b)%Q.

(** A rational that is a double: [m * 2^e] with [|m| < 2^53] and
    [-1074 <= e <= 971], written on integers by scaling with [2^1074].
    On these rounding to the nearest double changes nothing. *)
Definition is_binary64 (q : Q) : Prop :=
  ∃ m e : Z, (Z.abs m < 2 ^ 53)%Z ∧ (-1074 ≤ e ≤ 971)%Z ∧
             (q * inject_Z (2 ^ 1074) == inject_Z (m * 2 ^ (e + 1074)))%Q.

(** ["%0<width>d" % n] for [n >= 0], and ["frame_%05d.png" % n]. *)
Definition zero_pad (width : nat) (s : string) : string :=
  String.string_of_list_ascii (replicate (width - String.length s) "0"%char) +:+ s.

Definition frame_name (n : nat) : string :=
  "frame_" +:+ zero_pad 5 (NilEmpty.string_of_uint (Nat.to_uint n)) +:+ ".png".

(* ===================================================================== *)
(** ** ffmpeg-python and rembg, around the opaque computations of [Env] *)
(* ===================================================================== *)

(** [ffmpeg.probe(str(video_path))] *)
Definition ffmpeg_probe (env : Env) (video_path : Path) : M Probe :=
  emit (EvProbe video_path) ;;;
  w <- get_world ;;
  match files w !! video_path with
  | None => raise (FfmpegError "ffprobe: No such file or directory")
  | Some data => lift (ffprobe env data)
  end.

(** A path no component of which has a [%]. ffmpeg reads the whole of
    [dir/frame_%05d.png] as the pattern, so that the pattern means the
    numbered frames of [dir] for such a [dir]. *)
Definition no_percent (p : Path) : Prop :=
  Forall (λ c, "%"%char ∉ String.list_ascii_of_string c) p.

(** The image2 muxer: frame [i], [i+1], ... written under
    [dir/frame_%05d.png], the number in the file name. *)
Fixpoint ffmpeg_write_frames (dir : Path) (i : nat) (frames : list bytes) : M unit :=
  match frames with
  | [] => ret tt
  | f :: rest =>
      w <- get_world ;;
      let p := dir </> frame_name i in
      if negb (is_dir w dir) || is_dir w p
      then raise (FfmpegError "Could not open file")
      else put_world (set_file p f w) ;;; ffmpeg_write_frames dir (S i) rest
  end.

(** [ffmpeg.input(video).output(dir/"frame_%05d.png", qscale=2)
       .overwrite_output().run(quiet=True)] *)
Definition ffmpeg_extract (env : Env) (video_path frames_dir : Path) : M unit :=
  emit (EvExtract video_path frames_dir) ;;;
  w <- get_world ;;
  match files w !! video_path with
  | None => raise (FfmpegError "No such file or directory")
  | Some data =>
      let '(frames, failure) := ffmpeg_decode env data in
      ffmpeg_write_frames frames_dir 1 frames ;;;
      match failure with
      | Some e => raise e
      | None => ret tt
      end
  end.

(** The image2 demuxer looks for the first frame at an index in [0, 5). *)
Definition image2_first (w : World) (dir : Path) : option nat :=
  List.find (λ i, is_file w (dir </> frame_name i)) (seq 0 5).

(** ... and reads consecutive indices up to the first missing one. *)
Fixpoint image2_frames (w : World) (dir : Path) (fuel i : nat) : list bytes :=
  match fuel with
  | O => []
  | S fuel' =>
      match files w !! (dir </> frame_name i) with
      | Some data => data :: image2_frames w dir fuel' (S i)
      | None => []
      end
  end.

(** [ffmpeg.input(dir/"frame_%05d.png", framerate=framerate)
       .output(out, vcodec="libx264", pix_fmt="yuv420p")
       .overwrite_output().run(quiet=True)] *)
Definition ffmpeg_encode_frames (env : Env) (frames_dir output_path : Path)
    (framerate : float) : M unit :=
  emit (EvEncode frames_dir output_path framerate) ;;;
  w <- get_world ;;
  match image2_first w frames_dir with
  | None => raise (FfmpegError "Could find no file with path and index in the range 0-4")
  | Some first =>
      if is_dir w output_path || negb (is_dir w (parent output_path))
      then raise (FfmpegError "Could not open output file")
      else
        video <- lift (ffmpeg_encode env
                         (image2_frames w frames_dir (size (files w)) first)
                         framerate) ;;
        put_world (set_file output_path video w)
  end.

(** [rembg.new_session(model_name)] *)
Definition new_session (env : Env) (model_name : string) : M Session := fun w =>
  match load_model env model_name with
  | Some e => mkOutcome (Raise e) w [EvNewSession model_name]
  | None =>
      mkOutcome (Ok (mkSession model_name (next_id w)))
                (mkWorld (files w) (dirs w) (rng_pos w) (S (next_id w)))
                [EvNewSession model_name]
  end.

(** [rembg.remove(input_bytes, session=session)] *)
Definition remove (env : Env) (input_bytes : bytes) (session : Session) : M bytes :=
  emit (EvInfer session input_bytes) ;;;
  lift (infer env session input_bytes).

(** [tqdm(iterable, desc=...)] yields the items of [iterable], in order;
    its console bar is not part of the callback channel. *)
Definition tqdm {A} (iterable : list A) : list A := iterable.

(** A progress callback: called with [(current, total)], it returns or
    raises. *)
Abbreviation Callback := (Z -> Z -> option exn).

Definition call_callback (cb : Callback) (current total : Z) : M unit :=
  emit (EvProgress current total) ;;;
  match cb current total with
  | Some e => raise e
  | None => ret tt
  end.

(* ===================================================================== *)
(** ** remover.py *)
(* ===================================================================== *)

(** [next(s for s in streams if s["codec_type"] == "video")] *)
Fixpoint next_video_stream (streams : list dict) : Res dict :=
  match streams with
  | [] => Raise StopIteration
  | s :: rest =>
      match getitem s "codec_type" with
      | Raise e => Raise e
      | Ok codec_type =>
          if String.eqb codec_type "video" then Ok s
          else next_video_stream rest
      end
  end.

(** [num, den = text.split("/")] *)
Definition unpack2 (parts : list string) : Res (string * string) :=
  match parts with
  | [num; den] => Ok (num, den)
  | [] | [_] => Raise (ValueError "not enough values to unpack (expected 2)")
  | _ => Raise (ValueError "too many values to unpack (expected 2)")
  end.

(** The part of [_get_video_framerate] after the probe. *)
Definition framerate_of_probe (probe : Probe) : Res float :=
  match next_video_stream (streams probe) with
  | Raise e => Raise e
  | Ok video_stream =>
      match getitem video_stream "r_frame_rate" with
      | Raise e => Raise e
      | Ok text =>
          match unpack2 (split "/" text) with
          | Raise e => Raise e
          | Ok (num, den) =>
              match python_int num with
              | Raise e => Raise e
              | Ok n =>
                  match python_int den with
                  | Raise e => Raise e
                  | Ok d => truediv n d
                  end
              end
          end
      end
  end.

Definition _get_video_framerate (env : Env) (video_path : Path) : M float :=
  probe <- ffmpeg_probe env video_path ;;
  lift (framerate_of_probe probe).

Definition extract_frames (env : Env) (video_path frames_dir : Path) : M float :=
  mkdir frames_dir ;;;
  framerate <- _get_video_framerate env video_path ;;
  ffmpeg_extract env video_path frames_dir ;;;
  ret framerate.

(** The [for] loop of [remove_background_from_frames]; [i] is the index
    [enumerate(..., start=1)] gives to the head of [frame_files]. *)
Fixpoint frames_loop (env : Env) (output_dir : Path) (session : Session)
    (progress_callback : option Callback) (total i : Z)
    (frame_files : list Path) : M unit :=
  match frame_files with
  | [] => ret tt
  | frame_path :: rest =>
      input_bytes <- read_bytes frame_path ;;
      output_bytes <- remove env input_bytes session ;;
      write_bytes (output_dir </> name frame_path) output_bytes ;;;
      match progress_callback with
      | Some cb => call_callback cb i total
      | None => ret tt
      end ;;;
      frames_loop env output_dir session progress_callback total (i + 1) rest
  end.

(** One pass through the body of that loop. *)
Definition frame_iteration (env : Env) (output_dir : Path) (session : Session)
    (progress_callback : option Callback) (total i : Z)
    (frame_path : Path) : M unit :=
  input_bytes <- read_bytes frame_path ;;
  output_bytes <- remove env input_bytes session ;;
  write_bytes (output_dir </> name frame_path) output_bytes ;;;
  match progress_callback with
  | Some cb => call_callback cb i total
  | None => ret tt
  end.

(** The events of a pass that got as far as writing its output. *)
Definition pass_events (output_dir : Path) (session : Session)
    (progress_callback : option Callback) (total i : Z) (p : Path)
    (input output : bytes) : list Event :=
  [EvRead p; EvInfer session input; EvWrite (output_dir </> name p) output] ++
  match progress_callback with
  | Some _ => [EvProgress i total]
  | None => []
  end.

(** The ways one pass can end: the read, the inference, the write or the
    callback raises, or the pass completes. *)
Inductive pass_outcome (env : Env) (output_dir : Path) (session : Session)
    (progress_callback : option Callback) (total i : Z) (p : Path) (w : World) :
    Outcome unit → Prop :=
| pass_read_fails e :
    files w !! p = None →
    pass_outcome env output_dir session progress_callback total i p w
      (mkOutcome (Raise e) w [])
| pass_infer_fails input e :
    files w !! p = Some input → infer env session input = Raise e →
    pass_outcome env output_dir session progress_callback total i p w
      (mkOutcome (Raise e) w [EvRead p; EvInfer session input])
| pass_write_fails input output e :
    files w !! p = Some input → infer env session input = Ok output →
    pass_outcome env output_dir session progress_callback total i p w
      (mkOutcome (Raise e) w [EvRead p; EvInfer session input])
| pass_callback_fails input output cb e :
    files w !! p = Some input → infer env session input = Ok output →
    progress_callback = Some cb → cb i total = Some e →
    pass_outcome env output_dir session progress_callback total i p w
      (mkOutcome (Raise e) (set_file (output_dir </> name p) output w)
         (pass_events output_dir session progress_callback total i p input output))
| pass_completes input output :
    files w !! p = Some input → infer env session input = Ok output →
    is_dir w output_dir = true →
    match progress_callback with Some cb => cb i total = None | None => True end →
    pass_outcome env output_dir session progress_callback total i p w
      (mkOutcome (Ok tt) (set_file (output_dir </> name p) output w)
         (pass_events output_dir session progress_callback total i p input output)).

(** The default of [model_name]. *)
Definition default_model_name : string := "u2net".

Definition remove_background_from_frames (env : Env)
    (frames_dir output_dir : Path) (model_name : string)
    (progress_callback : option Callback) : M unit :=
  mkdir output_dir ;;;
  globbed <- glob frames_dir "frame_" ".png" ;;
  let frame_files := sorted globbed in
  let total := Z.of_nat (length frame_files) in
  session <- new_session env model_name ;;
  frames_loop env output_dir session progress_callback total 1 (tqdm frame_files).

(** The default of [framerate] in [rebuild_video]'s signature. *)
Definition default_framerate : float := 30.

(** [framerate] is [None] when the caller leaves the argument out. *)
Definition rebuild_video (env : Env) (frames_dir output_path : Path)
    (framerate : option float) : M unit :=
  let framerate := default default_framerate framerate in
  mkdir (parent output_path) ;;;
  ffmpeg_encode_frames env frames_dir output_path framerate.

(** The body of the [with] block of [process_video]; [tmp] is the
    temporary directory. *)
Definition process_video_body (env : Env) (input_path output_path : Path)
    (model_name : string) (progress_callback : option Callback)
    (tmp : Path) : M unit :=
  let tmp_path := tmp in
  let frames_dir := tmp_path </> "frames" in
  let output_frames_dir := tmp_path </> "output_frames" in
  framerate <- extract_frames env input_path frames_dir ;;
  remove_background_from_frames env frames_dir output_frames_dir
                                model_name progress_callback ;;;
  rebuild_video env output_frames_dir output_path (Some framerate).

Definition process_video (env : Env) (input_path output_path : Path)
    (model_name : string) (progress_callback : option Callback) : M unit :=
  with_TemporaryDirectory env "rekrea_rembg_"
    (process_video_body env input_path output_path model_name progress_callback).

(* ===================================================================== *)
(** ** Reading event logs *)
(* ===================================================================== *)

(** The [(current, total)] pairs the callback was called with. *)
Definition progress_calls (evs : list Event) : list (Z * Z) :=
  omap (λ e, match e with EvProgress c t => Some (c, t) | _ => None end) evs.

(** The model names [new_session] was called with. *)
Definition sessions_built (evs : list Event) : list string :=
  omap (λ e, match e with EvNewSession m => Some m | _ => None end) evs.

(** The sessions inference ran on. *)
Definition sessions_used (evs : list Event) : list Session :=
  omap (λ e, match e with EvInfer s _ => Some s | _ => None end) evs.

(** The inferences: the session and the input of each [rembg.remove]. *)
Definition inferences (evs : list Event) : list (Session * bytes) :=
  omap (λ e, match e with EvInfer s b => Some (s, b) | _ => None end) evs.

(** The files written by [write_bytes], and the files read by
    [read_bytes]. *)
Definition writes (evs : list Event) : list Path :=
  omap (λ e, match e with EvWrite p _ => Some p | _ => None end) evs.

Definition reads (evs : list Event) : list Path :=
  omap (λ e, match e with EvRead p => Some p | _ => None end) evs.

(** The frame rates ffmpeg was asked to encode at. *)
Definition encode_rates (evs : list Event) : list float :=
  omap (λ e, match e with EvEncode _ _ r => Some r | _ => None end) evs.

(** An asset the prober cannot use, and the error it then meets: the
    container cannot be read ([ffmpeg.probe] raises), or ffprobe reports
    streams none of which has [codec_type] ["video"]. *)
Inductive unusable_asset (env : Env) (w : World) (video_path : Path) : exn → Prop :=
| container_unreadable e :
    result (ffmpeg_probe env video_path w) = Raise e →
    unusable_asset env w video_path e
| no_video_stream probe :
    result (ffmpeg_probe env video_path w) = Ok probe →
    Forall (λ s, ∃ c, getitem s "codec_type" = Ok c ∧ c ≠ "video") (streams probe) →
    unusable_asset env w video_path StopIteration.

(** The names of the files in directory [d]. *)
Definition file_names (w : World) (d : Path) : gset string :=
  set_map name (filter (λ p, p ≠ [] ∧ parent p = d) (dom (files w))).

(** A name matches [frame_*.png]. *)
Definition is_frame_name (n : string) : bool := fnmatch_star "frame_" ".png" n.

(** The sorted list of frames [remove_background_from_frames] iterates
    over when it lists [d] in world [w]. *)
Definition listing (w : World) (d : Path) : list Path :=
  sorted (glob_list w d "frame_" ".png").

(** The world after [new_session] has built an object. *)
Definition bump_id (w : World) : World :=
  mkWorld (files w) (dirs w) (rng_pos w) (S (next_id w)).

(** The names of the frame files of directory [d]. *)
Definition frame_files_in (w : World) (d : Path) : gset string :=
  filter (λ n, is_frame_name n = true) (file_names w d).

(** Every file lies in a directory, as in any real file system. *)
Definition wf_files (w : World) : Prop :=
  map_Forall (λ p _, is_dir w (parent p) = true) (files w).

Definition is_mkdir (e : Event) : Prop :=
  match e with EvMkdir _ => True | _ => False end.

(** World [w'] differs from [w] by new directories only, and the events
    [evs] on the way are directory creations. *)
Definition dirs_only (w w' : World) (evs : list Event) : Prop :=
  files w' = files w ∧ rng_pos w' = rng_pos w ∧ next_id w' = next_id w ∧
  dirs w ⊆ dirs w' ∧ Forall is_mkdir evs.

(* ===================================================================== *)
(** ** scripts/background_removal_pipeline.py *)
(* ===================================================================== *)

(** A message on the progress queue: [("progress", current, total)],
    [("done", output_path)] or [("error", message)]. *)
Inductive Msg : Type :=
| MsgProgress (current total : Z)
| MsgDone (output_path : string)
| MsgError (message : string).

(** [str(p)] for an absolute path. *)
Definition path_str (p : Path) : string :=
  match p with
  | [] => "/"
  | _ => String.concat "" ((λ c, "/" +:+ c) <$> p)
  end.

(** [on_progress] of [_run_pipeline]: its [progress_queue.put] on an
    unbounded queue returns; the put is the [EvProgress] event of the
    call. *)
Definition on_progress : Callback := λ _ _, None.

(** [_run_pipeline(input_path, output_path, progress_queue)]: the queue
    when the worker is done, and the world it leaves. [progress_queue] is
    what the queue held before, [str_exc] is [str] on exceptions. The
    worker catches every exception of [process_video]. *)
Definition _run_pipeline (env : Env) (str_exc : exn → string)
    (input_path output_path : Path) (progress_queue : list Msg) (w : World) :
    list Msg * World :=
  let o := process_video env input_path output_path default_model_name
             (Some on_progress) w in
  let posted := (λ ct, MsgProgress ct.1 ct.2) <$> progress_calls (events o) in
  let final := match result o with
               | Ok _ => MsgDone (path_str output_path)
               | Raise exc => MsgError (str_exc exc)
               end in
  (progress_queue ++ posted ++ [final], world o).

(** [pct = (current / total) * 100] in [poll]. *)
Definition progress_pct (current total : Z) : Res float :=
  match truediv current total with
  | Ok q => Ok (q * 100)%Q
  | Raise e => Raise e
  end.

(** [s.rfind(c)]: the index of the last [c] in [s]. *)
Fixpoint rfind (c : ascii) (s : list ascii) : option nat :=
  match s with
  | [] => None
  | x :: s' =>
      match rfind c s' with
      | Some i => Some (S i)
      | None => if Ascii.eqb x c then Some 0 else None
      end
  end.

(** [PurePath.stem] of a name: the name without its last suffix; a
    leading or a trailing dot starts no suffix. *)
Definition stem (n : string) : string :=
  let l := String.list_ascii_of_string n in
  match rfind "." l with
  | Some i =>
      if (0 <? i)%nat && (i <? length l - 1)%nat
      then String.string_of_list_ascii (take i l)
      else n
  | None => n
  end.

(** [OUTPUT_DIR / f"{input_path.stem}_no_bg.mp4"] in [main]. *)
Definition output_path_for (output_dir input_path : Path) : Path :=
  output_dir </> (stem (name input_path) +:+ "_no_bg.mp4").

(** Every directory lies in a directory. *)
Definition wf_dirs (w : World) : Prop :=
  set_Forall (λ p, is_dir w (parent p) = true) (dirs w).

(* ===================================================================== *)
(** ** A small concrete environment, to run the model on *)
(* ===================================================================== *)

Module Demo.

Definition known_models : list string :=
  ["u2net"; "u2netp"; "isnet-general-use"; "birefnet-general"].

(** A container is a header byte and one byte per frame: header [x00]
    has a video stream at 30000/1001, header [x01] only audio, any other
    header cannot be read. *)
Definition probe_of (data : bytes) : Res Probe :=
  match data with
  | Byte.x00 :: _ =>
      Ok (mkProbe [[("codec_type", "audio"); ("r_frame_rate", "0/0")];
                   [("codec_type", "video"); ("r_frame_rate", "30000/1001")]])
  | Byte.x01 :: _ =>
      Ok (mkProbe [[("codec_type", "audio"); ("r_frame_rate", "0/0")]])
  | _ => Raise (FfmpegError "ffprobe error")
  end.

Definition decode_of (data : bytes) : list bytes * option exn :=
  (map (λ b, [b]) (tail data), None).

Definition encode_of (frames : list bytes) (framerate : float) : Res bytes :=
  match frames with
  | [] => Raise (FfmpegError "no frames")
  | _ => Ok (concat frames)
  end.

(** An image starting with [xff] is malformed; any other gets an alpha
    byte appended. *)
Definition infer_of (s : Session) (input : bytes) : Res bytes :=
  match input with
  | Byte.xff :: _ => Raise (RembgError "cannot identify image file")
  | _ => Ok (input ++ [Byte.xa1])
  end.

Definition env : Env := {|
  tempdir := ["tmp"];
  random_name := λ n, NilEmpty.string_of_uint (Nat.to_uint n);
  ffprobe := probe_of;
  ffmpeg_decode := decode_of;
  ffmpeg_encode := encode_of;
  load_model := λ m, if bool_decide (m ∈ known_models) then None
                     else Some (ValueError "No session class found for model");
  infer := infer_of
|}.

Definition mk_files (l : list (Path * bytes)) : gmap Path bytes := list_to_map l.

(** [/in] holds three frames and a note, [/out] does not exist. *)
Definition w_frames : World := {|
  files := mk_files [(["in"; "frame_00002.png"], [Byte.x02]);
                     (["in"; "frame_00001.png"], [Byte.x01]);
                     (["in"; "notes.txt"], [Byte.x6e]);
                     (["in"; "frame_00003.png"], [Byte.x03])];
  dirs := {[ ["in"] ]};
  rng_pos := 0;
  next_id := 0
|}.

(** As [w_frames], with the second frame malformed. *)
Definition w_bad_frame : World := {|
  files := mk_files [(["in"; "frame_00002.png"], [Byte.xff]);
                     (["in"; "frame_00001.png"], [Byte.x01]);
                     (["in"; "frame_00003.png"], [Byte.x03])];
  dirs := {[ ["in"] ]};
  rng_pos := 0;
  next_id := 0
|}.

(** As [w_frames], with a file left in [/out] by an earlier run. *)
Definition w_stale : World := {|
  files := mk_files [(["in"; "frame_00001.png"], [Byte.x01]);
                     (["out"; "frame_00009.png"], [Byte.x09])];
  dirs := {[ ["in"]; ["out"] ]};
  rng_pos := 0;
  next_id := 0
|}.

(** [/in] exists and holds no frame. *)
Definition w_empty : World := {|
  files := mk_files [(["in"; "notes.txt"], [Byte.x6e])];
  dirs := {[ ["in"] ]};
  rng_pos := 0;
  next_id := 0
|}.

(** A readable two-frame video, an audio-only file and an unreadable
    file, next to a temporary directory [/tmp]. *)
Definition w_videos : World := {|
  files := mk_files [(["v"; "ok.mp4"], [Byte.x00; Byte.x0a; Byte.x0b]);
                     (["v"; "audio.mp4"], [Byte.x01; Byte.x0a]);
                     (["v"; "broken.mp4"], [Byte.x7f])];
  dirs := {[ ["v"]; ["tmp"] ]};
  rng_pos := 0;
  next_id := 0
|}.

Definition log_cb : Callback := λ _ _, None.

(** A callback that gives up at the second frame. *)
Definition stop_cb : Callback :=
  λ current _, if (current =? 2)%Z then Some (ValueError "stop") else None.

(** The two streams ffprobe reports for a readable video. *)
Definition audio_stream : dict := [("codec_type", "audio"); ("r_frame_rate", "0/0")].
Definition video_stream : dict :=
  [("codec_type", "video"); ("r_frame_rate", "30000/1001")].

(** A video stream whose rate is printed as a plain number. *)
Definition plain_stream : dict := [("codec_type", "video"); ("r_frame_rate", "25")].

(** As [env], with an ffprobe that reports [plain_stream]. *)
Definition env_plain_rate : Env := {|
  tempdir := ["tmp"];
  random_name := random_name env;
  ffprobe := λ _, Ok (mkProbe [plain_stream]);
  ffmpeg_decode := decode_of;
  ffmpeg_encode := encode_of;
  load_model := load_model env;
  infer := infer_of
|}.

(** A video stream at 25 frames per second, and an ffprobe that reports
    it. *)
Definition pal_stream : dict := [("codec_type", "video"); ("r_frame_rate", "25/1")].

Definition env_pal : Env := {|
  tempdir := ["tmp"];
  random_name := random_name env;
  ffprobe := λ _, Ok (mkProbe [pal_stream]);
  ffmpeg_decode := decode_of;
  ffmpeg_encode := encode_of;
  load_model := load_model env;
  infer := infer_of
|}.

(** [str] on exceptions, for the worker's error message. *)
Definition str_exc : exn → string := λ _, "error".

End Demo.

(* ===================================================================== *)
(** * Properties *)
(* ===================================================================== *)

(** ** The monad *)

Lemma bind_Ok {A B} (m : M A) (f : A -> M B) w a :
  result (m w) = Ok a →
  bind m f w = mkOutcome (result (f a (world (m w)))) (world (f a (world (m w))))
                         (events (m w) ++ events (f a (world (m w)))).
Proof. intros H. unfold bind. by rewrite H. Qed.

Lemma bind_Raise {A B} (m : M A) (f : A -> M B) w e :
  result (m w) = Raise e →
  bind m f w = mkOutcome (Raise e) (world (m w)) (events (m w)).
Proof. intros H. unfold bind. by rewrite H. Qed.

Lemma bind_assoc {A B C} (m : M A) (f : A -> M B) (g : B -> M C) w :
  bind (bind m f) g w = bind m (λ a, bind (f a) g) w.
Proof.
  unfold bind. destruct (result (m w)) as [a|e]; simpl; [|done].
  destruct (result (f a (world (m w)))); simpl; by rewrite ?app_assoc.
Qed.

Lemma bind_ext {A B} (m : M A) (f g : A -> M B) w :
  (∀ a w', f a w' = g a w') → bind m f w = bind m g w.
Proof. intros H. unfold bind. destruct (result (m w)); by rewrite ?H. Qed.

Lemma bind_Ok_inv {A B} (m : M A) (f : A -> M B) w b :
  result (bind m f w) = Ok b →
  ∃ a, result (m w) = Ok a ∧ result (f a (world (m w))) = Ok b.
Proof.
  unfold bind. destruct (result (m w)) as [a|e] eqn:E; simpl; [eauto | done].
Qed.

(** ** Directory creation *)

Lemma is_dir_spec w p : is_dir w p = true ↔ p = [] ∨ p ∈ dirs w.
Proof. unfold is_dir. by rewrite bool_decide_eq_true. Qed.

Lemma is_file_spec w p : is_file w p = true ↔ is_Some (files w !! p).
Proof. unfold is_file. by rewrite bool_decide_eq_true. Qed.

Lemma is_dir_mono w w' p :
  dirs w ⊆ dirs w' → is_dir w p = true → is_dir w' p = true.
Proof. rewrite !is_dir_spec. set_solver. Qed.

Lemma dirs_only_refl w : dirs_only w w [].
Proof. by repeat split. Qed.

Lemma dirs_only_trans w w1 w2 e1 e2 :
  dirs_only w w1 e1 → dirs_only w1 w2 e2 → dirs_only w w2 (e1 ++ e2).
Proof.
  intros (Hf & Hr & Hn & Hd & He) (Hf' & Hr' & Hn' & Hd' & He').
  repeat split; simpl; [congruence.. | set_solver | by apply Forall_app].
Qed.

Lemma os_mkdir_dirs_only p w :
  dirs_only w (world (os_mkdir p w)) (events (os_mkdir p w)).
Proof.
  unfold os_mkdir. repeat case_match; try apply dirs_only_refl.
  repeat split; simpl; [set_solver | by repeat constructor].
Qed.

Lemma os_mkdir_Ok p w : result (os_mkdir p w) = Ok tt → p ∈ dirs (world (os_mkdir p w)).
Proof. unfold os_mkdir. repeat case_match; simpl; [done.. | set_solver]. Qed.

Lemma mkdir_exist_ok_dirs_only p w :
  dirs_only w (world (mkdir_exist_ok p w)) (events (mkdir_exist_ok p w)).
Proof.
  unfold mkdir_exist_ok. pose proof (os_mkdir_dirs_only p w).
  repeat case_match; done.
Qed.

Lemma mkdir_exist_ok_Ok p w :
  result (mkdir_exist_ok p w) = Ok tt → is_dir (world (mkdir_exist_ok p w)) p = true.
Proof.
  unfold mkdir_exist_ok.
  destruct (result (os_mkdir p w)) as [[]|e] eqn:E.
  - intros _. apply is_dir_spec. right. by apply os_mkdir_Ok.
  - destruct e; try (by rewrite E);
      destruct (is_dir (world (os_mkdir p w)) p) eqn:D; simpl; try done;
      by rewrite E.
Qed.

Lemma mkdir_parents_rev_spec rp w :
  dirs_only w (world (mkdir_parents_rev rp w)) (events (mkdir_parents_rev rp w)) ∧
  (result (mkdir_parents_rev rp w) = Ok tt →
   is_dir (world (mkdir_parents_rev rp w)) (rev rp) = true).
Proof.
  revert w. induction rp as [|c rp IH]; intros w.
  - cbn [mkdir_parents_rev]. pose proof (os_mkdir_dirs_only (rev []) w) as Hd.
    split.
    + repeat case_match; done.
    + intros _. by apply is_dir_spec; left.
  - cbn [mkdir_parents_rev]. set (p := rev (c :: rp)).
    pose proof (os_mkdir_dirs_only p w) as Hd.
    destruct (result (os_mkdir p w)) as [[]|e] eqn:E.
    { split; [done|]. intros _. apply is_dir_spec. right. by apply os_mkdir_Ok. }
    assert (Hsw : ∀ o' : Outcome unit,
               o' = (if is_dir (world (os_mkdir p w)) p
                     then mkOutcome (Ok tt) (world (os_mkdir p w)) (events (os_mkdir p w))
                     else os_mkdir p w) →
               dirs_only w (world o') (events o') ∧
               (result o' = Ok tt → is_dir (world o') p = true)).
    { intros o' ->. destruct (is_dir (world (os_mkdir p w)) p) eqn:D; simpl.
      - done.
      - split; [done|]. by rewrite E. }
    destruct e; try (by apply Hsw).
    destruct (IH (world (os_mkdir p w))) as [IHd IHk].
    unfold bind.
    destruct (result (mkdir_parents_rev rp (world (os_mkdir p w)))) as [[]|e'] eqn:E'; simpl.
    + pose proof (mkdir_exist_ok_dirs_only p
                    (world (mkdir_parents_rev rp (world (os_mkdir p w))))) as Hd2.
      split.
      * eapply dirs_only_trans; [done|]. eapply dirs_only_trans; done.
      * apply mkdir_exist_ok_Ok.
    + split; [|done]. eapply dirs_only_trans; done.
Qed.

(** The directories [mkdir] makes are [p] and ancestors of [p]. *)
Lemma os_mkdir_new_dirs p w q :
  q ∈ dirs (world (os_mkdir p w)) → q ∈ dirs w ∨ q = p.
Proof. unfold os_mkdir. repeat case_match; simpl; set_solver. Qed.

Lemma mkdir_exist_ok_new_dirs p w q :
  q ∈ dirs (world (mkdir_exist_ok p w)) → q ∈ dirs w ∨ q = p.
Proof.
  unfold mkdir_exist_ok. repeat case_match; simpl; apply os_mkdir_new_dirs.
Qed.

Lemma mkdir_parents_rev_new_dirs rp w q :
  q ∈ dirs (world (mkdir_parents_rev rp w)) → q ∈ dirs w ∨ q `prefix_of` rev rp.
Proof.
  revert w. induction rp as [|c rp IH]; intros w.
  - cbn [mkdir_parents_rev]. intros Hq.
    assert (q ∈ dirs (world (os_mkdir (rev []) w))) as Hq'
      by (repeat case_match; done).
    apply os_mkdir_new_dirs in Hq' as [?|?]; subst; auto.
  - cbn [mkdir_parents_rev]. set (p := rev (c :: rp)).
    assert (Hstep : q ∈ dirs (world (os_mkdir p w)) → q ∈ dirs w ∨ q `prefix_of` p).
    { intros [?|?]%os_mkdir_new_dirs; subst; auto. }
    assert (Hup : q `prefix_of` rev rp → q `prefix_of` p).
    { intros H. subst p. simpl. by apply prefix_app_r. }
    destruct (result (os_mkdir p w)) as [[]|e] eqn:E; [done|].
    destruct e; try (by case_match).
    unfold bind.
    destruct (result (mkdir_parents_rev rp (world (os_mkdir p w)))) eqn:E'; simpl.
    + intros [Hq|?]%mkdir_exist_ok_new_dirs; [|subst; auto].
      apply IH in Hq as [Hq|Hq]; auto.
    + intros [Hq|Hq]%IH; auto.
Qed.

Lemma mkdir_new_dirs p w q :
  q ∈ dirs (world (mkdir p w)) → q ∈ dirs w ∨ q `prefix_of` p.
Proof.
  unfold mkdir. intros H%mkdir_parents_rev_new_dirs. by rewrite rev_involutive in H.
Qed.

Lemma mkdir_dirs_only p w : dirs_only w (world (mkdir p w)) (events (mkdir p w)).
Proof. apply mkdir_parents_rev_spec. Qed.

Lemma mkdir_Ok p w : result (mkdir p w) = Ok tt → is_dir (world (mkdir p w)) p = true.
Proof.
  intros H. unfold mkdir in *.
  destruct (mkdir_parents_rev_spec (rev p) w) as [_ Hk].
  rewrite rev_involutive in Hk. auto.
Qed.

(** ** Paths and their order *)

Lemma parent_child d n : parent (d </> n) = d.
Proof. unfold parent, child. apply removelast_last. Qed.

Lemma name_child d n : name (d </> n) = n.
Proof. unfold name, child. by rewrite last_snoc. Qed.

Lemma child_inj d d' n n' : d </> n = d' </> n' → d = d' ∧ n = n'.
Proof. unfold child. intros H. by apply app_inj_tail in H. Qed.

Lemma child_not_nil d n : d </> n ≠ [].
Proof. unfold child. by destruct d. Qed.

Lemma parent_name p : p ≠ [] → p = parent p </> name p.
Proof.
  destruct p as [|c p] using rev_ind; [done|]. intros _.
  change (p ++ [c]) with (p </> c). by rewrite parent_child, name_child.
Qed.

#[global] Instance path_le_total : Total path_le.
Proof.
  intros p. unfold path_le.
  induction p as [|a p IH]; intros [|b q]; simpl; auto.
  destruct (decide (a = b)) as [->|Hne].
  - rewrite decide_True by done. apply IH.
  - rewrite decide_False by congruence. apply (String.le_total a b).
Qed.

#[global] Instance path_le_trans : Transitive path_le.
Proof.
  intros p. unfold path_le.
  induction p as [|a p IH]; intros [|b q] [|c r]; simpl; try done.
  destruct (decide (a = b)) as [->|Hab]; destruct (decide (b = c)) as [->|Hbc];
    intros H1 H2.
  - by eapply IH.
  - done.
  - by rewrite decide_False.
  - destruct (decide (a = c)) as [->|Hac].
    + destruct Hab. by apply (anti_symm String.le).
    + by trans b.
Qed.

#[global] Instance path_le_antisymm : AntiSymm (=) path_le.
Proof.
  intros p. unfold path_le.
  induction p as [|a p IH]; intros [|b q]; simpl; try done.
  destruct (decide (a = b)) as [->|Hab].
  - rewrite decide_True by done. intros H1 H2. f_equal. by apply IH.
  - rewrite decide_False by congruence. intros H1 H2.
    destruct Hab. by apply (anti_symm String.le).
Qed.

Lemma path_le_child d a b : path_le (d </> a) (d </> b) ↔ String.le a b.
Proof.
  unfold path_le, child. induction d as [|c d IH]; simpl.
  - destruct (decide (a = b)) as [->|Hab]; [|done].
    split; [|done]. intros _. reflexivity.
  - by rewrite decide_True.
Qed.

(** ** Listing a directory *)

Lemma elem_of_scandir w d p :
  p ∈ scandir w d ↔ p ≠ [] ∧ parent p = d ∧ (is_Some (files w !! p) ∨ p ∈ dirs w).
Proof.
  unfold scandir. rewrite list_elem_of_filter, elem_of_elements, elem_of_union, elem_of_dom.
  tauto.
Qed.

Lemma NoDup_scandir w d : NoDup (scandir w d).
Proof. unfold scandir. apply NoDup_filter, NoDup_elements. Qed.

Lemma elem_of_glob_list w d pre suf p :
  p ∈ glob_list w d pre suf ↔
  is_dir w d = true ∧ fnmatch_star pre suf (name p) = true ∧ p ∈ scandir w d.
Proof.
  unfold glob_list. destruct (is_dir w d).
  - rewrite list_elem_of_filter. tauto.
  - rewrite elem_of_nil. split; [done | by intros [? _]].
Qed.

Lemma NoDup_glob_list w d pre suf : NoDup (glob_list w d pre suf).
Proof.
  unfold glob_list. destruct (is_dir w d); [|constructor].
  apply NoDup_filter, NoDup_scandir.
Qed.

Lemma sorted_Permutation l : sorted l ≡ₚ l.
Proof. apply merge_sort_Permutation. Qed.

Lemma sorted_StronglySorted l : StronglySorted path_le (sorted l).
Proof. apply StronglySorted_merge_sort; apply _. Qed.

(** The sorted list depends on the set of entries only, not on the order
    in which the store enumerates them. *)
Lemma sorted_order_independent l1 l2 : l1 ≡ₚ l2 → sorted l1 = sorted l2.
Proof.
  intros H. apply (StronglySorted_unique path_le); try apply sorted_StronglySorted.
  by rewrite !sorted_Permutation.
Qed.

Lemma elem_of_listing w d p :
  p ∈ listing w d ↔
  is_dir w d = true ∧ is_frame_name (name p) = true ∧ p ≠ [] ∧ parent p = d ∧
  (is_Some (files w !! p) ∨ p ∈ dirs w).
Proof.
  unfold listing. rewrite sorted_Permutation, elem_of_glob_list, elem_of_scandir.
  unfold is_frame_name. tauto.
Qed.

Lemma NoDup_listing w d : NoDup (listing w d).
Proof. unfold listing. rewrite sorted_Permutation. apply NoDup_glob_list. Qed.

Lemma listing_child w d p : p ∈ listing w d → p = d </> name p.
Proof.
  rewrite elem_of_listing. intros (_ & _ & Hne & <- & _). by apply parent_name.
Qed.

Lemma Forall_listing_child w d : Forall (λ p, p = d </> name p) (listing w d).
Proof. apply Forall_forall. intros p. apply listing_child. Qed.

Lemma names_StronglySorted d l :
  Forall (λ p, p = d </> name p) l → StronglySorted path_le l →
  StronglySorted String.le (name <$> l).
Proof.
  intros Hd Hs. induction Hs as [|p l Hs IH Hp]; simpl; [constructor|].
  apply Forall_cons in Hd as [Hpd Hd]. constructor; [by apply IH|].
  apply Forall_fmap, Forall_forall. intros q Hq. simpl.
  rewrite Forall_forall in Hp, Hd. specialize (Hp q Hq). specialize (Hd q Hq).
  rewrite Hpd, Hd in Hp. by apply path_le_child in Hp.
Qed.

Lemma names_NoDup d l :
  Forall (λ p, p = d </> name p) l → NoDup l → NoDup (name <$> l).
Proof.
  intros Hd Hn. apply NoDup_fmap_2_strong; [|done].
  rewrite Forall_forall in Hd. intros p q Hp Hq Hpq.
  rewrite (Hd p Hp), (Hd q Hq). by rewrite Hpq.
Qed.

(** ** Event logs *)

(** Membership in an explicit list of events, one element at a time. *)
Ltac inv_elem H :=
  repeat first
    [ apply elem_of_nil in H; destruct H
    | apply elem_of_cons in H; destruct H as [H|H]; [try discriminate H|] ].

Lemma progress_calls_app e1 e2 :
  progress_calls (e1 ++ e2) = progress_calls e1 ++ progress_calls e2.
Proof. apply omap_app. Qed.

Lemma sessions_built_app e1 e2 :
  sessions_built (e1 ++ e2) = sessions_built e1 ++ sessions_built e2.
Proof. apply omap_app. Qed.

Lemma sessions_used_app e1 e2 :
  sessions_used (e1 ++ e2) = sessions_used e1 ++ sessions_used e2.
Proof. apply omap_app. Qed.


Lemma reads_app e1 e2 : reads (e1 ++ e2) = reads e1 ++ reads e2.
Proof. apply omap_app. Qed.

Lemma writes_app e1 e2 : writes (e1 ++ e2) = writes e1 ++ writes e2.
Proof. apply omap_app. Qed.

Lemma encode_rates_app e1 e2 :
  encode_rates (e1 ++ e2) = encode_rates e1 ++ encode_rates e2.
Proof. apply omap_app. Qed.

(** Directory creations show in none of the projections. *)
Lemma mkdir_events_silent evs :
  Forall is_mkdir evs →
  progress_calls evs = [] ∧ sessions_built evs = [] ∧ sessions_used evs = [] ∧
  reads evs = [] ∧ writes evs = [] ∧ encode_rates evs = [].
Proof.
  induction 1 as [|e evs He _ IH]; [done|].
  by destruct e.
Qed.


Lemma elem_of_writes evs p : p ∈ writes evs ↔ ∃ data, EvWrite p data ∈ evs.
Proof.
  unfold writes. rewrite list_elem_of_omap. split.
  - intros (e & He & Hp). destruct e; simplify_eq. eauto.
  - intros (data & He). eexists. split; [done|]. done.
Qed.

Lemma mkdir_events_no_infer evs s b : Forall is_mkdir evs → EvInfer s b ∉ evs.
Proof. rewrite Forall_forall. intros H Hin. by apply H in Hin. Qed.

Lemma mkdir_events_no_write evs p data : Forall is_mkdir evs → EvWrite p data ∉ evs.
Proof. rewrite Forall_forall. intros H Hin. by apply H in Hin. Qed.

(** ** The frame loop *)

Section FrameLoop.
Context (env : Env) (output_dir : Path) (session : Session)
        (progress_callback : option Callback) (total : Z).

Local Abbreviation loop := (frames_loop env output_dir session progress_callback total).
Local Abbreviation iter := (frame_iteration env output_dir session progress_callback total).
Local Abbreviation target := (λ p : Path, output_dir </> name p).
Local Abbreviation pass := (pass_outcome env output_dir session progress_callback total).

Lemma frames_loop_cons i p rest w :
  loop i (p :: rest) w = (iter i p ;;; loop (i + 1)%Z rest) w.
Proof.
  cbn [frames_loop]. unfold frame_iteration.
  rewrite bind_assoc. apply bind_ext. intros input_bytes w1.
  rewrite bind_assoc. apply bind_ext. intros output_bytes w2.
  by rewrite bind_assoc.
Qed.

Lemma frame_iteration_outcome i p w : pass i p w (iter i p w).
Proof.
  unfold frame_iteration, bind, read_bytes, remove, write_bytes, call_callback,
    emit, lift, raise, ret, bind.
  destruct (files w !! p) as [input|] eqn:Hf; simpl.
  2: { destruct (is_dir w p); [|destruct (under_a_file w p)]; by constructor. }
  destruct (infer env session input) as [output|e] eqn:Hi; simpl.
  2: { by constructor. }
  destruct (is_dir w (target p)) eqn:D1; simpl.
  { by econstructor 3. }
  destruct (under_a_file w (target p)) eqn:D2; simpl.
  { by econstructor 3. }
  destruct (is_dir w (parent (target p))) eqn:D3; simpl.
  2: { by econstructor 3. }
  rewrite parent_child in D3.
  destruct progress_callback as [cb|] eqn:Hcb; simpl.
  - destruct (cb i total) as [e|] eqn:Hc; simpl.
    + by apply (pass_callback_fails _ _ _ (Some cb) _ _ _ _ input output cb e).
    + by apply (pass_completes _ _ _ (Some cb) _ _ _ _ input output).
  - by apply (pass_completes _ _ _ None _ _ _ _ input output).
Qed.

Lemma frames_loop_cons_cases i p rest w :
  (∃ o e, pass i p w o ∧ result o = Raise e ∧ loop i (p :: rest) w = o) ∨
  (∃ input output,
      files w !! p = Some input ∧ infer env session input = Ok output ∧
      is_dir w output_dir = true ∧
      match progress_callback with Some cb => cb i total = None | None => True end ∧
      loop i (p :: rest) w =
        let o' := loop (i + 1)%Z rest (set_file (target p) output w) in
        mkOutcome (result o') (world o')
          (pass_events output_dir session progress_callback total i p input output
             ++ events o')).
Proof.
  rewrite frames_loop_cons. pose proof (frame_iteration_outcome i p w) as H.
  unfold bind. remember (iter i p w) as o eqn:Ho. clear Ho.
  destruct H; cbn [result world events];
    [left; eexists _, e; split_and!; [by econstructor | done..] .. |].
  right. by exists input, output.
Qed.



Lemma pass_events_progress i p input output :
  progress_calls (pass_events output_dir session progress_callback total i p input output) =
  match progress_callback with Some _ => [(i, total)] | None => [] end.
Proof. unfold pass_events. by destruct progress_callback. Qed.

Lemma pass_events_reads i p input output :
  reads (pass_events output_dir session progress_callback total i p input output) = [p].
Proof. unfold pass_events. by destruct progress_callback. Qed.

Lemma pass_events_writes i p input output :
  writes (pass_events output_dir session progress_callback total i p input output) = [target p].
Proof. unfold pass_events. by destruct progress_callback. Qed.

Lemma elem_of_pass_events_infer i p input output s b :
  EvInfer s b ∈ pass_events output_dir session progress_callback total i p input output →
  s = session ∧ b = input.
Proof.
  unfold pass_events. destruct progress_callback; simpl;
    rewrite !elem_of_cons, elem_of_nil; intros H;
    repeat (destruct H as [H|H]); by simplify_eq.
Qed.

Lemma elem_of_pass_events_write i p input output q data :
  EvWrite q data ∈ pass_events output_dir session progress_callback total i p input output →
  q = target p ∧ data = output.
Proof.
  unfold pass_events. destruct progress_callback; simpl;
    rewrite !elem_of_cons, elem_of_nil; intros H;
    repeat (destruct H as [H|H]); by simplify_eq.
Qed.

(** Without a callback no progress is ever reported. *)
Lemma frames_loop_no_callback l i w :
  progress_callback = None → progress_calls (events (loop i l w)) = [].
Proof.
  intros Hcb. revert i w. induction l as [|p rest IH]; intros i w; [done|].
  destruct (frames_loop_cons_cases i p rest w)
    as [(o & e & Hp & _ & ->) | (input & output & _ & _ & _ & _ & ->)].
  - destruct Hp; cbn [events]; rewrite ?pass_events_progress, ?Hcb; done.
  - cbn [events]. by rewrite progress_calls_app, IH, pass_events_progress, Hcb.
Qed.

(** A completed loop has called the callback once per frame, with the
    indices in order. *)
Lemma frames_loop_progress l j w cb :
  progress_callback = Some cb →
  result (loop (Z.of_nat j) l w) = Ok tt →
  progress_calls (events (loop (Z.of_nat j) l w)) =
  (λ k, (Z.of_nat k, total)) <$> seq j (length l).
Proof.
  intros Hcb. revert j w. induction l as [|p rest IH]; intros j w; [done|].
  destruct (frames_loop_cons_cases (Z.of_nat j) p rest w)
    as [(o & e & Hp & He & ->) | (input & output & _ & _ & _ & _ & ->)].
  - by rewrite He.
  - cbn [events result]. replace (Z.of_nat j + 1)%Z with (Z.of_nat (S j)) by lia.
    intros Hok. rewrite progress_calls_app, IH, pass_events_progress, Hcb by done.
    done.
Qed.

(** The loop touches nothing but the files it writes. *)
Lemma frames_loop_frame l i w :
  dirs (world (loop i l w)) = dirs w ∧
  next_id (world (loop i l w)) = next_id w ∧
  rng_pos (world (loop i l w)) = rng_pos w ∧
  ∀ q, q ∉ target <$> l → files (world (loop i l w)) !! q = files w !! q.
Proof.
  revert i w. induction l as [|p rest IH]; intros i w; [done|].
  destruct (frames_loop_cons_cases i p rest w)
    as [(o & e & Hp & _ & ->) | (input & output & _ & _ & _ & _ & ->)].
  - destruct Hp; cbn [world]; split_and!; try done;
      intros q Hq; simpl; apply lookup_insert_ne; set_solver.
  - cbn [world].
    destruct (IH (i + 1)%Z (set_file (target p) output w)) as (-> & -> & -> & Hf).
    split_and!; try done. intros q Hq. rewrite Hf by set_solver.
    simpl. apply lookup_insert_ne. set_solver.
Qed.

(** A completed loop has read every frame and written one output per
    frame, in the order of the list. *)
Lemma frames_loop_completed l i w :
  result (loop i l w) = Ok tt →
  reads (events (loop i l w)) = l ∧
  writes (events (loop i l w)) = target <$> l ∧
  dom (files (world (loop i l w))) = dom (files w) ∪ list_to_set (target <$> l).
Proof.
  revert i w. induction l as [|p rest IH]; intros i w.
  { intros _. split_and!; try done. set_solver. }
  destruct (frames_loop_cons_cases i p rest w)
    as [(o & e & Hp & He & ->) | (input & output & _ & _ & _ & _ & ->)].
  - by rewrite He.
  - cbn [events result world]. intros Hok.
    destruct (IH _ _ Hok) as (Hr & Hw & Hd).
    rewrite reads_app, writes_app, pass_events_reads, pass_events_writes, Hr, Hw, Hd.
    split_and!; try done. simpl. rewrite dom_insert_L. set_solver.
Qed.

(** ... and every frame it read was a file of the world it started in. *)
Lemma frames_loop_sources d l i w :
  result (loop i l w) = Ok tt →
  NoDup (name <$> l) → Forall (λ p, p = d </> name p) l →
  Forall (λ p, is_Some (files w !! p)) l.
Proof.
  revert i w. induction l as [|p rest IH]; intros i w; [by constructor|].
  destruct (frames_loop_cons_cases i p rest w)
    as [(o & e & Hp & He & ->) | (input & output & Hin & _ & _ & _ & ->)].
  - by rewrite He.
  - cbn [result]. intros Hok Hnd Hch.
    rewrite fmap_cons in Hnd. apply NoDup_cons in Hnd as [Hp Hnd].
    apply Forall_cons in Hch as [Hpd Hch].
    constructor; [by rewrite Hin|].
    specialize (IH _ _ Hok Hnd Hch).
    rewrite Forall_forall in IH, Hch. apply Forall_forall. intros q Hq.
    specialize (IH q Hq). simpl in IH.
    rewrite lookup_insert_ne in IH; [done|].
    intros Heq. rewrite (Hch q Hq) in Heq. apply child_inj in Heq as [_ Heq].
    apply Hp. rewrite Heq. by apply list_elem_of_fmap_2.
Qed.



(** When the names are distinct, what a pass wrote is still there when
    the loop ends, however it ends. *)
Lemma frames_loop_writes_remain l i w q data :
  NoDup (name <$> l) →
  EvWrite q data ∈ events (loop i l w) →
  files (world (loop i l w)) !! q = Some data.
Proof.
  revert i w. induction l as [|p rest IH]; intros i w Hnd.
  { simpl. by rewrite elem_of_nil. }
  rewrite fmap_cons in Hnd. apply NoDup_cons in Hnd as [Hp Hnd].
  destruct (frames_loop_cons_cases i p rest w)
    as [(o & e & Hpass & _ & ->) | (input & output & _ & _ & _ & _ & ->)].
  - destruct Hpass; cbn [events world]; intros Hmem;
      first [ apply elem_of_pass_events_write in Hmem as [-> ->];
              simpl; apply lookup_insert_eq
            | inv_elem Hmem ].
  - cbn [events world]. rewrite elem_of_app. intros [Hq|Hq].
    + apply elem_of_pass_events_write in Hq as [-> ->].
      destruct (frames_loop_frame rest (i + 1)%Z (set_file (target p) output w))
        as (_ & _ & _ & Hf).
      rewrite Hf; [simpl; apply lookup_insert_eq|].
      intros (p' & Heq & Hp')%list_elem_of_fmap.
      apply child_inj in Heq as [_ Heq].
      apply Hp. rewrite Heq. by apply list_elem_of_fmap_2.
    + by apply IH.
Qed.

(** A failing inference ends the loop with that error: the frames before
    it were read, inferred and written, the failing frame was only read,
    and no later frame was touched. *)
Lemma frames_loop_infer_fails l i w s b e :
  EvInfer s b ∈ events (loop i l w) → infer env s b = Raise e →
  result (loop i l w) = Raise e ∧
  ∃ before failing after,
    l = before ++ failing :: after ∧
    reads (events (loop i l w)) = before ++ [failing] ∧
    writes (events (loop i l w)) = target <$> before.
Proof.
  revert i w. induction l as [|p rest IH]; intros i w.
  { simpl. by rewrite elem_of_nil. }
  destruct (frames_loop_cons_cases i p rest w)
    as [(o & e' & Hpass & He & ->) | (input & output & _ & Hinf & _ & _ & ->)].
  - destruct Hpass; cbn [events result]; intros Hmem Hb.
    + inv_elem Hmem.
    + inv_elem Hmem. simplify_eq. split; [congruence|]. by exists [], p, rest.
    + inv_elem Hmem. simplify_eq. congruence.
    + apply elem_of_pass_events_infer in Hmem as [-> ->]. congruence.
    + done.
  - cbn [events result]. rewrite elem_of_app. intros [Hq|Hq] Hb.
    + apply elem_of_pass_events_infer in Hq as [-> ->]. congruence.
    + destruct (IH _ _ Hq Hb) as (Hr & before & failing & after & -> & Hrd & Hwr).
      split; [done|]. exists (p :: before), failing, after.
      by rewrite reads_app, writes_app, pass_events_reads, pass_events_writes, Hrd, Hwr.
Qed.

End FrameLoop.

(** ** The three ways [remove_background_from_frames] goes *)

Section RemoveBackground.
Context (env : Env) (frames_dir output_dir : Path) (model_name : string)
        (progress_callback : option Callback) (w : World).

Local Abbreviation run :=
  (remove_background_from_frames env frames_dir output_dir model_name
     progress_callback w).
(** The world in which the frames are listed, the session the loop
    uses, and the loop itself. *)
Local Abbreviation w1 := (world (mkdir output_dir w)).
Local Abbreviation the_session := (mkSession model_name (next_id w1)).
Local Abbreviation the_loop :=
  (frames_loop env output_dir the_session progress_callback
     (Z.of_nat (length (listing w1 frames_dir))) 1
     (listing w1 frames_dir) (bump_id w1)).

Lemma rbff_mkdir_fails e :
  result (mkdir output_dir w) = Raise e →
  run = mkOutcome (Raise e) w1 (events (mkdir output_dir w)).
Proof.
  intros H. unfold remove_background_from_frames. by rewrite (bind_Raise _ _ _ e).
Qed.

Lemma rbff_load_fails e :
  result (mkdir output_dir w) = Ok tt → load_model env model_name = Some e →
  run = mkOutcome (Raise e) w1
          (events (mkdir output_dir w) ++ [EvGlob frames_dir; EvNewSession model_name]).
Proof.
  intros H Hl. unfold remove_background_from_frames.
  rewrite (bind_Ok _ _ _ tt) by done.
  unfold bind, glob, new_session. simpl. by rewrite Hl.
Qed.

Lemma rbff_loop :
  result (mkdir output_dir w) = Ok tt → load_model env model_name = None →
  run = mkOutcome (result the_loop) (world the_loop)
          (events (mkdir output_dir w) ++
           [EvGlob frames_dir; EvNewSession model_name] ++ events the_loop).
Proof.
  intros H Hl. unfold remove_background_from_frames.
  rewrite (bind_Ok _ _ _ tt) by done.
  unfold bind, glob, new_session. simpl. by rewrite Hl.
Qed.

(** Whatever happens, the run is one of these three. *)
Lemma rbff_cases :
  (∃ e, result (mkdir output_dir w) = Raise e ∧
        run = mkOutcome (Raise e) w1 (events (mkdir output_dir w))) ∨
  (∃ e, result (mkdir output_dir w) = Ok tt ∧ load_model env model_name = Some e ∧
        run = mkOutcome (Raise e) w1
                (events (mkdir output_dir w) ++
                 [EvGlob frames_dir; EvNewSession model_name])) ∨
  (result (mkdir output_dir w) = Ok tt ∧ load_model env model_name = None ∧
   run = mkOutcome (result the_loop) (world the_loop)
           (events (mkdir output_dir w) ++
            [EvGlob frames_dir; EvNewSession model_name] ++ events the_loop)).
Proof.
  destruct (result (mkdir output_dir w)) as [[]|e] eqn:Hm.
  - destruct (load_model env model_name) as [e|] eqn:Hl.
    + right; left. exists e. split_and!; try done. by apply rbff_load_fails.
    + right; right. split_and!; try done. by apply rbff_loop.
  - left. exists e. split; [done|]. by apply rbff_mkdir_fails.
Qed.

End RemoveBackground.

(** ** File names of a directory *)

Lemma elem_of_file_names w d n :
  n ∈ file_names w d ↔ is_Some (files w !! (d </> n)).
Proof.
  unfold file_names. rewrite elem_of_map. split.
  - intros (p & -> & Hp). apply elem_of_filter in Hp as [[Hne <-] Hp].
    rewrite <- parent_name by done. by apply elem_of_dom.
  - intros Hn. exists (d </> n). rewrite name_child. split; [done|].
    apply elem_of_filter. rewrite parent_child.
    split; [split; [apply child_not_nil | done] | by apply elem_of_dom].
Qed.

Lemma elem_of_frame_files_in w d n :
  n ∈ frame_files_in w d ↔ is_frame_name n = true ∧ is_Some (files w !! (d </> n)).
Proof. unfold frame_files_in. by rewrite elem_of_filter, elem_of_file_names. Qed.

(** When every listed entry is a file of [w], a world that differs from
    the listing's world by directories only, the names listed are the
    frame files of [w]. *)
Lemma listing_names w w' evs d :
  wf_files w → dirs_only w w' evs →
  Forall (λ p, is_Some (files w !! p)) (listing w' d) →
  list_to_set (name <$> listing w' d) = frame_files_in w d.
Proof.
  intros Hwf (Hf & _ & _ & Hd & _) Hall. apply set_eq. intros n.
  rewrite elem_of_list_to_set, list_elem_of_fmap, elem_of_frame_files_in. split.
  - intros (p & -> & Hp). rewrite Forall_forall in Hall.
    pose proof (Hall p Hp) as Hfile.
    apply elem_of_listing in Hp as (_ & Hm & Hne & <- & _).
    by rewrite <- parent_name.
  - intros [Hm [data Hfile]]. exists (d </> n). rewrite name_child. split; [done|].
    apply elem_of_listing. rewrite name_child, parent_child, Hf.
    split_and!; eauto using child_not_nil.
    apply (is_dir_mono w); [done|]. specialize (Hwf _ _ Hfile). simpl in Hwf.
    by rewrite parent_child in Hwf.
Qed.

(** ** [remove_background_from_frames] *)

Section RemoveBackgroundClaims.
Context (env : Env) (frames_dir output_dir : Path) (model_name : string).

Local Abbreviation rbff :=
  (remove_background_from_frames env frames_dir output_dir model_name).
Local Abbreviation target := (λ p : Path, output_dir </> name p).

(** A run that returns went through the loop, over a list whose names
    are the frame files of the directory. *)
Lemma rbff_returns cb w :
  wf_files w → result (rbff cb w) = Ok tt →
  let w1 := world (mkdir output_dir w) in
  let l := listing w1 frames_dir in
  let o := frames_loop env output_dir (mkSession model_name (next_id w1)) cb
             (Z.of_nat (length l)) 1 l (bump_id w1) in
  result (mkdir output_dir w) = Ok tt ∧
  result o = Ok tt ∧
  rbff cb w = mkOutcome (Ok tt) (world o)
                (events (mkdir output_dir w) ++
                 [EvGlob frames_dir; EvNewSession model_name] ++ events o) ∧
  list_to_set (name <$> l) = frame_files_in w frames_dir ∧
  length l = size (frame_files_in w frames_dir).
Proof.
  intros Hwf Hok w1 l o.
  destruct (rbff_cases env frames_dir output_dir model_name cb w)
    as [(e & _ & Hrun) | [(e & _ & _ & Hrun) | (Hm & Hl & Hrun)]];
    [by rewrite Hrun in Hok.. |].
  fold w1 l o in Hrun. assert (Ho : result o = Ok tt) by (by rewrite Hrun in Hok).
  rewrite Ho in Hrun.
  pose proof (mkdir_dirs_only output_dir w) as Hd. fold w1 in Hd.
  assert (Hnames : list_to_set (name <$> l) = frame_files_in w frames_dir).
  { eapply listing_names; [done..|].
    destruct Hd as (Hf & _). rewrite <- Hf.
    change (files w1) with (files (bump_id w1)).
    eapply frames_loop_sources; [exact Ho | |apply Forall_listing_child].
    eapply names_NoDup; [apply Forall_listing_child | apply NoDup_listing]. }
  split_and!; try done.
  rewrite <- Hnames, size_list_to_set, length_fmap; [done|].
  eapply names_NoDup; [apply Forall_listing_child | apply NoDup_listing].
Qed.

(** C2. When a progress callback is supplied and the batch is processed,
    the callback is called exactly N times, N the number of frame files,
    with [(1, N)], [(2, N)], ..., [(N, N)] in this order; when no
    callback is supplied, no progress is reported. *)
Theorem progress_reported_once_per_frame cb w :
  wf_files w →
  result (rbff (Some cb) w) = Ok tt →
  let N := size (frame_files_in w frames_dir) in
  progress_calls (events (rbff (Some cb) w)) =
    (λ k, (Z.of_nat k, Z.of_nat N)) <$> seq 1 N ∧
  progress_calls (events (rbff None w)) = [].
Proof.
  intros Hwf Hok N. split.
  - destruct (rbff_returns (Some cb) w Hwf Hok) as (_ & Ho & -> & _ & Hlen).
    cbn [events]. rewrite !progress_calls_app.
    destruct (mkdir_events_silent _ (proj2 (proj2 (proj2 (proj2
               (mkdir_dirs_only output_dir w)))))) as (-> & _).
    change 1%Z with (Z.of_nat 1) in *.
    rewrite (frames_loop_progress _ _ _ _ _ _ _ _ cb) by done.
    simpl. by rewrite Hlen.
  - destruct (rbff_cases env frames_dir output_dir model_name None w)
      as [(e & _ & ->) | [(e & _ & _ & ->) | (_ & _ & ->)]];
      cbn [events]; rewrite ?progress_calls_app;
      destruct (mkdir_events_silent _ (proj2 (proj2 (proj2 (proj2
                 (mkdir_dirs_only output_dir w)))))) as (-> & _); try done.
    by rewrite frames_loop_no_callback.
Qed.

Lemma children_of_names d (l : list Path) :
  Forall (λ p, p = d </> name p) l → l = child d <$> (name <$> l).
Proof.
  induction 1 as [|p l Hp _ IH]; [done|]. rewrite !fmap_cons. by rewrite <- Hp, <- IH.
Qed.

Lemma rbff_silent_prefix w :
  reads (events (mkdir output_dir w)) = [] ∧
  writes (events (mkdir output_dir w)) = [] ∧
  sessions_built (events (mkdir output_dir w)) = [] ∧
  sessions_used (events (mkdir output_dir w)) = [] ∧
  progress_calls (events (mkdir output_dir w)) = [].
Proof.
  destruct (mkdir_events_silent _ (proj2 (proj2 (proj2 (proj2
             (mkdir_dirs_only output_dir w)))))) as (? & ? & ? & ? & ? & _).
  done.
Qed.

(** What the output directory holds after a run that returns. *)
Lemma rbff_output_names cb w :
  wf_files w → result (rbff cb w) = Ok tt →
  file_names (world (rbff cb w)) output_dir =
    file_names w output_dir ∪ frame_files_in w frames_dir.
Proof.
  intros Hwf Hok.
  destruct (rbff_returns cb w Hwf Hok) as (_ & Ho & -> & Hnames & _).
  destruct (frames_loop_completed _ _ _ _ _ _ _ _ Ho) as (_ & _ & Hd).
  cbn [world]. apply set_eq. intros n.
  rewrite elem_of_union, <- Hnames, !elem_of_file_names, <- !elem_of_dom, Hd.
  rewrite elem_of_union, !elem_of_list_to_set, !list_elem_of_fmap. simpl.
  destruct (mkdir_dirs_only output_dir w) as (-> & _).
  split; (intros [?|(p & Hn & Hp)]; [by left | right; exists p; split; [|done]]).
  - by apply child_inj in Hn as [_ ->].
  - by rewrite Hn.
Qed.

(** C3, as the code has it. A run that returns has read exactly the
    frame files of the input directory, in increasing order of their
    names, and has written one output per frame under the same name, in
    the same order; afterwards the output directory holds these names
    and the files it held before: exactly these names when it held no
    file of another name. *)
Theorem outputs_mirror_frame_files cb w :
  wf_files w →
  result (rbff cb w) = Ok tt →
  let names := name <$> reads (events (rbff cb w)) in
  reads (events (rbff cb w)) = child frames_dir <$> names ∧
  writes (events (rbff cb w)) = child output_dir <$> names ∧
  StronglySorted String.le names ∧ NoDup names ∧
  list_to_set names = frame_files_in w frames_dir ∧
  file_names (world (rbff cb w)) output_dir =
    file_names w output_dir ∪ frame_files_in w frames_dir ∧
  (file_names w output_dir ⊆ frame_files_in w frames_dir →
   file_names (world (rbff cb w)) output_dir = frame_files_in w frames_dir).
Proof.
  intros Hwf Hok. pose proof (rbff_output_names cb w Hwf Hok) as Hout.
  destruct (rbff_returns cb w Hwf Hok) as (_ & Ho & Hrun & Hnames & _).
  rewrite Hrun in Hout |- *.
  destruct (frames_loop_completed _ _ _ _ _ _ _ _ Ho) as (Hr & Hw & _).
  destruct (rbff_silent_prefix w) as (Hr0 & Hw0 & _).
  cbn [events world] in *. rewrite !reads_app, !writes_app, Hr0, Hw0, Hr, Hw. simpl.
  set (l := listing (world (mkdir output_dir w)) frames_dir) in *.
  pose proof (Forall_listing_child (world (mkdir output_dir w)) frames_dir) as Hch.
  fold l in Hch.
  split_and!.
  - by apply children_of_names.
  - by rewrite <- list_fmap_compose.
  - eapply names_StronglySorted; [done|]. apply sorted_StronglySorted.
  - eapply names_NoDup; [done | apply NoDup_listing].
  - done.
  - done.
  - intros Hsub. rewrite Hout. set_solver.
Qed.


(** C5. When inference fails on a frame, the run fails with that error:
    the frames before the failing one have been read and their outputs
    written, no later frame is touched, and everything written is still
    in place when the error leaves. *)
Theorem inference_failure_fails_batch cb w s b e :
  EvInfer s b ∈ events (rbff cb w) →
  infer env s b = Raise e →
  result (rbff cb w) = Raise e ∧
  (∃ before failing after,
      listing (world (mkdir output_dir w)) frames_dir = before ++ failing :: after ∧
      reads (events (rbff cb w)) = before ++ [failing] ∧
      writes (events (rbff cb w)) = target <$> before) ∧
  (∀ q data, EvWrite q data ∈ events (rbff cb w) →
             files (world (rbff cb w)) !! q = Some data).
Proof.
  destruct (rbff_silent_prefix w) as (Hr0 & Hw0 & _).
  destruct (mkdir_dirs_only output_dir w) as (_ & _ & _ & _ & Hmk).
  destruct (rbff_cases env frames_dir output_dir model_name cb w)
    as [(e' & _ & ->) | [(e' & _ & _ & ->) | (_ & _ & ->)]];
    cbn [events result world]; rewrite ?elem_of_app; intros Hin Hinf.
  - by apply mkdir_events_no_infer in Hin.
  - destruct Hin as [Hin|Hin]; [by apply mkdir_events_no_infer in Hin | inv_elem Hin].
  - destruct Hin as [Hin|[Hin|Hin]];
      [by apply mkdir_events_no_infer in Hin | inv_elem Hin |].
    destruct (frames_loop_infer_fails _ _ _ _ _ _ _ _ _ _ _ Hin Hinf)
      as (Hres & before & failing & after & Hl & Hr & Hw).
    split_and!; [done | |].
    + exists before, failing, after.
      by rewrite !reads_app, !writes_app, Hr0, Hw0, Hr, Hw.
    + intros q data Hq. rewrite !elem_of_app in Hq. destruct Hq as [Hq|[Hq|Hq]].
      * by apply mkdir_events_no_write in Hq.
      * inv_elem Hq.
      * eapply frames_loop_writes_remain; [|done].
        eapply names_NoDup; [apply Forall_listing_child | apply NoDup_listing].
Qed.

(** C6. When rembg does not know the model name, the run fails with
    rembg's error as soon as the output directory exists, and no frame has
    been read, inferred or written: the files are those of before. *)
Theorem unknown_model_fails_before_frames cb w e :
  load_model env model_name = Some e →
  (result (mkdir output_dir w) = Ok tt → result (rbff cb w) = Raise e) ∧
  (∃ e', result (rbff cb w) = Raise e') ∧
  reads (events (rbff cb w)) = [] ∧
  sessions_used (events (rbff cb w)) = [] ∧
  writes (events (rbff cb w)) = [] ∧
  progress_calls (events (rbff cb w)) = [] ∧
  files (world (rbff cb w)) = files w.
Proof.
  intros Hl.
  destruct (rbff_silent_prefix w) as (Hr0 & Hw0 & Hb0 & Hu0 & Hp0).
  destruct (mkdir_dirs_only output_dir w) as (Hf & _).
  destruct (rbff_cases env frames_dir output_dir model_name cb w)
    as [(e' & Hm & ->) | [(e' & Hm & Hl' & ->) | (_ & Hl' & _)]];
    [| |congruence]; cbn [events result world];
    rewrite ?reads_app, ?sessions_used_app, ?writes_app, ?progress_calls_app,
      ?Hr0, ?Hw0, ?Hu0, ?Hp0, Hm.
  - split_and!; eauto. done.
  - split_and!; eauto. intros _. congruence.
Qed.

(** C10. When the source directory has no entry named [frame_*.png] (and
    the destination is not about to become one), the directory can be
    made and the model is known, the run returns: the directory exists,
    one session was built, the callback was not called, and no file was
    read or written. *)
Theorem empty_source_returns cb w :
  (∀ n, is_frame_name n = true →
        files w !! (frames_dir </> n) = None ∧ frames_dir </> n ∉ dirs w) →
  (∀ n, is_frame_name n = true → ¬ (frames_dir </> n) `prefix_of` output_dir) →
  result (mkdir output_dir w) = Ok tt →
  load_model env model_name = None →
  result (rbff cb w) = Ok tt ∧
  is_dir (world (rbff cb w)) output_dir = true ∧
  sessions_built (events (rbff cb w)) = [model_name] ∧
  progress_calls (events (rbff cb w)) = [] ∧
  reads (events (rbff cb w)) = [] ∧
  writes (events (rbff cb w)) = [] ∧
  files (world (rbff cb w)) = files w.
Proof.
  intros Hnone Hout Hm Hl.
  destruct (rbff_silent_prefix w) as (Hr0 & Hw0 & Hb0 & Hu0 & Hp0).
  destruct (mkdir_dirs_only output_dir w) as (Hf & _).
  assert (Hlist : listing (world (mkdir output_dir w)) frames_dir = []).
  { apply elem_of_nil_inv. intros p (_ & Hn & Hne & Hpar & Hent)%elem_of_listing.
    apply parent_name in Hne. rewrite Hpar in Hne.
    destruct (Hnone _ Hn) as [Hfile Hdir]. rewrite <- Hne in Hfile, Hdir.
    destruct Hent as [Hent|Hent].
    - rewrite Hf, Hfile in Hent. by destruct Hent.
    - apply mkdir_new_dirs in Hent as [?|Hpre]; [done|].
      apply (Hout _ Hn). by rewrite <- Hne. }
  rewrite (rbff_loop env frames_dir output_dir model_name cb w Hm Hl), Hlist.
  cbn [frames_loop ret events result world length].
  rewrite !sessions_built_app, !progress_calls_app, !reads_app, !writes_app,
    Hr0, Hw0, Hb0, Hp0.
  split_and!; try done.
  apply mkdir_Ok in Hm. by rewrite is_dir_spec in *.
Qed.

End RemoveBackgroundClaims.

(** ** The prober *)

Lemma next_video_stream_none streams :
  Forall (λ s, ∃ c, getitem s "codec_type" = Ok c ∧ c ≠ "video") streams →
  next_video_stream streams = Raise StopIteration.
Proof.
  induction 1 as [|s streams (c & Hc & Hne) _ IH]; [done|].
  simpl. rewrite Hc. by apply String.eqb_neq in Hne as ->.
Qed.

(** C7. For an asset whose container cannot be read, or which has no
    video stream, the prober fails: with ffprobe's error in the first
    case, with [StopIteration] in the second. *)
Theorem prober_fails_on_unusable_asset env video_path w e :
  unusable_asset env w video_path e →
  result (_get_video_framerate env video_path w) = Raise e.
Proof.
  intros [e' He | probe Hp Hs]; unfold _get_video_framerate.
  - by rewrite (bind_Raise _ _ _ e').
  - rewrite (bind_Ok _ _ _ probe) by done. cbn [result lift].
    unfold framerate_of_probe. by rewrite next_video_stream_none.
Qed.

(** ** The reassembler *)

Lemma frame_name_is_frame_name i : i < 5 → is_frame_name (frame_name i) = true.
Proof.
  intros Hi. do 5 (destruct i as [|i]; [by vm_compute|]). lia.
Qed.

Lemma image2_first_none w d :
  frame_files_in w d = ∅ → image2_first w d = None.
Proof.
  intros Hnone.
  assert (Hfile : ∀ i, i < 5 → is_file w (d </> frame_name i) = false).
  { intros i Hi. apply not_true_is_false. intros Hf%is_file_spec.
    assert (frame_name i ∈ frame_files_in w d) as Hin.
    { apply elem_of_frame_files_in. auto using frame_name_is_frame_name. }
    rewrite Hnone in Hin. by apply not_elem_of_empty in Hin. }
  unfold image2_first. cbn [seq List.find].
  by rewrite !Hfile by lia.
Qed.

Lemma image2_first_files w w' d : files w' = files w → image2_first w' d = image2_first w d.
Proof. intros H. unfold image2_first, is_file. by rewrite H. Qed.

Lemma frame_files_in_files w w' d :
  files w' = files w → frame_files_in w' d = frame_files_in w d.
Proof. intros H. unfold frame_files_in, file_names. by rewrite H. Qed.

(** The ffmpeg run on a directory without frames. *)
Lemma ffmpeg_encode_frames_no_input env d out r w :
  frame_files_in w d = ∅ →
  ∃ msg, ffmpeg_encode_frames env d out r w =
         mkOutcome (Raise (FfmpegError msg)) w [EvEncode d out r].
Proof.
  intros H. unfold ffmpeg_encode_frames, bind, emit, get_world. simpl.
  rewrite (image2_first_none _ _ H). simpl. eauto.
Qed.

(** The events and the file written by an ffmpeg run. *)
Lemma ffmpeg_encode_frames_spec env d out r w :
  events (ffmpeg_encode_frames env d out r w) = [EvEncode d out r] ∧
  (result (ffmpeg_encode_frames env d out r w) = Ok tt →
   ∃ frames video, ffmpeg_encode env frames r = Ok video ∧
     files (world (ffmpeg_encode_frames env d out r w)) !! out = Some video).
Proof.
  unfold ffmpeg_encode_frames, bind, emit, get_world, lift, put_world, raise. simpl.
  destruct (image2_first w d) as [first|]; simpl; [|done].
  destruct (is_dir w out || negb (is_dir w (parent out))); simpl; [done|].
  destruct (ffmpeg_encode env _ r) as [video|e] eqn:E; simpl; [|done].
  split; [done|]. intros _. eexists _, video. split; [exact E|].
  apply lookup_insert_eq.
Qed.

Section Rebuild.
Context (env : Env) (frames_dir output_path : Path) (framerate : option float)
        (w : World).

Local Abbreviation rate := (default default_framerate framerate).
Local Abbreviation made := (mkdir (parent output_path) w).

Lemma rebuild_video_cases :
  (∃ e, result made = Raise e ∧
        rebuild_video env frames_dir output_path framerate w =
        mkOutcome (Raise e) (world made) (events made)) ∨
  (result made = Ok tt ∧
   let o := ffmpeg_encode_frames env frames_dir output_path rate (world made) in
   rebuild_video env frames_dir output_path framerate w =
   mkOutcome (result o) (world o) (events made ++ [EvEncode frames_dir output_path rate])).
Proof.
  unfold rebuild_video. destruct (result made) as [[]|e] eqn:Hm.
  - right. split; [done|]. rewrite (bind_Ok _ _ _ tt) by done. cbv beta zeta.
    by rewrite (proj1 (ffmpeg_encode_frames_spec _ _ _ _ _)).
  - left. exists e. split; [done|]. by rewrite (bind_Raise _ _ _ e).
Qed.

(** C8. On a source directory without frames, [rebuild_video] fails and
    writes nothing: with ffmpeg's error when the output's directory
    could be made. Any error of the ffmpeg run is its error. *)
Theorem rebuild_fails_without_frames :
  frame_files_in w frames_dir = ∅ →
  (∃ e, result (rebuild_video env frames_dir output_path framerate w) = Raise e) ∧
  (result made = Ok tt →
   ∃ msg, result (rebuild_video env frames_dir output_path framerate w) =
          Raise (FfmpegError msg)) ∧
  files (world (rebuild_video env frames_dir output_path framerate w)) = files w ∧
  (∀ e, result made = Ok tt →
        result (ffmpeg_encode_frames env frames_dir output_path rate (world made))
          = Raise e →
        result (rebuild_video env frames_dir output_path framerate w) = Raise e).
Proof.
  intros Hnone.
  destruct (mkdir_dirs_only (parent output_path) w) as (Hf & _).
  destruct (ffmpeg_encode_frames_no_input env frames_dir output_path rate (world made))
    as [msg Hrun].
  { by rewrite (frame_files_in_files w). }
  destruct rebuild_video_cases as [(e & Hm & ->) | (Hm & ->)]; cbn [result world].
  - split_and!; eauto; intros; congruence.
  - rewrite Hrun. cbn [result world]. split_and!; eauto.
Qed.

End Rebuild.

(** ** The extractor *)

Lemma ffmpeg_write_frames_events d i frames w :
  events (ffmpeg_write_frames d i frames w) = [].
Proof.
  revert i w. induction frames as [|f rest IH]; intros i w; [done|].
  cbn [ffmpeg_write_frames]. unfold bind, get_world, put_world, raise.
  cbn [result world events].
  destruct (negb (is_dir w d) || is_dir w (d </> frame_name i)); cbn; [done|].
  apply IH.
Qed.

Lemma ffmpeg_extract_events env v d w :
  encode_rates (events (ffmpeg_extract env v d w)) = [].
Proof.
  unfold ffmpeg_extract, bind, emit, get_world, raise, ret.
  cbn [result world events].
  destruct (files w !! v) as [data|]; cbn [result world events]; [|done].
  destruct (ffmpeg_decode env data) as [frames failure].
  unfold bind. rewrite ffmpeg_write_frames_events.
  destruct (result (ffmpeg_write_frames d 1 frames w)); [|done].
  by destruct failure.
Qed.

Lemma get_video_framerate_spec env v w :
  world (_get_video_framerate env v w) = w ∧
  events (_get_video_framerate env v w) = [EvProbe v] ∧
  ∀ r, result (_get_video_framerate env v w) = Ok r →
       ∃ data probe, files w !! v = Some data ∧ ffprobe env data = Ok probe ∧
                     framerate_of_probe probe = Ok r.
Proof.
  unfold _get_video_framerate, ffmpeg_probe, bind, emit, get_world, lift, raise.
  cbn [result world events].
  destruct (files w !! v) as [data|] eqn:Hf; cbn [result world events]; [|done].
  destruct (ffprobe env data) as [probe|e] eqn:Hp; cbn [result world events]; [|done].
  split_and!; try done. intros r Hr. by exists data, probe.
Qed.

Lemma extract_frames_spec env v d w :
  encode_rates (events (extract_frames env v d w)) = [] ∧
  ∀ r, result (extract_frames env v d w) = Ok r →
       ∃ data probe, files w !! v = Some data ∧ ffprobe env data = Ok probe ∧
                     framerate_of_probe probe = Ok r.
Proof.
  unfold extract_frames.
  destruct (mkdir_dirs_only d w) as (Hf & _ & _ & _ & Hev).
  apply mkdir_events_silent in Hev as (_ & _ & _ & _ & _ & Hen).
  destruct (result (mkdir d w)) as [[]|e] eqn:Hm.
  2: { rewrite (bind_Raise _ _ _ e) by done. by cbn [events result]. }
  rewrite (bind_Ok _ _ _ tt) by done. cbn [events result].
  destruct (get_video_framerate_spec env v (world (mkdir d w))) as (Hw & Hev & Hres).
  destruct (result (_get_video_framerate env v (world (mkdir d w)))) as [r|e] eqn:Hg.
  2: { rewrite (bind_Raise _ _ _ e) by done. cbn [events result].
       by rewrite encode_rates_app, Hen, Hev. }
  rewrite (bind_Ok _ _ _ r) by done. cbn [events result]. rewrite Hev, Hw.
  pose proof (ffmpeg_extract_events env v d (world (mkdir d w))) as Hex.
  destruct (result (ffmpeg_extract env v d (world (mkdir d w)))) as [[]|e] eqn:Hx.
  - rewrite (bind_Ok _ _ _ tt) by done. cbn [events result ret].
    rewrite !encode_rates_app, Hen, Hex. split; [done|].
    intros r' [= <-]. rewrite <- Hf. by apply Hres.
  - rewrite (bind_Raise _ _ _ e) by done. cbn [events result].
    by rewrite !encode_rates_app, Hen, Hex.
Qed.

(** ** Frame rates *)




(** ** The temporary directory *)

Lemma mkdtemp_loop_spec env fuel prefix w :
  files (world (mkdtemp_loop env fuel prefix w)) = files w ∧
  next_id (world (mkdtemp_loop env fuel prefix w)) = next_id w ∧
  Forall is_mkdir (events (mkdtemp_loop env fuel prefix w)).
Proof.
  revert w. induction fuel as [|fuel IH]; intros w; [by repeat split|].
  cbn [mkdtemp_loop].
  set (w' := mkWorld (files w) (dirs w) (S (rng_pos w)) (next_id w)).
  set (file := tempdir env </> _).
  destruct (os_mkdir_dirs_only file w') as (Hf & _ & Hn & _ & Hev).
  destruct (result (os_mkdir file w')) as [[]|e] eqn:E; [done|].
  destruct e; try done.
  destruct (IH (world (os_mkdir file w'))) as (IHf & IHn & IHev).
  split_and!; [by rewrite IHf, Hf | by rewrite IHn, Hn | done].
Qed.

Lemma mkdtemp_spec env prefix w :
  files (world (mkdtemp env prefix w)) = files w ∧
  next_id (world (mkdtemp env prefix w)) = next_id w ∧
  Forall is_mkdir (events (mkdtemp env prefix w)).
Proof. unfold mkdtemp. apply mkdtemp_loop_spec. Qed.

Lemma elem_of_rmtree_files root w p :
  files (rmtree root w) !! p = if decide (root `prefix_of` p) then None else files w !! p.
Proof.
  unfold rmtree. cbn [files]. case_decide as Hp.
  - apply map_lookup_filter_None. right. intros data _ Hn. by apply Hn.
  - destruct (files w !! p) as [data|] eqn:Hf.
    + by apply map_lookup_filter_Some.
    + apply map_lookup_filter_None. by left.
Qed.

Lemma elem_of_rmtree_dirs root w p :
  p ∈ dirs (rmtree root w) ↔ p ∈ dirs w ∧ ¬ root `prefix_of` p.
Proof. unfold rmtree. cbn [dirs]. rewrite elem_of_filter. tauto. Qed.

(** ** [process_video] *)

Section ProcessVideo.
Context (env : Env) (input_path output_path : Path) (model_name : string)
        (progress_callback : option Callback).

Local Abbreviation pv :=
  (process_video env input_path output_path model_name progress_callback).
Local Abbreviation body :=
  (process_video_body env input_path output_path model_name progress_callback).
Local Abbreviation acquire := (mkdtemp env "rekrea_rembg_").

Lemma process_video_cases w :
  match result (acquire w) with
  | Raise e => pv w = mkOutcome (Raise e) (world (acquire w)) (events (acquire w))
  | Ok tmp =>
      pv w = mkOutcome (result (body tmp (world (acquire w))))
               (rmtree tmp (world (body tmp (world (acquire w)))))
               (events (acquire w) ++ [EvMkdtemp tmp] ++
                events (body tmp (world (acquire w))) ++ [EvCleanup tmp])
  end.
Proof.
  unfold process_video, with_TemporaryDirectory.
  by destruct (result (acquire w)).
Qed.

(** The stages run in sequence and the first error is the body's. *)
Lemma process_video_body_stages tmp w :
  let frames_dir := tmp </> "frames" in
  let output_frames_dir := tmp </> "output_frames" in
  let o1 := extract_frames env input_path frames_dir w in
  match result o1 with
  | Raise e => result (body tmp w) = Raise e
  | Ok framerate =>
      let o2 := remove_background_from_frames env frames_dir output_frames_dir
                  model_name progress_callback (world o1) in
      match result o2 with
      | Raise e => result (body tmp w) = Raise e
      | Ok _ =>
          result (body tmp w) =
          result (rebuild_video env output_frames_dir output_path
                    (Some framerate) (world o2))
      end
  end.
Proof.
  intros frames_dir output_frames_dir o1. unfold process_video_body.
  fold frames_dir output_frames_dir. unfold bind. fold o1.
  destruct (result o1) as [framerate|e]; [|done]. cbn [result world].
  by destruct (result (remove_background_from_frames _ _ _ _ _ _)).
Qed.

(** C1. Once the temporary directory is acquired, every way the body
    ends (it returns, or one of its stages raises) leaves a world without
    the directory and anything below it, the caller gets the body's
    result, and the cleanup is the last event of the call. When the
    directory cannot be acquired there is nothing to remove. *)
Theorem workspace_removed_on_every_exit w :
  let run := process_video env input_path output_path model_name
               progress_callback w in
  let made := mkdtemp env "rekrea_rembg_" w in
  match result made with
  | Raise e => run = mkOutcome (Raise e) (world made) (events made)
  | Ok tmp =>
      let ob := process_video_body env input_path output_path model_name
                  progress_callback tmp (world made) in
      result run = result ob ∧
      (∀ p, tmp `prefix_of` p →
            files (world run) !! p = None ∧ p ∉ dirs (world run)) ∧
      (∀ p, ¬ tmp `prefix_of` p →
            files (world run) !! p = files (world ob) !! p) ∧
      events run = events made ++ [EvMkdtemp tmp] ++ events ob ++ [EvCleanup tmp] ∧
      last (events run) = Some (EvCleanup tmp)
  end.
Proof.
  intros run made. subst run.
  pose proof (process_video_cases w) as H. fold made in H. clearbody made.
  destruct (result made) as [tmp|e]; [|done].
  rewrite H. cbn [result world events]. split_and!; try done.
  - intros p Hp. rewrite elem_of_rmtree_files, elem_of_rmtree_dirs.
    rewrite decide_True by done. tauto.
  - intros p Hp. rewrite elem_of_rmtree_files. by rewrite decide_False.
  - by rewrite !app_assoc, last_snoc.
Qed.


End ProcessVideo.


(* ===================================================================== *)
(** * The theorems at work on the concrete environment *)
(* ===================================================================== *)

Module Checks.
Import Demo.

Local Abbreviation rbff := (remove_background_from_frames env ["in"] ["out"]).

Lemma wf_w_frames : wf_files w_frames.
Proof. apply (bool_decide_unpack _). by vm_compute. Defined.

Lemma wf_w_stale : wf_files w_stale.
Proof. apply (bool_decide_unpack _). by vm_compute. Defined.

(** Three frames and a note: the frames are processed in name order,
    the note is left alone. *)
Example run_three_frames :
  result (rbff "u2net" (Some log_cb) w_frames) = Ok tt ∧
  reads (events (rbff "u2net" (Some log_cb) w_frames)) =
    [["in"; "frame_00001.png"]; ["in"; "frame_00002.png"]; ["in"; "frame_00003.png"]] ∧
  writes (events (rbff "u2net" (Some log_cb) w_frames)) =
    [["out"; "frame_00001.png"]; ["out"; "frame_00002.png"]; ["out"; "frame_00003.png"]] ∧
  progress_calls (events (rbff "u2net" (Some log_cb) w_frames)) =
    [(1, 3); (2, 3); (3, 3)]%Z ∧
  sessions_built (events (rbff "u2net" (Some log_cb) w_frames)) = ["u2net"].
Proof. by vm_compute. Qed.

Lemma progress_reported_once_per_frame_witness :
  wf_files w_frames ∧
  result (rbff "u2net" (Some log_cb) w_frames) = Ok tt ∧
  (let N := size (frame_files_in w_frames ["in"]) in
   progress_calls (events (rbff "u2net" (Some log_cb) w_frames)) =
     (λ k, (Z.of_nat k, Z.of_nat N)) <$> seq 1 N ∧
   progress_calls (events (rbff "u2net" None w_frames)) = []).
Proof.
  assert (Hok : result (rbff "u2net" (Some log_cb) w_frames) = Ok tt)
    by (vm_compute; reflexivity).
  split; [exact wf_w_frames|]. split; [exact Hok|].
  exact (progress_reported_once_per_frame env ["in"] ["out"] "u2net" log_cb
           w_frames wf_w_frames Hok).
Defined.

Lemma outputs_mirror_frame_files_witness :
  wf_files w_stale ∧
  result (rbff "u2net" None w_stale) = Ok tt ∧
  (let names := name <$> reads (events (rbff "u2net" None w_stale)) in
   reads (events (rbff "u2net" None w_stale)) = child ["in"] <$> names ∧
   writes (events (rbff "u2net" None w_stale)) = child ["out"] <$> names ∧
   StronglySorted String.le names ∧ NoDup names ∧
   list_to_set names = frame_files_in w_stale ["in"] ∧
   file_names (world (rbff "u2net" None w_stale)) ["out"] =
     file_names w_stale ["out"] ∪ frame_files_in w_stale ["in"] ∧
   (file_names w_stale ["out"] ⊆ frame_files_in w_stale ["in"] →
    file_names (world (rbff "u2net" None w_stale)) ["out"] =
      frame_files_in w_stale ["in"])).
Proof.
  assert (Hok : result (rbff "u2net" None w_stale) = Ok tt)
    by (vm_compute; reflexivity).
  split; [exact wf_w_stale|]. split; [exact Hok|].
  exact (outputs_mirror_frame_files env ["in"] ["out"] "u2net" None
           w_stale wf_w_stale Hok).
Defined.

(** C3, as stated, fails. With a file left in the output directory by
    an earlier run, the call returns and the output directory holds a
    name that is no frame file of the input directory. *)
Lemma output_dir_keeps_earlier_files :
  wf_files w_stale ∧
  result (rbff "u2net" None w_stale) = Ok tt ∧
  file_names (world (rbff "u2net" None w_stale)) ["out"] ≠
    frame_files_in w_stale ["in"].
Proof.
  split; [exact wf_w_stale|]. split; [by vm_compute|].
  intros Heq.
  assert ("frame_00009.png" ∈ file_names (world (rbff "u2net" None w_stale)) ["out"])
    as Hin.
  { apply elem_of_file_names. vm_compute. eauto. }
  rewrite Heq in Hin. apply elem_of_frame_files_in in Hin as [_ [data Hdata]].
  vm_compute in Hdata. discriminate.
Qed.


(** Three frames: one session, and one inference per frame on it. *)
Example run_three_frames_inferences :
  sessions_built (events (rbff "u2net" None w_frames)) = ["u2net"] ∧
  inferences (events (rbff "u2net" None w_frames)) =
    [(mkSession "u2net" 0, [Byte.x01]); (mkSession "u2net" 0, [Byte.x02]);
     (mkSession "u2net" 0, [Byte.x03])].
Proof. by vm_compute. Qed.

(** The second of three frames is malformed: the first output stays,
    the third frame is never read. *)
Example run_bad_frame :
  result (rbff "u2net" None w_bad_frame) = Raise (RembgError "cannot identify image file") ∧
  reads (events (rbff "u2net" None w_bad_frame)) =
    [["in"; "frame_00001.png"]; ["in"; "frame_00002.png"]] ∧
  writes (events (rbff "u2net" None w_bad_frame)) = [["out"; "frame_00001.png"]] ∧
  files (world (rbff "u2net" None w_bad_frame)) !! ["out"; "frame_00001.png"] =
    Some [Byte.x01; Byte.xa1].
Proof. by vm_compute. Qed.

Lemma inference_failure_fails_batch_witness :
  EvInfer (mkSession "u2net" 0) [Byte.xff] ∈ events (rbff "u2net" None w_bad_frame) ∧
  infer env (mkSession "u2net" 0) [Byte.xff] =
    Raise (RembgError "cannot identify image file") ∧
  result (rbff "u2net" None w_bad_frame) =
    Raise (RembgError "cannot identify image file") ∧
  (∃ before failing after,
      listing (world (mkdir ["out"] w_bad_frame)) ["in"] = before ++ failing :: after ∧
      reads (events (rbff "u2net" None w_bad_frame)) = before ++ [failing] ∧
      writes (events (rbff "u2net" None w_bad_frame)) =
        (λ p, ["out"] </> name p) <$> before) ∧
  (∀ q data, EvWrite q data ∈ events (rbff "u2net" None w_bad_frame) →
             files (world (rbff "u2net" None w_bad_frame)) !! q = Some data).
Proof.
  assert (Hin : EvInfer (mkSession "u2net" 0) [Byte.xff]
                ∈ events (rbff "u2net" None w_bad_frame)).
  { apply list_elem_of_In. vm_compute. do 7 right. by left. }
  assert (Hinf : infer env (mkSession "u2net" 0) [Byte.xff] =
                 Raise (RembgError "cannot identify image file")) by reflexivity.
  split; [exact Hin|]. split; [exact Hinf|].
  exact (inference_failure_fails_batch env ["in"] ["out"] "u2net" None w_bad_frame
           _ _ _ Hin Hinf).
Defined.

Lemma unknown_model_fails_before_frames_witness :
  load_model env "not-a-real-model" = Some (ValueError "No session class found for model") ∧
  (result (mkdir ["out"] w_frames) = Ok tt →
   result (rbff "not-a-real-model" None w_frames) =
     Raise (ValueError "No session class found for model")) ∧
  (∃ e', result (rbff "not-a-real-model" None w_frames) = Raise e') ∧
  reads (events (rbff "not-a-real-model" None w_frames)) = [] ∧
  sessions_used (events (rbff "not-a-real-model" None w_frames)) = [] ∧
  writes (events (rbff "not-a-real-model" None w_frames)) = [] ∧
  progress_calls (events (rbff "not-a-real-model" None w_frames)) = [] ∧
  files (world (rbff "not-a-real-model" None w_frames)) = files w_frames.
Proof.
  assert (Hl : load_model env "not-a-real-model" =
               Some (ValueError "No session class found for model"))
    by (vm_compute; reflexivity).
  split; [exact Hl|].
  exact (unknown_model_fails_before_frames env ["in"] ["out"] "not-a-real-model"
           None w_frames _ Hl).
Defined.

Lemma prober_fails_on_unusable_asset_witness :
  unusable_asset env w_videos ["v"; "audio.mp4"] StopIteration ∧
  result (_get_video_framerate env ["v"; "audio.mp4"] w_videos) = Raise StopIteration.
Proof.
  assert (H : unusable_asset env w_videos ["v"; "audio.mp4"] StopIteration).
  { eapply no_video_stream; [by vm_compute|].
    repeat constructor. exists "audio". by split. }
  split; [exact H|].
  exact (prober_fails_on_unusable_asset env ["v"; "audio.mp4"] w_videos _ H).
Defined.

(** An unreadable container and a missing file fail with ffprobe's error. *)
Example probe_unreadable :
  result (_get_video_framerate env ["v"; "broken.mp4"] w_videos) =
    Raise (FfmpegError "ffprobe error") ∧
  result (_get_video_framerate env ["v"; "missing.mp4"] w_videos) =
    Raise (FfmpegError "ffprobe: No such file or directory") ∧
  result (_get_video_framerate env ["v"; "ok.mp4"] w_videos) = Ok (30000 # 1001)%Q.
Proof. by vm_compute. Qed.

Lemma rebuild_fails_without_frames_witness :
  frame_files_in w_empty ["in"] = ∅ ∧
  (∃ e, result (rebuild_video env ["in"] ["o"; "r.mp4"] None w_empty) = Raise e) ∧
  (result (mkdir (parent ["o"; "r.mp4"]) w_empty) = Ok tt →
   ∃ msg, result (rebuild_video env ["in"] ["o"; "r.mp4"] None w_empty) =
          Raise (FfmpegError msg)) ∧
  files (world (rebuild_video env ["in"] ["o"; "r.mp4"] None w_empty)) = files w_empty ∧
  (∀ e, result (mkdir (parent ["o"; "r.mp4"]) w_empty) = Ok tt →
        result (ffmpeg_encode_frames env ["in"] ["o"; "r.mp4"]
                  (default default_framerate None)
                  (world (mkdir (parent ["o"; "r.mp4"]) w_empty))) = Raise e →
        result (rebuild_video env ["in"] ["o"; "r.mp4"] None w_empty) = Raise e).
Proof.
  assert (H : frame_files_in w_empty ["in"] = ∅) by (vm_compute; reflexivity).
  split; [exact H|].
  exact (rebuild_fails_without_frames env ["in"] ["o"; "r.mp4"] None w_empty H).
Defined.

Lemma empty_source_returns_witness :
  (∀ n, is_frame_name n = true →
        files w_empty !! (["in"] </> n) = None ∧ ["in"] </> n ∉ dirs w_empty) ∧
  (∀ n, is_frame_name n = true → ¬ (["in"] </> n) `prefix_of` ["out"]) ∧
  result (mkdir ["out"] w_empty) = Ok tt ∧
  load_model env "u2net" = None ∧
  result (rbff "u2net" (Some log_cb) w_empty) = Ok tt ∧
  is_dir (world (rbff "u2net" (Some log_cb) w_empty)) ["out"] = true ∧
  sessions_built (events (rbff "u2net" (Some log_cb) w_empty)) = ["u2net"] ∧
  progress_calls (events (rbff "u2net" (Some log_cb) w_empty)) = [] ∧
  reads (events (rbff "u2net" (Some log_cb) w_empty)) = [] ∧
  writes (events (rbff "u2net" (Some log_cb) w_empty)) = [] ∧
  files (world (rbff "u2net" (Some log_cb) w_empty)) = files w_empty.
Proof.
  assert (H1 : ∀ n, is_frame_name n = true →
               files w_empty !! (["in"] </> n) = None ∧ ["in"] </> n ∉ dirs w_empty).
  { intros n Hn. split.
    - destruct (decide (n = "notes.txt")) as [->|Hne]; [by vm_compute in Hn|].
      unfold w_empty, mk_files. cbn [files list_to_map foldr child app fst snd].
      rewrite lookup_insert_ne by congruence. apply lookup_empty.
    - unfold w_empty. cbn [dirs child app]. rewrite elem_of_singleton. congruence. }
  assert (H2 : ∀ n, is_frame_name n = true → ¬ (["in"] </> n) `prefix_of` ["out"]).
  { intros n _ [k Hk]. cbn [child app] in Hk. congruence. }
  assert (H3 : result (mkdir ["out"] w_empty) = Ok tt) by (vm_compute; reflexivity).
  assert (H4 : load_model env "u2net" = None) by (vm_compute; reflexivity).
  split; [exact H1|]. split; [exact H2|]. split; [exact H3|]. split; [exact H4|].
  exact (empty_source_returns env ["in"] ["out"] "u2net" (Some log_cb) w_empty
           H1 H2 H3 H4).
Defined.

(** The whole pipeline on a two-frame video: the result is written, the
    temporary directory is gone, and ffmpeg encoded at the probed rate. *)
Example run_pipeline :
  let o := process_video env ["v"; "ok.mp4"] ["o"; "r.mp4"] "u2net" (Some log_cb)
             w_videos in
  result o = Ok tt ∧
  files (world o) !! ["o"; "r.mp4"] = Some [Byte.x0a; Byte.xa1; Byte.x0b; Byte.xa1] ∧
  elements (dirs (world o)) = [["v"]; ["tmp"]; ["o"]] ∧
  encode_rates (events o) = [(30000 # 1001)%Q] ∧
  progress_calls (events o) = [(1, 2); (2, 2)]%Z ∧
  last (events o) = Some (EvCleanup ["tmp"; "rekrea_rembg_0"]).
Proof. by vm_compute. Qed.

(** The pipeline on an audio-only file: the prober's error arrives after
    the temporary directory has been removed. *)
Example run_pipeline_no_video :
  let o := process_video env ["v"; "audio.mp4"] ["o"; "r.mp4"] "u2net" None w_videos in
  result o = Raise StopIteration ∧
  elements (dirs (world o)) = [["v"]; ["tmp"]] ∧
  last (events o) = Some (EvCleanup ["tmp"; "rekrea_rembg_0"]).
Proof. by vm_compute. Qed.

(** [rebuild_video] without a frame rate, on frames extracted from any
    video, encodes at 30. *)
Example rebuild_default_rate :
  encode_rates (events (rebuild_video env ["in"] ["o"; "r.mp4"] None w_frames)) = [30%Q] ∧
  result (rebuild_video env ["in"] ["o"; "r.mp4"] None w_frames) = Ok tt.
Proof. by vm_compute. Qed.

End Checks.

(* ===================================================================== *)
(** * Further properties of the code *)
(* ===================================================================== *)

(** ** Strings *)

Lemma list_ascii_of_string_app a b :
  String.list_ascii_of_string (a +:+ b) =
  String.list_ascii_of_string a ++ String.list_ascii_of_string b.
Proof. induction a as [|c a IH]; simpl; [done|]. by rewrite IH. Qed.

Lemma list_ascii_of_string_inj a b :
  String.list_ascii_of_string a = String.list_ascii_of_string b → a = b.
Proof.
  intros H. rewrite <- (String.string_of_list_ascii_of_string a),
    <- (String.string_of_list_ascii_of_string b). by rewrite H.
Qed.

Lemma string_app_inj_r a b c : a +:+ c = b +:+ c → a = b.
Proof.
  intros H. apply list_ascii_of_string_inj.
  apply (f_equal String.list_ascii_of_string) in H.
  rewrite !list_ascii_of_string_app in H. by apply app_inv_tail in H.
Qed.

Lemma string_length_chars s : String.length s = length (String.list_ascii_of_string s).
Proof. induction s as [|a s IH]; [done|]. simpl. by rewrite IH. Qed.

(** ** Decimal numerals, as ffprobe and ffmpeg print them *)

(** [dec n] is [str(n)] for a natural number. *)
Local Abbreviation dec := (λ n : nat, NilEmpty.string_of_uint (Nat.to_uint n)).
Local Abbreviation chars := String.list_ascii_of_string.

Lemma uint_chars_digits d :
  Forall (λ c, is_Some (digit_of c) ∧ is_space c = false ∧ c ≠ "/"%char ∧
               c ≠ "-"%char ∧ c ≠ "+"%char ∧ c ≠ "_"%char)
         (chars (NilEmpty.string_of_uint d)).
Proof.
  induction d; simpl; constructor; try done;
    (split; [by eexists | by repeat split]).
Qed.

Lemma to_uint_not_nil n : Nat.to_uint n ≠ Decimal.Nil.
Proof.
  intros E. pose proof (DecimalNat.Unsigned.to_of (Nat.to_uint n)) as H.
  rewrite DecimalNat.Unsigned.of_to, E in H. discriminate H.
Qed.

Lemma uint_chars_nonempty d : d ≠ Decimal.Nil → chars (NilEmpty.string_of_uint d) ≠ [].
Proof. by destruct d. Qed.

(** Reading back what was printed. *)
Lemma digits_value_uint d acc after :
  (0 ≤ acc)%Z → d ≠ Decimal.Nil ∨ after = true →
  digits_value acc after (chars (NilEmpty.string_of_uint d)) =
  Some (Z.of_nat (Nat.of_uint_acc d (Z.to_nat acc))).
Proof.
  revert acc after. induction d as [|d IH|d IH|d IH|d IH|d IH|d IH|d IH|d IH|d IH|d IH];
    intros acc after Hacc Hd.
  { destruct Hd as [?| ->]; [done|]. simpl. f_equal. lia. }
  all: simpl chars; cbn [digits_value]; cbn [digit_of nat_of_ascii]; simpl;
    rewrite IH by (auto; lia); do 2 f_equal;
    cbn [Nat.of_uint_acc]; rewrite Nat.tail_mul_spec; f_equal; lia.
Qed.

Lemma lstrip_head c l : is_space c = false → lstrip (c :: l) = c :: l.
Proof. intros H. simpl. by rewrite H. Qed.

Lemma strip_digits l :
  l ≠ [] → Forall (λ c, is_space c = false) l → strip l = l.
Proof.
  intros Hne Hall. unfold strip.
  assert (Hl : lstrip l = l).
  { destruct l as [|c l]; [done|]. apply lstrip_head. by apply Forall_cons in Hall as [? _]. }
  rewrite Hl.
  assert (Hr : lstrip (rev l) = rev l).
  { destruct (rev l) as [|c r] eqn:E; [done|]. apply lstrip_head.
    rewrite Forall_forall in Hall. apply Hall.
    apply list_elem_of_In, in_rev, list_elem_of_In. rewrite E. by left. }
  by rewrite Hr, rev_involutive.
Qed.

Lemma digit_run_digits l after n :
  Forall (λ c, is_Some (digit_of c)) l → l ≠ [] ∨ after = false →
  digit_run after n l = Some (n + length l)%nat.
Proof.
  revert after n. induction l as [|c l IH]; intros after n Hall Hne.
  { destruct Hne as [?| ->]; [done|]. simpl. f_equal. lia. }
  apply Forall_cons in Hall as [[d Hd] Hall]. cbn [digit_run]. rewrite Hd.
  rewrite IH by auto. simpl. f_equal. lia.
Qed.

(** [int(str(n))] is [n], for a numeral within the limit of [int]. *)
Lemma python_int_dec n :
  (String.length (dec n) ≤ int_max_str_digits)%nat →
  python_int (dec n) = Ok (Z.of_nat n).
Proof.
  intros Hlen. rewrite string_length_chars in Hlen. unfold python_int.
  pose proof (uint_chars_digits (Nat.to_uint n)) as Hd.
  pose proof (uint_chars_nonempty _ (to_uint_not_nil n)) as Hne.
  rewrite strip_digits; [|done|].
  2: { eapply Forall_impl; [exact Hd|]. by intros c (_ & ? & _). }
  pose proof (digits_value_uint (Nat.to_uint n) 0 false (Z.le_refl 0)
                (or_introl (to_uint_not_nil n))) as Hv.
  change (Z.to_nat 0) with 0 in Hv.
  change (Nat.of_uint_acc (Nat.to_uint n) 0) with (Nat.of_uint (Nat.to_uint n)) in Hv.
  rewrite DecimalNat.Unsigned.of_to in Hv.
  assert (Hrun : digit_run true 0 (chars (dec n)) = Some (length (chars (dec n)))).
  { apply (digit_run_digits _ true 0); [|by left].
    eapply Forall_impl; [exact Hd|]. by intros c (? & _). }
  destruct (chars (dec n)) as [|c body] eqn:E; [done|].
  apply Forall_cons in Hd as [(_ & _ & _ & Hm & Hp & _) _].
  apply Ascii.eqb_neq in Hm, Hp. rewrite Hm, Hp. cbn [orb]. rewrite Hrun.
  rewrite (proj2 (Nat.ltb_ge _ _)) by done. by rewrite Hv.
Qed.

(** ** [str.split] *)

Lemma split_chars_no_sep sep l : sep ∉ l → split_chars sep l = [l].
Proof.
  induction l as [|c l IH]; [done|]. intros Hn.
  apply not_elem_of_cons in Hn as [Hc Hl]. simpl.
  assert (Ascii.eqb c sep = false) as -> by (apply Ascii.eqb_neq; congruence).
  by rewrite IH.
Qed.

Lemma split_chars_app sep l rest :
  sep ∉ l → split_chars sep (l ++ sep :: rest) = l :: split_chars sep rest.
Proof.
  induction l as [|c l IH]; intros Hn.
  - simpl. by rewrite Ascii.eqb_refl.
  - apply not_elem_of_cons in Hn as [Hc Hl]. simpl.
    assert (Ascii.eqb c sep = false) as -> by (apply Ascii.eqb_neq; congruence).
    by rewrite IH.
Qed.

Lemma split_chars_length sep l :
  length (split_chars sep l) = S (length (filter (λ c, c = sep) l)).
Proof.
  induction l as [|c l IH]; [done|]. simpl.
  destruct (Ascii.eqb_spec c sep) as [->|Hne].
  - rewrite filter_cons_True by done. simpl. by rewrite IH.
  - rewrite filter_cons_False by done.
    destruct (split_chars sep l) as [|h t]; [done|]. simpl in *. done.
Qed.

Lemma split_length sep s :
  length (split sep s) = S (length (filter (λ c, c = sep) (chars s))).
Proof. unfold split. by rewrite length_fmap, split_chars_length. Qed.

Lemma split_two sep a b :
  sep ∉ chars a → sep ∉ chars b →
  split sep (a +:+ String.String sep b) = [a; b].
Proof.
  intros Ha Hb. unfold split. rewrite list_ascii_of_string_app. simpl chars.
  rewrite split_chars_app, split_chars_no_sep by done. simpl.
  by rewrite !String.string_of_list_ascii_of_string.
Qed.

(** ** The prober, beyond its failures *)

Lemma next_video_stream_first pre v post :
  Forall (λ s, ∃ c, getitem s "codec_type" = Ok c ∧ c ≠ "video") pre →
  getitem v "codec_type" = Ok "video" →
  next_video_stream (pre ++ v :: post) = Ok v.
Proof.
  intros Hpre Hv. induction Hpre as [|s pre (c & Hc & Hne) _ IH]; simpl.
  - by rewrite Hv.
  - rewrite Hc. by apply String.eqb_neq in Hne as ->.
Qed.

Lemma dec_no_slash n : "/"%char ∉ chars (dec n).
Proof.
  intros Hin. pose proof (uint_chars_digits (Nat.to_uint n)) as Hd.
  rewrite Forall_forall in Hd. by destruct (Hd _ Hin) as (_ & _ & ? & _).
Qed.

(** A quotient of naturals that is a double is below the overflow
    threshold of [truediv]. *)
Lemma binary64_no_overflow a b :
  (0 ≤ a)%Z → (0 < b)%Z → is_binary64 (inject_Z a / inject_Z b) →
  ((2 ^ 1024 - 2 ^ 970) * b <=? a)%Z = false.
Proof.
  intros Ha Hb (m & e & Hm & He & Hq). apply Z.leb_gt.
  destruct b as [|b|b]; [lia | | lia].
  unfold Qeq, Qdiv, Qmult, Qinv, inject_Z in Hq. cbn [Qnum Qden] in Hq.
  rewrite Pos.mul_1_l, Pos.mul_1_r, !Z.mul_1_r in Hq.
  assert (HP : (0 < 2 ^ (e + 1074) ≤ 2 ^ 2045)%Z)
    by (split; [apply Z.pow_pos_nonneg | apply Z.pow_le_mono_r]; lia).
  assert (HK : ((2 ^ 53 - 1) * 2 ^ 2045 < (2 ^ 1024 - 2 ^ 970) * 2 ^ 1074)%Z)
    by (vm_compute; reflexivity).
  assert (HK0 : (0 < 2 ^ 1074)%Z) by (apply Z.pow_pos_nonneg; lia).
  assert (HQ0 : (0 < 2 ^ 2045)%Z) by (apply Z.pow_pos_nonneg; lia).
  assert (HM0 : (0 < 2 ^ 53)%Z) by (apply Z.pow_pos_nonneg; lia).
  set (P := (2 ^ (e + 1074))%Z) in *. set (K := (2 ^ 1074)%Z) in *.
  set (T := (2 ^ 1024 - 2 ^ 970)%Z) in *. set (M := (2 ^ 53)%Z) in *.
  set (Q' := (2 ^ 2045)%Z) in *. clearbody P K T M Q'.
  assert (HmP : (m * P ≤ (M - 1) * Q')%Z).
  { destruct (Z.le_gt_cases m 0) as [Hneg|Hpos]; [nia|].
    transitivity ((M - 1) * P)%Z; [apply Z.mul_le_mono_nonneg_r | apply Z.mul_le_mono_nonneg_l];
      lia. }
  assert (Hlt : (a * K < T * Z.pos b * K)%Z).
  { rewrite Hq. apply Z.le_lt_trans with ((M - 1) * Q' * Z.pos b)%Z.
    - apply Z.mul_le_mono_nonneg_r; lia.
    - replace (T * Z.pos b * K)%Z with (T * K * Z.pos b)%Z by ring.
      apply Z.mul_lt_mono_pos_r; lia. }
  by apply Z.mul_lt_mono_pos_r in Hlt.
Qed.

Section Prober.
Context (env : Env) (video_path : Path) (w : World) (probe : Probe)
        (pre : list dict) (v : dict) (post : list dict).
Hypothesis probed : result (ffmpeg_probe env video_path w) = Ok probe.
Hypothesis first_video : streams probe = pre ++ v :: post.
Hypothesis not_video :
  Forall (λ s, ∃ c, getitem s "codec_type" = Ok c ∧ c ≠ "video") pre.
Hypothesis is_video : getitem v "codec_type" = Ok "video".

Lemma get_video_framerate_of_stream :
  result (_get_video_framerate env video_path w) = framerate_of_probe (mkProbe [v]).
Proof.
  unfold _get_video_framerate. rewrite (bind_Ok _ _ _ probe) by done.
  cbn [result lift]. unfold framerate_of_probe. cbn [streams].
  rewrite first_video, next_video_stream_first by done.
  cbn [next_video_stream]. by rewrite is_video.
Qed.

(** X1. The frame rate is read from the first stream whose [codec_type] is
    ["video"]: the streams before it are skipped, the streams after it
    are never looked at, and the result is the same as if it were the
    only stream. *)
Theorem framerate_of_first_video_stream other_pre other_post :
  Forall (λ s, ∃ c, getitem s "codec_type" = Ok c ∧ c ≠ "video") other_pre →
  result (_get_video_framerate env video_path w) =
  framerate_of_probe (mkProbe (other_pre ++ v :: other_post)).
Proof.
  intros Hother. rewrite get_video_framerate_of_stream.
  unfold framerate_of_probe. cbn [streams].
  rewrite next_video_stream_first by done.
  cbn [next_video_stream]. by rewrite is_video.
Qed.

(** X2. A rate that ffprobe prints as [a/b], each numeral within the
    limit of [int], is parsed into the two integers and divided: the
    prober raises [ZeroDivisionError] when [b] is 0 (ffprobe prints
    [0/0] for a stream without a rate) and [OverflowError] when the
    quotient is beyond the doubles, and it returns the quotient when the
    quotient is a double. *)
Theorem framerate_of_printed_rational a b :
  getitem v "r_frame_rate" = Ok (dec a +:+ "/" +:+ dec b) →
  (String.length (dec a) ≤ int_max_str_digits)%nat →
  (String.length (dec b) ≤ int_max_str_digits)%nat →
  (b = 0%nat →
   result (_get_video_framerate env video_path w) = Raise ZeroDivisionError) ∧
  (b ≠ 0%nat → ((2 ^ 1024 - 2 ^ 970) * Z.of_nat b ≤ Z.of_nat a)%Z →
   result (_get_video_framerate env video_path w) = Raise OverflowError) ∧
  (b ≠ 0%nat → is_binary64 (inject_Z (Z.of_nat a) / inject_Z (Z.of_nat b)) →
   result (_get_video_framerate env video_path w) =
     Ok (inject_Z (Z.of_nat a) / inject_Z (Z.of_nat b))%Q).
Proof.
  intros Hrate Ha Hb'. rewrite get_video_framerate_of_stream.
  unfold framerate_of_probe. cbn [streams next_video_stream].
  rewrite is_video. cbn [String.eqb Ascii.eqb Bool.eqb]. rewrite Hrate.
  assert (Hs : split "/" (dec a +:+ "/" +:+ dec b) = [dec a; dec b])
    by (apply (split_two "/" (dec a) (dec b)); apply dec_no_slash).
  cbv beta in Hs. rewrite Hs. cbn [unpack2].
  cbv beta in Ha, Hb'. rewrite !python_int_dec by done. unfold truediv.
  rewrite !Z.abs_eq by lia.
  split_and!.
  - by intros ->.
  - intros Hb Hbig. destruct (Z.eqb_spec (Z.of_nat b) 0) as [?|_]; [lia|].
    by rewrite (proj2 (Z.leb_le _ _) Hbig).
  - intros Hb Hdouble. destruct (Z.eqb_spec (Z.of_nat b) 0) as [?|_]; [lia|].
    by rewrite binary64_no_overflow by (done || lia).
Qed.

(** X3. A rate that does not have exactly one slash makes the prober raise
    [ValueError]. *)
Theorem framerate_needs_one_slash text :
  getitem v "r_frame_rate" = Ok text →
  length (filter (λ c, c = "/"%char) (chars text)) ≠ 1 →
  ∃ msg, result (_get_video_framerate env video_path w) = Raise (ValueError msg).
Proof.
  intros Hrate Hn. rewrite get_video_framerate_of_stream.
  unfold framerate_of_probe. cbn [streams next_video_stream].
  rewrite is_video. cbn [String.eqb Ascii.eqb Bool.eqb]. rewrite Hrate.
  pose proof (split_length "/" text) as Hlen.
  destruct (split "/" text) as [|x [|y [|z t]]]; simpl in *; eauto; lia.
Qed.

End Prober.

(** ** Frame names *)

Lemma string_length_app a b :
  String.length (a +:+ b) = String.length a + String.length b.
Proof. induction a as [|c a IH]; simpl; [done|]. by rewrite IH. Qed.

Lemma substring_all s : String.substring 0 (String.length s) s = s.
Proof. induction s as [|c s IH]; simpl; [done|]. by rewrite IH. Qed.

Lemma substring_app_suffix a b :
  String.substring (String.length a) (String.length b) (a +:+ b) = b.
Proof. induction a as [|c a IH]; simpl; [apply substring_all | done]. Qed.

(** Every name ffmpeg makes from [frame_%05d.png] matches [frame_*.png]. *)
Lemma frame_name_matches n : is_frame_name (frame_name n) = true.
Proof.
  unfold is_frame_name, fnmatch_star, frame_name.
  set (digits := zero_pad 5 (dec n)).
  apply andb_true_intro. split; [apply andb_true_intro; split|].
  - apply String.prefix_correct. simpl.
    by destruct ("" +:+ digits +:+ ".png").
  - replace ("frame_" +:+ digits +:+ ".png") with (("frame_" +:+ digits) +:+ ".png")
      by (by simpl).
    rewrite string_length_app, Nat.add_sub.
    rewrite substring_app_suffix. apply String.eqb_refl.
  - rewrite !string_length_app. apply Nat.leb_le. simpl. lia.
Qed.

Lemma uint_of_zeros k s :
  NilEmpty.uint_of_string
    (String.string_of_list_ascii (replicate k "0"%char) +:+ s) =
  Nat.iter k Decimal.D0 <$> NilEmpty.uint_of_string s.
Proof.
  induction k as [|k IH]; simpl.
  - change ("" +:+ s) with s. by destruct (NilEmpty.uint_of_string s).
  - rewrite IH. by destruct (NilEmpty.uint_of_string s).
Qed.

Lemma of_uint_zeros k d : Nat.of_uint (Nat.iter k Decimal.D0 d) = Nat.of_uint d.
Proof. induction k as [|k IH]; [done|]. simpl. exact IH. Qed.

(** The number in a zero-padded numeral. *)
Lemma zero_pad_value width n :
  Nat.of_uint <$> NilEmpty.uint_of_string (zero_pad width (dec n)) = Some n.
Proof.
  unfold zero_pad. rewrite uint_of_zeros, NilEmpty.usu. simpl.
  by rewrite of_uint_zeros, DecimalNat.Unsigned.of_to.
Qed.

(** Different frames get different names, also beyond five digits. *)
Lemma frame_name_inj i j : frame_name i = frame_name j → i = j.
Proof.
  unfold frame_name. intros H.
  apply (inj (String.app "frame_")) in H. apply string_app_inj_r in H.
  pose proof (zero_pad_value 5 i) as Hi. pose proof (zero_pad_value 5 j) as Hj.
  cbv beta in Hi, Hj. rewrite H, Hj in Hi. by injection Hi.
Qed.

(** ** The extractor *)

Section WriteFrames.
Context (dir : Path).

(** What ffmpeg's image2 muxer leaves: the frames under their names,
    and nothing else touched. *)
Lemma ffmpeg_write_frames_spec frames i w :
  let o := ffmpeg_write_frames dir i frames w in
  dirs (world o) = dirs w ∧ next_id (world o) = next_id w ∧
  rng_pos (world o) = rng_pos w ∧
  (∀ p, (∀ k, k < length frames → p ≠ dir </> frame_name (i + k)) →
        files (world o) !! p = files w !! p) ∧
  (result o = Ok tt →
   ∀ k f, frames !! k = Some f →
          files (world o) !! (dir </> frame_name (i + k)) = Some f).
Proof.
  revert i w. induction frames as [|f rest IH]; intros i w.
  { simpl. split_and!; try done. }
  cbn [ffmpeg_write_frames]. unfold bind, get_world, put_world, raise.
  cbn [result world events].
  destruct (negb (is_dir w dir) || is_dir w (dir </> frame_name i));
    cbn [result world events].
  { split_and!; try done. }
  destruct (IH (S i) (set_file (dir </> frame_name i) f w))
    as (Hd & Hn & Hr & Hother & Hok).
  cbv zeta in *. split_and!; try done.
  - intros p Hp. rewrite Hother.
    + simpl. apply lookup_insert_ne. intros <-.
      apply (Hp 0); [simpl; lia | by rewrite Nat.add_0_r].
    + intros k Hk. replace (S i + k) with (i + S k) by lia.
      apply Hp. simpl. lia.
  - intros Hres [|k] f' Hf'.
    + simpl in Hf'. injection Hf' as ->. rewrite Nat.add_0_r.
      rewrite Hother; [simpl; apply lookup_insert_eq|].
      intros k _ Heq. apply child_inj in Heq as [_ Heq].
      apply frame_name_inj in Heq. lia.
    + simpl in Hf'. replace (i + S k) with (S i + k) by lia. by apply Hok.
Qed.

End WriteFrames.

Lemma get_video_framerate_files env v w w' :
  files w' = files w →
  result (_get_video_framerate env v w') = result (_get_video_framerate env v w).
Proof.
  intros H. unfold _get_video_framerate, ffmpeg_probe, bind, emit, get_world, lift, raise.
  cbn [result world events]. rewrite H.
  destruct (files w !! v) as [data|]; cbn [result world events]; [|done].
  by destruct (ffprobe env data).
Qed.

Section Extract.
Context (env : Env) (video_path frames_dir : Path) (w : World).

Local Abbreviation made := (mkdir frames_dir w).
Local Abbreviation w1 := (world (mkdir frames_dir w)).

(** The three ways [extract_frames] goes. *)
Lemma extract_frames_cases :
  (∃ e, result made = Raise e ∧
        extract_frames env video_path frames_dir w =
        mkOutcome (Raise e) w1 (events made)) ∨
  (∃ e, result made = Ok tt ∧
        result (_get_video_framerate env video_path w) = Raise e ∧
        extract_frames env video_path frames_dir w =
        mkOutcome (Raise e) w1 (events made ++ [EvProbe video_path])) ∨
  (∃ framerate, result made = Ok tt ∧
        result (_get_video_framerate env video_path w) = Ok framerate ∧
        let o := ffmpeg_extract env video_path frames_dir w1 in
        extract_frames env video_path frames_dir w =
        mkOutcome (match result o with Ok _ => Ok framerate | Raise e => Raise e end)
                  (world o) (events made ++ [EvProbe video_path] ++ events o)).
Proof.
  unfold extract_frames.
  destruct (mkdir_dirs_only frames_dir w) as (Hf & _).
  destruct (result made) as [[]|e] eqn:Hm.
  2: { left. exists e. split; [done|]. by rewrite (bind_Raise _ _ _ e). }
  right. rewrite (bind_Ok _ _ _ tt) by done. cbv beta.
  destruct (get_video_framerate_spec env video_path w1) as (Hw & Hev & _).
  rewrite <- (get_video_framerate_files env video_path w w1) by done.
  destruct (result (_get_video_framerate env video_path w1)) as [r|e] eqn:Hg.
  2: { left. exists e. split_and!; try done.
       rewrite (bind_Raise _ _ _ e) by done. cbn [result world events].
       by rewrite Hev, Hw. }
  right. exists r. split_and!; try done.
  rewrite (bind_Ok _ _ _ r) by done. cbn [result world events]. rewrite Hev, Hw.
  unfold bind. destruct (result (ffmpeg_extract env video_path frames_dir w1)) as [[]|e];
    cbn [result world events ret]; by rewrite ?app_nil_r.
Qed.

End Extract.

Lemma ffmpeg_extract_spec env v d w :
  let o := ffmpeg_extract env v d w in
  events o = [EvExtract v d] ∧
  dirs (world o) = dirs w ∧
  (∀ p, (∀ k, p ≠ d </> frame_name (S k)) → files (world o) !! p = files w !! p) ∧
  (result o = Ok tt →
   ∃ data frames,
     files w !! v = Some data ∧ ffmpeg_decode env data = (frames, None) ∧
     ∀ k f, frames !! k = Some f →
            files (world o) !! (d </> frame_name (S k)) = Some f).
Proof.
  unfold ffmpeg_extract, bind, emit, get_world, raise, ret.
  cbn [result world events].
  destruct (files w !! v) as [data|] eqn:Hv; cbn [result world events]; [|done].
  destruct (ffmpeg_decode env data) as [frames failure] eqn:Hdec.
  destruct (ffmpeg_write_frames_spec d frames 1 w) as (Hd & _ & _ & Hother & Hok).
  cbv zeta in *. pose proof (ffmpeg_write_frames_events d 1 frames w) as Hev.
  unfold bind.
  destruct failure as [e|];
    destruct (result (ffmpeg_write_frames d 1 frames w)) as [[]|e'] eqn:Hres;
    cbn [result world events]; rewrite Hev; split_and!; try done;
    try (intros p Hp; apply Hother; intros k _; apply Hp).
  intros _. exists data, frames. split_and!; try done.
  intros k f Hf. by apply (Hok eq_refl k f).
Qed.

Section ExtractClaims.
Context (env : Env) (video_path frames_dir : Path) (w : World).

Local Abbreviation run := (extract_frames env video_path frames_dir w).

(** X4. For a directory whose path has no [%] (ffmpeg takes the whole
    path as the pattern): when [extract_frames] returns, the directory
    exists, the k-th frame ffmpeg decoded (counting from 0) is the file
    [frame_%05d.png] of index k+1, and the value returned is the frame
    rate probed from the video. *)
Theorem extract_frames_writes_numbered_frames framerate :
  no_percent frames_dir →
  result (extract_frames env video_path frames_dir w) = Ok framerate →
  ∃ data frames,
    files w !! video_path = Some data ∧
    ffmpeg_decode env data = (frames, None) ∧
    is_dir (world run) frames_dir = true ∧
    (∀ k f, frames !! k = Some f →
            files (world run) !! (frames_dir </> frame_name (S k)) = Some f) ∧
    result (_get_video_framerate env video_path w) = Ok framerate.
Proof.
  intros _. destruct (mkdir_dirs_only frames_dir w) as (Hf & _).
  destruct (extract_frames_cases env video_path frames_dir w)
    as [(e & _ & ->) | [(e & _ & _ & ->) | (r & Hm & Hg & ->)]];
    cbn [result world]; try done.
  destruct (ffmpeg_extract_spec env video_path frames_dir (world (mkdir frames_dir w)))
    as (_ & Hd & _ & Hok).
  cbv zeta in *.
  destruct (result (ffmpeg_extract env video_path frames_dir
                      (world (mkdir frames_dir w)))) as [[]|e]; [|done].
  intros [= <-]. destruct (Hok eq_refl) as (data & frames & Hv & Hdec & Hfr).
  exists data, frames. rewrite <- Hf. split_and!; try done.
  apply mkdir_Ok in Hm. rewrite is_dir_spec in *. by rewrite Hd.
Qed.

Lemma extract_frames_frame p :
  (∀ k, p ≠ frames_dir </> frame_name (S k)) →
  files (world (extract_frames env video_path frames_dir w)) !! p = files w !! p.
Proof.
  intros Hp. destruct (mkdir_dirs_only frames_dir w) as (Hf & _).
  destruct (extract_frames_cases env video_path frames_dir w)
    as [(e & _ & ->) | [(e & _ & _ & ->) | (r & Hm & Hg & ->)]];
    cbn [result world]; try (by rewrite Hf).
  destruct (ffmpeg_extract_spec env video_path frames_dir (world (mkdir frames_dir w)))
    as (_ & _ & Hother & _).
  cbv zeta in *. by rewrite Hother, Hf.
Qed.

(** X5. For a directory whose path has no [%]: however it ends,
    [extract_frames] changes no file other than the frames
    [frame_%05d.png], index 1 and up, of the directory: the video it
    reads and every other file stay as they are. *)
Theorem extract_frames_touches_only_frames p :
  no_percent frames_dir →
  (∀ k, p ≠ frames_dir </> frame_name (S k)) →
  files (world (extract_frames env video_path frames_dir w)) !! p = files w !! p.
Proof.
  intros _ Hp. destruct (mkdir_dirs_only frames_dir w) as (Hf & _).
  destruct (extract_frames_cases env video_path frames_dir w)
    as [(e & _ & ->) | [(e & _ & _ & ->) | (r & Hm & Hg & ->)]];
    cbn [result world]; try (by rewrite Hf).
  destruct (ffmpeg_extract_spec env video_path frames_dir (world (mkdir frames_dir w)))
    as (_ & _ & Hother & _).
  cbv zeta in *. by rewrite Hother, Hf.
Qed.

(** X6. The video is probed before it is decoded: when the prober fails,
    [extract_frames] fails with the prober's error, ffmpeg has not been run
    on the video and no file has changed (the directory has been made). *)
Theorem extract_frames_probes_first e :
  result (mkdir frames_dir w) = Ok tt →
  result (_get_video_framerate env video_path w) = Raise e →
  result (extract_frames env video_path frames_dir w) = Raise e ∧
  events (extract_frames env video_path frames_dir w) =
    events (mkdir frames_dir w) ++ [EvProbe video_path] ∧
  files (world (extract_frames env video_path frames_dir w)) = files w ∧
  is_dir (world (extract_frames env video_path frames_dir w)) frames_dir = true.
Proof.
  intros Hm Hg. destruct (mkdir_dirs_only frames_dir w) as (Hf & _).
  destruct (extract_frames_cases env video_path frames_dir w)
    as [(e' & Hm' & _) | [(e' & _ & Hg' & ->) | (r & _ & Hg' & _)]];
    [congruence | | congruence].
  cbn [result world events]. split_and!; try done; [congruence|].
  by apply mkdir_Ok.
Qed.

End ExtractClaims.

(** ** More on the frame loop *)

Section FrameLoopMore.
Context (env : Env) (output_dir : Path) (session : Session)
        (progress_callback : option Callback) (total : Z).

Local Abbreviation loop := (frames_loop env output_dir session progress_callback total).
Local Abbreviation target := (λ p : Path, output_dir </> name p).
Local Abbreviation pass_evs :=
  (pass_events output_dir session progress_callback total).

Lemma elem_of_pass_events_progress i p input output c t :
  EvProgress c t ∈ pass_evs i p input output →
  c = i ∧ t = total ∧ is_Some progress_callback.
Proof.
  unfold pass_events. destruct progress_callback; simpl; intros Hmem;
    inv_elem Hmem; by simplify_eq.
Qed.

(** However the loop ends, it has handled a prefix of the list: each
    frame read after the one before it was written, at most one frame
    read and not written, and the callback called along the way with the
    indices in order. *)
Lemma frames_loop_prefix l j w :
  let o := loop (Z.of_nat j) l w in
  reads (events o) `prefix_of` l ∧
  writes (events o) = target <$> take (length (writes (events o))) l ∧
  (length (writes (events o)) ≤ length (reads (events o)))%nat ∧
  (length (reads (events o)) ≤ S (length (writes (events o))))%nat ∧
  progress_calls (events o) `prefix_of` (λ k, (Z.of_nat k, total)) <$> seq j (length l).
Proof.
  revert j w. induction l as [|p rest IH]; intros j w.
  { simpl. split_and!; try done; lia. }
  destruct (frames_loop_cons_cases env output_dir session progress_callback total
              (Z.of_nat j) p rest w)
    as [(o & e & Hp & _ & ->) | (input & output & _ & _ & _ & _ & ->)].
  - destruct Hp; cbn [events]; cbv zeta;
      rewrite ?pass_events_reads, ?pass_events_writes, ?pass_events_progress;
      simpl; split_and!;
      first [ apply prefix_nil | by apply prefix_cons, prefix_nil | done | lia
            | destruct progress_callback;
              [by apply prefix_cons, prefix_nil | apply prefix_nil] ].
  - cbn [events]. cbv zeta.
    replace (Z.of_nat j + 1)%Z with (Z.of_nat (S j)) by lia.
    destruct (IH (S j) (set_file (target p) output w))
      as (Hr & Hw & Hlen & Hlen' & Hpr).
    cbv zeta in *.
    rewrite reads_app, writes_app, progress_calls_app, pass_events_reads,
      pass_events_writes, pass_events_progress.
    set (o' := loop (Z.of_nat (S j)) rest (set_file (target p) output w)) in *.
    simpl. split_and!.
    + by apply prefix_cons.
    + f_equal. exact Hw.
    + lia.
    + lia.
    + destruct progress_callback; [by apply prefix_cons|].
      simpl. subst o'. rewrite frames_loop_no_callback by done. apply prefix_nil.
Qed.

(** When the names are distinct and the frames are entries of one
    directory, a completed loop has written, for every frame, what the
    model infers from the bytes the frame had before the loop. *)
Lemma frames_loop_outputs d l i w :
  result (loop i l w) = Ok tt →
  NoDup (name <$> l) → Forall (λ p, p = d </> name p) l →
  Forall (λ p, ∃ input output,
            files w !! p = Some input ∧ infer env session input = Ok output ∧
            files (world (loop i l w)) !! target p = Some output) l.
Proof.
  revert i w. induction l as [|p rest IH]; intros i w; [by constructor|].
  destruct (frames_loop_cons_cases env output_dir session progress_callback total
              i p rest w)
    as [(o & e & Hp & He & ->) | (input & output & Hin & Hinf & _ & _ & ->)].
  - by rewrite He.
  - cbn [result world]. intros Hok Hnd Hch.
    rewrite fmap_cons in Hnd. apply NoDup_cons in Hnd as [Hp Hnd].
    apply Forall_cons in Hch as [Hpd Hch].
    destruct (frames_loop_frame env output_dir session progress_callback total
                rest (i + 1)%Z (set_file (target p) output w)) as (_ & _ & _ & Hfr).
    constructor.
    + exists input, output. split_and!; try done.
      rewrite Hfr; [simpl; apply lookup_insert_eq|].
      intros (q & Heq & Hq)%list_elem_of_fmap. apply child_inj in Heq as [_ Heq].
      apply Hp. rewrite Heq. by apply list_elem_of_fmap_2.
    + specialize (IH _ _ Hok Hnd Hch).
      rewrite Forall_forall in IH, Hch. apply Forall_forall. intros q Hq.
      destruct (IH q Hq) as (input' & output' & Hin' & Hinf' & Hout').
      exists input', output'. split_and!; try done.
      simpl in Hin'. rewrite lookup_insert_ne in Hin'; [done|].
      intros Heq. rewrite (Hch q Hq) in Heq. apply child_inj in Heq as [_ Heq].
      apply Hp. rewrite Heq. by apply list_elem_of_fmap_2.
Qed.

(** A callback that raises ends the loop with its error, right after the
    output of the frame it was called for has been written. *)
Lemma frames_loop_callback_raises l j w cb c t e :
  progress_callback = Some cb →
  EvProgress c t ∈ events (loop (Z.of_nat j) l w) → cb c t = Some e →
  result (loop (Z.of_nat j) l w) = Raise e ∧
  (Z.of_nat j + Z.of_nat (length (writes (events (loop (Z.of_nat j) l w)))) = c + 1)%Z ∧
  last (events (loop (Z.of_nat j) l w)) = Some (EvProgress c t).
Proof.
  intros Hcb. revert j w. induction l as [|p rest IH]; intros j w.
  { simpl. by rewrite elem_of_nil. }
  destruct (frames_loop_cons_cases env output_dir session progress_callback total
              (Z.of_nat j) p rest w)
    as [(o & e' & Hp & He & ->) | (input & output & _ & _ & _ & Hc & ->)].
  - destruct Hp as [| | |input output cb' e'' Hin Hinf Hcb' Hraise|];
      cbn [events result]; intros Hmem Hcall; try by inv_elem Hmem.
    apply elem_of_pass_events_progress in Hmem as (-> & -> & _).
    rewrite Hcb in Hcb'. injection Hcb' as <-.
    rewrite pass_events_writes. unfold pass_events. rewrite Hcb. simpl.
    split_and!; [congruence | lia | done].
  - cbn [events result]. rewrite elem_of_app. intros [Hmem|Hmem] Hcall.
    + apply elem_of_pass_events_progress in Hmem as (-> & -> & _).
      rewrite Hcb in Hc. congruence.
    + replace (Z.of_nat j + 1)%Z with (Z.of_nat (S j)) in * by lia.
      destruct (IH _ _ Hmem Hcall) as (Hres & Hlen & Hlast).
      split_and!; [done | |].
      * rewrite writes_app, pass_events_writes. simpl. lia.
      * by rewrite last_app, Hlast.
Qed.

End FrameLoopMore.

(** ** More on [remove_background_from_frames] *)

Section RemoveBackgroundMore.
Context (env : Env) (frames_dir output_dir : Path) (model_name : string).

Local Abbreviation rbff :=
  (remove_background_from_frames env frames_dir output_dir model_name).
Local Abbreviation target := (λ p : Path, output_dir </> name p).

(** The frames the run iterates over. *)
Local Abbreviation frames_of := (λ w : World, listing (world (mkdir output_dir w)) frames_dir).

Lemma rbff_prefix cb w :
  reads (events (rbff cb w)) `prefix_of` frames_of w ∧
  writes (events (rbff cb w)) =
    target <$> take (length (writes (events (rbff cb w)))) (frames_of w) ∧
  (length (writes (events (rbff cb w))) ≤ length (reads (events (rbff cb w))))%nat ∧
  (length (reads (events (rbff cb w))) ≤ S (length (writes (events (rbff cb w)))))%nat ∧
  progress_calls (events (rbff cb w)) `prefix_of`
    (λ k, (Z.of_nat k, Z.of_nat (length (frames_of w)))) <$>
      seq 1 (length (frames_of w)).
Proof.
  destruct (rbff_silent_prefix output_dir w)
    as (Hr0 & Hw0 & _ & _ & Hp0).
  destruct (rbff_cases env frames_dir output_dir model_name cb w)
    as [(e & _ & ->) | [(e & _ & _ & ->) | (_ & _ & ->)]];
    cbn [events]; rewrite ?reads_app, ?writes_app, ?progress_calls_app, ?Hr0, ?Hw0, ?Hp0;
    simpl; try (split_and!; first [apply prefix_nil | done | lia]).
  change 1%Z with (Z.of_nat 1).
  apply (frames_loop_prefix env output_dir _ cb _ (frames_of w) 1).
Qed.

(** X7. However a run ends, it has handled a prefix of the sorted list of
    frames: the frames are read in that order, the output of each is
    written under its name before the next frame is read, and at most
    one frame has been read without being written. *)
Theorem frames_handled_one_after_another cb w :
  reads (events (rbff cb w)) `prefix_of` frames_of w ∧
  writes (events (rbff cb w)) =
    target <$> take (length (writes (events (rbff cb w)))) (frames_of w) ∧
  (length (writes (events (rbff cb w))) ≤ length (reads (events (rbff cb w))))%nat ∧
  (length (reads (events (rbff cb w))) ≤ S (length (writes (events (rbff cb w)))))%nat.
Proof. destruct (rbff_prefix cb w) as (? & ? & ? & ? & _). by split_and!. Qed.

(** X8. However a run ends, the callback has been called with [(1, N)],
    [(2, N)], ... up to some index, N the number of frames listed: every
    pair it ever receives has [1 <= current <= total]. *)
Theorem progress_pairs_in_range cb w :
  progress_calls (events (rbff cb w)) `prefix_of`
    (λ k, (Z.of_nat k, Z.of_nat (length (frames_of w)))) <$>
      seq 1 (length (frames_of w)) ∧
  ∀ current total, (current, total) ∈ progress_calls (events (rbff cb w)) →
                   (1 ≤ current ≤ total)%Z.
Proof.
  destruct (rbff_prefix cb w) as (_ & _ & _ & _ & Hp). split; [done|].
  intros c t Hin. destruct Hp as [k Hk].
  assert ((c, t) ∈ (λ k, (Z.of_nat k, Z.of_nat (length (frames_of w)))) <$>
                     seq 1 (length (frames_of w))) as Hfull.
  { rewrite Hk. apply elem_of_app. by left. }
  apply list_elem_of_fmap in Hfull as (i & [= -> ->] & Hi).
  apply elem_of_seq in Hi. lia.
Qed.

(** X9. A run that returns has written, for every frame file of the input
    directory, what the model infers from the bytes the file had when
    the run began (also when the two directories are one and the
    frames are replaced in place), on the session built for the run. *)
Theorem outputs_are_inferred_from_inputs cb w n :
  wf_files w →
  result (rbff cb w) = Ok tt →
  n ∈ frame_files_in w frames_dir →
  ∃ input output,
    files w !! (frames_dir </> n) = Some input ∧
    infer env (mkSession model_name (next_id w)) input = Ok output ∧
    files (world (rbff cb w)) !! (output_dir </> n) = Some output.
Proof.
  intros Hwf Hok Hn.
  destruct (rbff_returns env frames_dir output_dir model_name cb w Hwf Hok)
    as (_ & Ho & -> & Hnames & _).
  destruct (mkdir_dirs_only output_dir w) as (Hf & _ & Hid & _).
  rewrite <- Hnames, elem_of_list_to_set, list_elem_of_fmap in Hn.
  destruct Hn as (p & -> & Hp).
  pose proof (Forall_listing_child (world (mkdir output_dir w)) frames_dir) as Hch.
  pose proof (frames_loop_outputs env output_dir _ cb _ frames_dir _ _ _ Ho
                (names_NoDup _ _ Hch (NoDup_listing _ _)) Hch) as Hall.
  rewrite Forall_forall in Hall, Hch.
  destruct (Hall p Hp) as (input & output & Hin & Hinf & Hout).
  exists input, output. cbn [world]. rewrite <- (Hch p Hp), <- Hid, <- Hf.
  by split_and!.
Qed.

Lemma rbff_frame cb w p :
  (∀ n, is_frame_name n = true → p ≠ output_dir </> n) →
  files (world (rbff cb w)) !! p = files w !! p.
Proof.
  intros Hp. destruct (mkdir_dirs_only output_dir w) as (Hf & _).
  destruct (rbff_cases env frames_dir output_dir model_name cb w)
    as [(e & _ & ->) | [(e & _ & _ & ->) | (_ & _ & ->)]];
    cbn [world]; try (by rewrite Hf).
  destruct (frames_loop_frame env output_dir
              (mkSession model_name (next_id (world (mkdir output_dir w)))) cb
              (Z.of_nat (length (frames_of w))) (frames_of w) 1
              (bump_id (world (mkdir output_dir w)))) as (_ & _ & _ & Hfr).
  rewrite Hfr; [by rewrite <- Hf|].
  intros (q & -> & Hq)%list_elem_of_fmap.
  apply elem_of_listing in Hq as (_ & Hm & _). by apply (Hp (name q)).
Qed.

(** X10. However a run ends, it has changed no file other than files named
    [frame_*.png] in the output directory, so the input frames are as
    they were when the two directories differ. *)
Theorem only_output_frames_change cb w :
  (∀ p, (∀ n, is_frame_name n = true → p ≠ output_dir </> n) →
        files (world (rbff cb w)) !! p = files w !! p) ∧
  (frames_dir ≠ output_dir →
   ∀ n, files (world (rbff cb w)) !! (frames_dir </> n) = files w !! (frames_dir </> n)).
Proof.
  assert (Hmain : ∀ p, (∀ n, is_frame_name n = true → p ≠ output_dir </> n) →
                       files (world (rbff cb w)) !! p = files w !! p).
  { intros p Hp. destruct (mkdir_dirs_only output_dir w) as (Hf & _).
    destruct (rbff_cases env frames_dir output_dir model_name cb w)
      as [(e & _ & ->) | [(e & _ & _ & ->) | (_ & _ & ->)]];
      cbn [world]; try (by rewrite Hf).
    destruct (frames_loop_frame env output_dir
                (mkSession model_name (next_id (world (mkdir output_dir w)))) cb
                (Z.of_nat (length (frames_of w))) (frames_of w) 1
                (bump_id (world (mkdir output_dir w)))) as (_ & _ & _ & Hfr).
    rewrite Hfr; [by rewrite <- Hf|].
    intros (q & -> & Hq)%list_elem_of_fmap.
    apply elem_of_listing in Hq as (_ & Hm & _). by apply (Hp (name q)). }
  split; [exact Hmain|]. intros Hne n. apply Hmain.
  intros n' _ Heq. by apply child_inj in Heq as [? _].
Qed.

(** X11. A progress callback that raises ends the run with its error: the
    output of the frame it was called for is the last one written, and
    the call is the last event of the run. *)
Theorem callback_error_ends_run cb w current total e :
  EvProgress current total ∈ events (rbff (Some cb) w) →
  cb current total = Some e →
  result (rbff (Some cb) w) = Raise e ∧
  Z.of_nat (length (writes (events (rbff (Some cb) w)))) = current ∧
  last (events (rbff (Some cb) w)) = Some (EvProgress current total).
Proof.
  destruct (rbff_silent_prefix output_dir w)
    as (_ & Hw0 & _).
  destruct (mkdir_dirs_only output_dir w) as (_ & _ & _ & _ & Hmk).
  assert (Hno : EvProgress current total ∉ events (mkdir output_dir w)).
  { rewrite Forall_forall in Hmk. intros Hin. by apply Hmk in Hin. }
  destruct (rbff_cases env frames_dir output_dir model_name (Some cb) w)
    as [(e' & _ & ->) | [(e' & _ & _ & ->) | (_ & _ & ->)]];
    cbn [events result]; rewrite ?elem_of_app; intros Hin Hcall.
  - done.
  - destruct Hin as [Hin|Hin]; [done | inv_elem Hin].
  - destruct Hin as [Hin|[Hin|Hin]]; [done | inv_elem Hin |].
    change 1%Z with (Z.of_nat 1) in *.
    destruct (frames_loop_callback_raises env output_dir _ (Some cb) _ _ 1 _ cb
                current total e eq_refl Hin Hcall) as (Hres & Hlen & Hlast).
    split_and!; [done | |].
    + rewrite !writes_app, Hw0. simpl. lia.
    + by rewrite !last_app, Hlast.
Qed.

End RemoveBackgroundMore.

(** ** More on [rebuild_video] *)

Lemma ffmpeg_encode_frames_result env d out r w :
  let o := ffmpeg_encode_frames env d out r w in
  dirs (world o) = dirs w ∧ next_id (world o) = next_id w ∧
  (∀ p, p ≠ out → files (world o) !! p = files w !! p) ∧
  (result o = Ok tt →
   ∃ first video,
     image2_first w d = Some first ∧
     ffmpeg_encode env (image2_frames w d (size (files w)) first) r = Ok video ∧
     files (world o) !! out = Some video).
Proof.
  unfold ffmpeg_encode_frames, bind, emit, get_world, lift, put_world, raise.
  cbn [result world events].
  destruct (image2_first w d) as [first|]; cbn [result world events]; [|done].
  destruct (is_dir w out || negb (is_dir w (parent out))); cbn [result world events];
    [done|].
  destruct (ffmpeg_encode env _ r) as [video|e] eqn:E; cbn [result world events];
    [|done].
  split_and!; try done.
  - intros p Hp. simpl. by apply lookup_insert_ne.
  - intros _. exists first, video. split_and!; try done. simpl. apply lookup_insert_eq.
Qed.

Lemma image2_frames_files w w' d fuel i :
  files w' = files w → image2_frames w' d fuel i = image2_frames w d fuel i.
Proof.
  intros H. revert i. induction fuel as [|fuel IH]; intros i; [done|].
  simpl. rewrite H. destruct (files w !! (d </> frame_name i)); [|done].
  by rewrite IH.
Qed.

Section RebuildMore.
Context (env : Env) (frames_dir output_path : Path) (framerate : option float)
        (w : World).

Local Abbreviation run := (rebuild_video env frames_dir output_path framerate w).

(** What a returning [rebuild_video] has done. *)
Lemma rebuild_video_returns :
  result run = Ok tt →
  ∃ first video,
    image2_first w frames_dir = Some first ∧
    ffmpeg_encode env (image2_frames w frames_dir (size (files w)) first)
                  (default default_framerate framerate) = Ok video ∧
    files (world run) !! output_path = Some video ∧
    is_dir (world run) (parent output_path) = true.
Proof.
  destruct (mkdir_dirs_only (parent output_path) w) as (Hf & _).
  destruct (rebuild_video_cases env frames_dir output_path framerate w)
    as [(e & Hm & ->) | (Hm & ->)]; cbn [result world]; [done|].
  destruct (ffmpeg_encode_frames_result env frames_dir output_path
              (default default_framerate framerate)
              (world (mkdir (parent output_path) w))) as (Hd & _ & _ & Hok).
  cbv zeta in *. intros Hres. destruct (Hok Hres) as (first & video & H1 & H2 & H3).
  exists first, video.
  rewrite (image2_first_files w) in H1 by done.
  rewrite (image2_frames_files w), Hf in H2 by done.
  split_and!; try done.
  apply mkdir_Ok in Hm. rewrite is_dir_spec in *. by rewrite Hd.
Qed.

Lemma rebuild_video_frame p :
  p ≠ output_path →
  files (world (rebuild_video env frames_dir output_path framerate w)) !! p
    = files w !! p.
Proof.
  intros Hp. destruct (mkdir_dirs_only (parent output_path) w) as (Hf & _).
  destruct (rebuild_video_cases env frames_dir output_path framerate w)
    as [(e & Hm & ->) | (Hm & ->)]; cbn [result world]; [by rewrite Hf|].
  destruct (ffmpeg_encode_frames_result env frames_dir output_path
              (default default_framerate framerate)
              (world (mkdir (parent output_path) w))) as (_ & _ & Hother & _).
  cbv zeta in *. by rewrite Hother, Hf.
Qed.

(** X12. However it ends, [rebuild_video] changes no file other than the
    output video: the frames it reads stay as they are. *)
Theorem rebuild_writes_only_the_video p :
  p ≠ output_path →
  files (world (rebuild_video env frames_dir output_path framerate w)) !! p
    = files w !! p.
Proof.
  intros Hp. destruct (mkdir_dirs_only (parent output_path) w) as (Hf & _).
  destruct (rebuild_video_cases env frames_dir output_path framerate w)
    as [(e & Hm & ->) | (Hm & ->)]; cbn [result world]; [by rewrite Hf|].
  destruct (ffmpeg_encode_frames_result env frames_dir output_path
              (default default_framerate framerate)
              (world (mkdir (parent output_path) w))) as (_ & _ & Hother & _).
  cbv zeta in *. by rewrite Hother, Hf.
Qed.

End RebuildMore.

(** The frames the image2 demuxer reads: a run of consecutive indices. *)
Lemma image2_frames_run w d (frames : list bytes) (fuel i : nat) :
  (∀ k f, frames !! k = Some f → files w !! (d </> frame_name (i + k)) = Some f) →
  files w !! (d </> frame_name (i + length frames)) = None →
  (length frames ≤ fuel)%nat →
  image2_frames w d fuel i = frames.
Proof.
  revert frames i. induction fuel as [|fuel IH]; intros frames i Hall Hend Hfuel.
  { destruct frames; [done | simpl in Hfuel; lia]. }
  simpl. destruct frames as [|f rest].
  - simpl in Hend. rewrite Nat.add_0_r in Hend. by rewrite Hend.
  - rewrite <- (Nat.add_0_r i) at 1. rewrite (Hall 0 f eq_refl). f_equal.
    apply IH.
    + intros k f' Hk. replace (S i + k) with (i + S k) by lia. by apply Hall.
    + simpl in Hend. by replace (S i + length rest) with (i + S (length rest)) by lia.
    + simpl in Hfuel. lia.
Qed.

(** ** More on [process_video] *)

Lemma extract_frames_silent env v d w :
  progress_calls (events (extract_frames env v d w)) = [] ∧
  reads (events (extract_frames env v d w)) = [] ∧
  writes (events (extract_frames env v d w)) = [] ∧
  next_id (world (extract_frames env v d w)) = next_id w.
Proof.
  destruct (mkdir_dirs_only d w) as (_ & _ & Hid & _ & Hev).
  apply mkdir_events_silent in Hev as (Hp & _ & _ & Hr & Hw & _).
  destruct (ffmpeg_extract_spec env v d (world (mkdir d w))) as (Hx & _).
  cbv zeta in Hx.
  assert (Hn : next_id (world (ffmpeg_extract env v d (world (mkdir d w)))) = next_id w).
  { rewrite <- Hid. unfold ffmpeg_extract, bind, emit, get_world, raise, ret.
    cbn [result world events].
    destruct (files (world (mkdir d w)) !! v) as [data|]; cbn [result world events];
      [|done].
    destruct (ffmpeg_decode env data) as [frames failure].
    destruct (ffmpeg_write_frames_spec d frames 1 (world (mkdir d w)))
      as (_ & Hn & _).
    cbv zeta in Hn. unfold bind.
    destruct (result (ffmpeg_write_frames d 1 frames (world (mkdir d w))));
      cbn [result world events]; [|done]. by destruct failure. }
  destruct (extract_frames_cases env v d w)
    as [(e & _ & ->) | [(e & _ & _ & ->) | (r & _ & _ & ->)]];
    cbn [events world];
    rewrite ?progress_calls_app, ?reads_app, ?writes_app, ?Hp, ?Hr, ?Hw, ?Hx; done.
Qed.

Lemma rebuild_video_silent env d out fr w :
  progress_calls (events (rebuild_video env d out fr w)) = [] ∧
  reads (events (rebuild_video env d out fr w)) = [] ∧
  writes (events (rebuild_video env d out fr w)) = [].
Proof.
  destruct (mkdir_dirs_only (parent out) w) as (_ & _ & _ & _ & Hev).
  apply mkdir_events_silent in Hev as (Hp & _ & _ & Hr & Hw & _).
  destruct (rebuild_video_cases env d out fr w) as [(e & _ & ->) | (_ & ->)];
    cbn [events]; rewrite ?progress_calls_app, ?reads_app, ?writes_app, ?Hp, ?Hr, ?Hw;
    done.
Qed.

Section ProcessVideoMore.
Context (env : Env) (input_path output_path : Path) (model_name : string)
        (progress_callback : option Callback).

Local Abbreviation body :=
  (process_video_body env input_path output_path model_name progress_callback).

(** The body of the [with] block, stage by stage. *)
Lemma process_video_body_cases tmp w :
  let o1 := extract_frames env input_path (tmp </> "frames") w in
  let o2 := remove_background_from_frames env (tmp </> "frames")
              (tmp </> "output_frames") model_name progress_callback (world o1) in
  (∃ e, result o1 = Raise e ∧
        body tmp w = mkOutcome (Raise e) (world o1) (events o1)) ∨
  (∃ r e, result o1 = Ok r ∧ result o2 = Raise e ∧
        body tmp w = mkOutcome (Raise e) (world o2) (events o1 ++ events o2)) ∨
  (∃ r, result o1 = Ok r ∧ result o2 = Ok tt ∧
        let o3 := rebuild_video env (tmp </> "output_frames") output_path (Some r)
                    (world o2) in
        body tmp w = mkOutcome (result o3) (world o3)
                       (events o1 ++ events o2 ++ events o3)).
Proof.
  intros o1 o2. unfold process_video_body. fold o1.
  destruct (result o1) as [r|e] eqn:H1.
  2: { left. exists e. split; [done|]. by rewrite (bind_Raise _ _ _ e). }
  right. rewrite (bind_Ok _ _ _ r) by done. cbv beta. fold o2.
  destruct (result o2) as [[]|e] eqn:H2.
  - right. exists r. split_and!; try done.
    rewrite (bind_Ok _ _ _ tt) by done. done.
  - left. exists r, e. split_and!; try done.
    by rewrite (bind_Raise _ _ _ e).
Qed.

(** The body changes no file outside the temporary directory other than
    the output video. *)
Lemma process_video_body_frame tmp w p :
  ¬ tmp `prefix_of` p → p ≠ output_path →
  files (world (body tmp w)) !! p = files w !! p.
Proof.
  intros Htmp Hout.
  assert (Hfr : ∀ d k, p ≠ tmp </> d </> k).
  { intros d k ->. apply Htmp. unfold child. rewrite <- app_assoc. by apply prefix_app_r. }
  pose proof (extract_frames_frame env input_path (tmp </> "frames") w p
                (λ k, Hfr _ _)) as H1.
  pose proof (rbff_frame env (tmp </> "frames") (tmp </> "output_frames")
                model_name progress_callback
                (world (extract_frames env input_path (tmp </> "frames") w)) p
                (λ n _, Hfr _ _)) as H2.
  destruct (process_video_body_cases tmp w)
    as [(e & _ & ->) | [(r & e & _ & _ & ->) | (r & _ & _ & ->)]];
    cbn [world]; [done | congruence |].
  rewrite rebuild_video_frame by done. congruence.
Qed.

End ProcessVideoMore.

(** ** The temporary directory is new *)

Lemma mkdtemp_loop_fresh env fuel prefix w tmp :
  result (mkdtemp_loop env fuel prefix w) = Ok tmp →
  is_dir w tmp = false ∧ is_file w tmp = false ∧ parent tmp = tempdir env ∧
  dirs (world (mkdtemp_loop env fuel prefix w)) = {[tmp]} ∪ dirs w.
Proof.
  revert w. induction fuel as [|fuel IH]; intros w; [done|].
  cbn [mkdtemp_loop]. unfold os_mkdir.
  set (file := tempdir env </> (prefix +:+ random_name env (rng_pos w))).
  set (w1 := mkWorld (files w) (dirs w) (S (rng_pos w)) (next_id w)).
  change (is_dir w1 file) with (is_dir w file).
  change (is_file w1 file) with (is_file w file).
  change (under_a_file w1 file) with (under_a_file w file).
  change (is_dir w1 (parent file)) with (is_dir w (parent file)).
  destruct (is_dir w file) eqn:Hd; cbn [orb].
  { cbn [raise result world]. intros H. by destruct (IH w1 H) as (? & ? & ? & ?). }
  destruct (is_file w file) eqn:Hf.
  { cbn [raise result world]. intros H. by destruct (IH w1 H) as (? & ? & ? & ?). }
  destruct (under_a_file w file); [done|].
  destruct (negb (is_dir w (parent file))); [done|].
  cbn [result world]. intros [= <-]. split_and!; try done.
  apply parent_child.
Qed.

(** In a store where every entry lies in a directory, nothing is below a
    path that does not exist. *)
Lemma nothing_below_missing w root p :
  wf_files w → wf_dirs w → root ≠ [] →
  is_dir w root = false → is_file w root = false →
  root `prefix_of` p → files w !! p = None ∧ p ∉ dirs w.
Proof.
  intros Hwf Hwd Hne Hd Hf [l ->].
  induction l as [|x l IH] using rev_ind.
  - rewrite app_nil_r. split.
    + destruct (files w !! root) eqn:E; [|done].
      assert (is_file w root = true) by (by apply is_file_spec). congruence.
    + intros Hin. assert (is_dir w root = true) by (apply is_dir_spec; by right).
      congruence.
  - destruct IH as [_ IH].
    assert (Hpar : is_dir w (parent (root ++ l ++ [x])) = true → False).
    { rewrite app_assoc. change ((root ++ l) ++ [x]) with ((root ++ l) </> x).
      rewrite parent_child, is_dir_spec. intros [Hnil|Hin]; [|done].
      apply app_eq_nil in Hnil as [? _]. done. }
    split.
    + destruct (files w !! (root ++ l ++ [x])) eqn:E; [|done].
      destruct Hpar. by apply (Hwf _ _ E).
    + intros Hin. apply Hpar. by apply (Hwd _ Hin).
Qed.

Lemma mkdtemp_fresh env prefix w tmp p :
  wf_files w → wf_dirs w →
  result (mkdtemp env prefix w) = Ok tmp → tmp `prefix_of` p →
  files w !! p = None ∧ p ∉ dirs w.
Proof.
  intros Hwf Hwd. unfold mkdtemp. generalize TMP_MAX. intros fuel Hok.
  destruct (mkdtemp_loop_fresh env fuel prefix w tmp Hok) as (Hd & Hf & Hpar & _).
  apply nothing_below_missing; try done.
  intros ->. assert (is_dir w [] = true) by (apply is_dir_spec; by left).
  congruence.
Qed.

Section ProcessVideoFiles.
Context (env : Env) (input_path output_path : Path) (model_name : string)
        (progress_callback : option Callback) (w : World).

Lemma process_video_frame p :
  wf_files w → wf_dirs w → p ≠ output_path →
  files (world (process_video env input_path output_path model_name
                  progress_callback w)) !! p = files w !! p.
Proof.
  intros Hwf Hwd Hp.
  pose proof (process_video_cases env input_path output_path model_name
                progress_callback w) as H.
  destruct (mkdtemp_spec env "rekrea_rembg_" w) as (Hf & _ & _).
  pose proof (λ tmp, mkdtemp_fresh env "rekrea_rembg_" w tmp p Hwf Hwd) as Hfresh.
  set (mk := mkdtemp env "rekrea_rembg_" w) in *. clearbody mk.
  destruct (result mk) as [tmp|e]; rewrite H; cbn [world]; [|by rewrite Hf].
  rewrite elem_of_rmtree_files. case_decide as Hpre.
  - by destruct (Hfresh tmp eq_refl Hpre) as [-> _].
  - rewrite process_video_body_frame by done. by rewrite Hf.
Qed.

(** X13. In a store where every file and every directory lies in a directory,
    [process_video] changes no file other than the output video, however
    it ends: the input video and every other file are as they were, and
    nothing of the temporary directory is left. *)
Theorem process_video_changes_only_the_output p :
  wf_files w → wf_dirs w → p ≠ output_path →
  files (world (process_video env input_path output_path model_name
                  progress_callback w)) !! p = files w !! p.
Proof. apply process_video_frame. Qed.

End ProcessVideoFiles.

(** ** [process_video], end to end *)

Lemma ffmpeg_extract_exact env v d w :
  result (ffmpeg_extract env v d w) = Ok tt →
  ∃ data frames,
    files w !! v = Some data ∧ ffmpeg_decode env data = (frames, None) ∧
    (∀ k f, frames !! k = Some f →
            files (world (ffmpeg_extract env v d w)) !! (d </> frame_name (S k))
              = Some f) ∧
    (∀ p, (∀ k, (k < length frames)%nat → p ≠ d </> frame_name (S k)) →
          files (world (ffmpeg_extract env v d w)) !! p = files w !! p).
Proof.
  unfold ffmpeg_extract, bind, emit, get_world, raise, ret.
  cbn [result world events].
  destruct (files w !! v) as [data|] eqn:Hv; cbn [result world events]; [|done].
  destruct (ffmpeg_decode env data) as [frames failure] eqn:Hdec.
  destruct (ffmpeg_write_frames_spec d frames 1 w) as (_ & _ & _ & Hother & Hok).
  cbv zeta in *. unfold bind.
  destruct failure as [e|];
    destruct (result (ffmpeg_write_frames d 1 frames w)) as [[]|e'] eqn:Hres;
    cbn [result world events]; try done.
  intros _. exists data, frames. split_and!; try done.
  intros k f Hf. by apply (Hok eq_refl k f).
Qed.

(** What a returning [extract_frames] leaves, file by file. *)
Lemma extract_frames_exact env v d w r :
  result (extract_frames env v d w) = Ok r →
  ∃ data frames,
    files w !! v = Some data ∧ ffmpeg_decode env data = (frames, None) ∧
    is_dir (world (extract_frames env v d w)) d = true ∧
    dirs w ⊆ dirs (world (extract_frames env v d w)) ∧
    (∀ k f, frames !! k = Some f →
            files (world (extract_frames env v d w)) !! (d </> frame_name (S k))
              = Some f) ∧
    (∀ p, (∀ k, (k < length frames)%nat → p ≠ d </> frame_name (S k)) →
          files (world (extract_frames env v d w)) !! p = files w !! p).
Proof.
  destruct (mkdir_dirs_only d w) as (Hf & _ & _ & Hsub & _).
  destruct (extract_frames_cases env v d w)
    as [(e & _ & ->) | [(e & _ & _ & ->) | (r' & Hm & Hg & ->)]];
    cbn [result world]; try done.
  destruct (ffmpeg_extract_spec env v d (world (mkdir d w))) as (_ & Hd & _).
  pose proof (ffmpeg_extract_exact env v d (world (mkdir d w))) as Hex.
  cbv zeta in *.
  destruct (result (ffmpeg_extract env v d (world (mkdir d w)))) as [[]|e]; [|done].
  intros _. destruct (Hex eq_refl) as (data & frames & Hv & Hdec & Hfr & Hother).
  exists data, frames. rewrite <- Hf. split_and!; try done.
  - apply mkdir_Ok in Hm. rewrite is_dir_spec in *. by rewrite Hd.
  - by rewrite Hd.
Qed.

(** The frames [ffmpeg] numbers from 1: their paths are distinct. *)
Lemma NoDup_frame_paths d n :
  NoDup ((λ k, d </> frame_name (S k)) <$> seq 0 n).
Proof.
  apply NoDup_fmap_2; [|apply NoDup_seq].
  intros a b Heq. apply child_inj in Heq as [_ Heq].
  apply frame_name_inj in Heq. lia.
Qed.

Lemma elem_of_frame_paths d n p :
  p ∈ (λ k, d </> frame_name (S k)) <$> seq 0 n ↔
  ∃ k, (k < n)%nat ∧ p = d </> frame_name (S k).
Proof.
  rewrite list_elem_of_fmap. split.
  - intros (k & -> & Hk). apply elem_of_seq in Hk. exists k. split; [lia|done].
  - intros (k & Hk & ->). exists k. split; [done|]. apply elem_of_seq. lia.
Qed.

(** A store holds at least as many files as any list of distinct paths
    of files of it. *)
Lemma length_le_size_files w (l : list Path) :
  NoDup l → (∀ p, p ∈ l → is_Some (files w !! p)) → (length l ≤ size (files w))%nat.
Proof.
  intros Hnd Hin.
  rewrite <- size_dom, <- (size_list_to_set (C := gset Path) l) by done.
  apply subseteq_size. intros p Hp. apply elem_of_list_to_set in Hp.
  apply elem_of_dom. by apply Hin.
Qed.

Lemma image2_first_one w d :
  files w !! (d </> frame_name 0) = None →
  is_Some (files w !! (d </> frame_name 1)) →
  image2_first w d = Some 1.
Proof.
  intros H0 H1. unfold image2_first. cbn [seq List.find].
  assert (is_file w (d </> frame_name 0) = false) as ->.
  { apply not_true_is_false. rewrite is_file_spec, H0. by intros [? ?]. }
  by rewrite (proj2 (is_file_spec w (d </> frame_name 1)) H1).
Qed.

Lemma image2_first_is_file w d first :
  image2_first w d = Some first → is_Some (files w !! (d </> frame_name first)).
Proof.
  unfold image2_first. intros [_ H]%find_some. by apply is_file_spec.
Qed.

(** [remove_background_from_frames] on a directory that holds frames
    numbered 1 to N and no other file, writing to an empty directory. *)
Lemma rbff_numbered_frames env fd od model_name cb w frames :
  wf_files w →
  (∀ k f, frames !! k = Some f → files w !! (fd </> frame_name (S k)) = Some f) →
  (∀ n, is_Some (files w !! (fd </> n)) →
        ∃ k, (k < length frames)%nat ∧ n = frame_name (S k)) →
  (∀ n, files w !! (od </> n) = None) →
  result (remove_background_from_frames env fd od model_name cb w) = Ok tt →
  (∀ k f, frames !! k = Some f →
          ∃ o, infer env (mkSession model_name (next_id w)) f = Ok o ∧
               files (world (remove_background_from_frames env fd od model_name cb w))
                 !! (od </> frame_name (S k)) = Some o) ∧
  (∀ i, (∀ k, (k < length frames)%nat → i ≠ S k) →
        files (world (remove_background_from_frames env fd od model_name cb w))
          !! (od </> frame_name i) = None) ∧
  progress_calls (events (remove_background_from_frames env fd od model_name cb w)) =
    match cb with
    | Some _ => (λ k, (Z.of_nat k, Z.of_nat (length frames))) <$> seq 1 (length frames)
    | None => []
    end.
Proof.
  intros Hwf Hfr Honly Hempty Hok.
  destruct (rbff_returns env fd od model_name cb w Hwf Hok)
    as (Hmk & Ho & Heq & Hnames & Hlen).
  cbv zeta in *.
  destruct (mkdir_dirs_only od w) as (Hf & _ & Hid & _ & Hev).
  apply mkdir_events_silent in Hev as (Hp0 & _).
  set (w1 := world (mkdir od w)) in *. set (l := listing w1 fd) in *.
  pose proof (Forall_listing_child w1 fd) as Hch. fold l in Hch.
  pose proof (names_NoDup fd l Hch (NoDup_listing w1 fd)) as Hnd.
  assert (Hff : frame_files_in w fd =
                list_to_set ((λ k, frame_name (S k)) <$> seq 0 (length frames))).
  { apply set_eq. intros n.
    rewrite elem_of_frame_files_in, elem_of_list_to_set, list_elem_of_fmap. split.
    - intros [_ (k & Hk & ->)%Honly]. exists k. split; [done|]. apply elem_of_seq. lia.
    - intros (k & -> & Hk%elem_of_seq). split; [apply frame_name_matches|].
      destruct (lookup_lt_is_Some_2 frames k) as [f Hkf]; [lia|].
      by rewrite (Hfr k f Hkf). }
  assert (HN : length l = length frames).
  { rewrite Hlen, Hff, size_list_to_set, length_fmap, length_seq; [done|].
    apply NoDup_fmap_2; [|apply NoDup_seq]. intros a b ?%frame_name_inj. lia. }
  rewrite Heq. cbn [world events]. rewrite Hid in *. clear Heq.
  set (loop := frames_loop env od (mkSession model_name (next_id w)) cb
                 (Z.of_nat (length l)) 1 l (bump_id w1)) in *.
  pose proof (frames_loop_outputs env od _ cb _ fd l 1 (bump_id w1) Ho Hnd Hch) as Hall.
  destruct (frames_loop_frame env od (mkSession model_name (next_id w)) cb
              (Z.of_nat (length l)) l 1 (bump_id w1)) as (_ & _ & _ & Hframe).
  fold loop in Hall, Hframe.
  rewrite Forall_forall in Hall, Hch.
  assert (Hin : ∀ p, p ∈ l ↔ ∃ k, (k < length frames)%nat ∧ p = fd </> frame_name (S k)).
  { intros p. split.
    - intros Hp. assert (name p ∈ frame_files_in w fd) as Hn.
      { rewrite <- Hnames, elem_of_list_to_set. by apply list_elem_of_fmap_2. }
      rewrite Hff, elem_of_list_to_set, list_elem_of_fmap in Hn.
      destruct Hn as (k & Hk & Hs%elem_of_seq). exists k. split; [lia|].
      by rewrite (Hch p Hp), Hk.
    - intros (k & Hk & ->).
      assert (frame_name (S k) ∈ frame_files_in w fd) as Hn.
      { rewrite Hff, elem_of_list_to_set, list_elem_of_fmap. exists k.
        split; [done|]. apply elem_of_seq. lia. }
      rewrite <- Hnames, elem_of_list_to_set, list_elem_of_fmap in Hn.
      destruct Hn as (p & Hk' & Hp). by rewrite Hk', <- (Hch p Hp). }
  split_and!.
  - intros k f Hkf.
    assert (fd </> frame_name (S k) ∈ l) as Hp.
    { apply Hin. exists k. split; [|done]. by apply lookup_lt_Some in Hkf. }
    destruct (Hall _ Hp) as (input & output & Hi & Hinf & Hout).
    rewrite name_child in Hout. cbn [bump_id files] in Hi.
    rewrite Hf, (Hfr k f Hkf) in Hi. injection Hi as <-. by exists output.
  - intros i Hi. rewrite Hframe.
    + cbn [bump_id files]. by rewrite Hf.
    + intros (p & Heq & Hp)%list_elem_of_fmap. apply child_inj in Heq as [_ Heq].
      apply Hin in Hp as (k & Hk & ->). rewrite name_child in Heq.
      apply frame_name_inj in Heq. by apply (Hi k).
  - rewrite !progress_calls_app, Hp0. cbn [app]. rewrite <- HN.
    change (progress_calls ([EvGlob fd; EvNewSession model_name] ++ events loop))
      with (progress_calls (events loop)).
    destruct cb as [cb|].
    + by apply (frames_loop_progress env od _ (Some cb) _ l 1 (bump_id w1) cb).
    + by apply frames_loop_no_callback.
Qed.

(** [rebuild_video] on a directory that holds frames numbered 1 to N
    and no frame of another index. *)
Lemma rebuild_video_numbered_frames env d out fr w outputs :
  (∀ k o, outputs !! k = Some o → files w !! (d </> frame_name (S k)) = Some o) →
  (∀ i, (∀ k, (k < length outputs)%nat → i ≠ S k) →
        files w !! (d </> frame_name i) = None) →
  result (rebuild_video env d out fr w) = Ok tt →
  outputs ≠ [] ∧
  ∃ video, ffmpeg_encode env outputs (default default_framerate fr) = Ok video ∧
           files (world (rebuild_video env d out fr w)) !! out = Some video.
Proof.
  intros Hfr Hnone Hok.
  destruct (rebuild_video_returns env d out fr w Hok)
    as (first & video & Hfirst & Henc & Hout & _).
  assert (Hne : outputs ≠ []).
  { intros ->. apply image2_first_is_file in Hfirst as [? Hfirst].
    rewrite Hnone in Hfirst; [done|]. simpl. lia. }
  split; [done|]. exists video. split; [|done].
  assert (image2_first w d = Some 1) as H1.
  { apply image2_first_one.
    - apply Hnone. lia.
    - destruct outputs as [|o rest]; [done|]. by rewrite (Hfr 0 o eq_refl). }
  rewrite H1 in Hfirst. injection Hfirst as <-.
  rewrite (image2_frames_run w d outputs) in Henc; [done| | |].
  - intros k o Hk. by apply Hfr.
  - apply Hnone. lia.
  - etrans; [|apply (length_le_size_files w
                       ((λ k, d </> frame_name (S k)) <$> seq 0 (length outputs)))].
    + by rewrite length_fmap, length_seq.
    + apply NoDup_frame_paths.
    + intros p (k & Hk & ->)%elem_of_frame_paths.
      destruct (lookup_lt_is_Some_2 outputs k Hk) as [o Ho].
      by rewrite (Hfr k o Ho).
Qed.

Lemma parent_prefix (p : Path) : parent p `prefix_of` p.
Proof.
  destruct (decide (p = [])) as [->|Hne]; [done|].
  rewrite (parent_name p Hne) at 2. by apply prefix_app_r.
Qed.

(** The world [mkdtemp] leaves when it returns: the store it found, and
    a new, empty directory in the temporary directory. *)
Lemma mkdtemp_returns env prefix w tmp :
  wf_files w → wf_dirs w →
  result (mkdtemp env prefix w) = Ok tmp →
  parent tmp = tempdir env ∧
  files (world (mkdtemp env prefix w)) = files w ∧
  next_id (world (mkdtemp env prefix w)) = next_id w ∧
  wf_files (world (mkdtemp env prefix w)) ∧
  (∀ p, tmp `prefix_of` p → files (world (mkdtemp env prefix w)) !! p = None).
Proof.
  intros Hwf Hwd Hok.
  destruct (mkdtemp_spec env prefix w) as (Hf & Hid & _).
  pose proof (λ p, mkdtemp_fresh env prefix w tmp p Hwf Hwd Hok) as Hfresh.
  revert Hok Hf Hid. unfold mkdtemp. generalize TMP_MAX. intros fuel Hok Hf Hid.
  destruct (mkdtemp_loop_fresh env fuel prefix w tmp Hok) as (_ & _ & Hpar & Hd).
  split_and!; try done.
  - intros p b Hp. rewrite Hf in Hp. apply (is_dir_mono w); [|by apply (Hwf p b)].
    rewrite Hd. set_solver.
  - intros p Hp. rewrite Hf. by apply Hfresh.
Qed.

Section ProcessVideoReturns.
Context (env : Env) (input_path output_path : Path) (model_name : string)
        (progress_callback : option Callback).

Local Abbreviation body :=
  (process_video_body env input_path output_path model_name progress_callback).

(** The body of the [with] block, started in a new, empty temporary
    directory: what it has done when it returns. *)
Lemma process_video_body_returns tmp w :
  wf_files w → (∀ p, tmp `prefix_of` p → files w !! p = None) →
  result (body tmp w) = Ok tt →
  ∃ data probe framerate frames outputs video,
    files w !! input_path = Some data ∧
    ffprobe env data = Ok probe ∧ framerate_of_probe probe = Ok framerate ∧
    ffmpeg_decode env data = (frames, None) ∧ frames ≠ [] ∧
    Forall2 (λ f o, infer env (mkSession model_name (next_id w)) f = Ok o)
            frames outputs ∧
    ffmpeg_encode env outputs framerate = Ok video ∧
    files (world (body tmp w)) !! output_path = Some video ∧
    progress_calls (events (body tmp w)) =
      match progress_callback with
      | Some _ => (λ k, (Z.of_nat k, Z.of_nat (length frames))) <$>
                    seq 1 (length frames)
      | None => []
      end.
Proof.
  intros Hwf Hfresh Hok.
  destruct (process_video_body_cases env input_path output_path model_name
              progress_callback tmp w)
    as [(e & _ & Hb) | [(r & e & _ & _ & Hb) | (r & H1 & H2 & Hb)]];
    cbv zeta in Hb; rewrite Hb in Hok |- *; cbn [result world events] in *;
    [done..|].
  clear Hb.
  set (fd := tmp </> "frames") in *. set (od := tmp </> "output_frames") in *.
  destruct (extract_frames_exact env input_path fd w r H1)
    as (data & frames & Hv & Hdec & Hdir & Hsub & Hfr & Hother).
  destruct (extract_frames_spec env input_path fd w) as [_ Hr].
  destruct (Hr r H1) as (data' & probe & Hv' & Hprobe & Hrate).
  rewrite Hv in Hv'. injection Hv' as <-.
  destruct (extract_frames_silent env input_path fd w) as (Hp1 & _ & _ & Hid1).
  set (w1 := world (extract_frames env input_path fd w)) in *.
  assert (Hunder : ∀ d n, files w !! (tmp </> d </> n) = None).
  { intros d n. apply Hfresh. unfold child. rewrite <- app_assoc. by apply prefix_app_r. }
  assert (Hwf1 : wf_files w1).
  { intros p b Hp.
    destruct (decide (p ∈ (λ k, fd </> frame_name (S k)) <$> seq 0 (length frames)))
      as [(k & _ & ->)%elem_of_frame_paths | Hnin].
    - by rewrite parent_child.
    - rewrite Hother in Hp.
      + apply (is_dir_mono w); [done | by apply (Hwf p b)].
      + intros k Hk ->. apply Hnin, elem_of_frame_paths. eauto. }
  assert (Honly : ∀ n, is_Some (files w1 !! (fd </> n)) →
                       ∃ k, (k < length frames)%nat ∧ n = frame_name (S k)).
  { intros n Hn.
    destruct (decide (fd </> n ∈ (λ k, fd </> frame_name (S k)) <$>
                                   seq 0 (length frames)))
      as [(k & Hk & Heq)%elem_of_frame_paths | Hnin].
    - apply child_inj in Heq as [_ ->]. eauto.
    - pose proof (Hunder "frames" n) as Hu. fold fd in Hu.
      rewrite Hother, Hu in Hn; [by destruct Hn|].
      intros k Hk Heq. apply Hnin, elem_of_frame_paths. eauto. }
  assert (Hempty : ∀ n, files w1 !! (od </> n) = None).
  { intros n. rewrite Hother; [apply Hunder|].
    intros k _ Heq. apply child_inj in Heq as [Heq _].
    by apply child_inj in Heq as [_ Heq]. }
  destruct (rbff_numbered_frames env fd od model_name progress_callback w1 frames
              Hwf1 Hfr Honly Hempty H2) as (Hout & Hnone & Hprog).
  rewrite Hid1 in Hout.
  set (w2 := world (remove_background_from_frames env fd od model_name
                      progress_callback w1)) in *.
  set (s := mkSession model_name (next_id w)) in *.
  set (outputs := (λ f, match infer env s f with Ok o => o | Raise _ => [] end)
                    <$> frames).
  assert (Hk : ∀ k o, outputs !! k = Some o →
                      files w2 !! (od </> frame_name (S k)) = Some o).
  { intros k o Hko. unfold outputs in Hko. rewrite list_lookup_fmap in Hko.
    destruct (frames !! k) as [f|] eqn:Hkf; [|done]. simpl in Hko.
    destruct (Hout k f Hkf) as (o' & Hinf & Hfile). rewrite Hinf in Hko.
    by injection Hko as <-. }
  destruct (rebuild_video_numbered_frames env od output_path (Some r) w2 outputs)
    as (Hne & video & Henc & Hvideo); [done | | done |].
  { intros i Hi. apply Hnone. intros k Hlt. apply Hi. unfold outputs.
    by rewrite length_fmap. }
  exists data, probe, r, frames, outputs, video. split_and!; try done.
  - by intros ->.
  - apply Forall2_fmap_r, Forall_Forall2_diag, Forall_lookup. intros k f Hkf.
    unfold compose. by destruct (Hout k f Hkf) as (o & -> & _).
  - destruct (rebuild_video_silent env od output_path (Some r) w2) as (Hp3 & _).
    by rewrite !progress_calls_app, Hp1, Hprog, Hp3, app_nil_r.
Qed.

(** What [process_video] has done when it returns. *)
Lemma process_video_returns w :
  wf_files w → wf_dirs w →
  result (process_video env input_path output_path model_name progress_callback w)
    = Ok tt →
  ∃ data probe framerate frames outputs video,
    files w !! input_path = Some data ∧
    ffprobe env data = Ok probe ∧ framerate_of_probe probe = Ok framerate ∧
    ffmpeg_decode env data = (frames, None) ∧ frames ≠ [] ∧
    Forall2 (λ f o, infer env (mkSession model_name (next_id w)) f = Ok o)
            frames outputs ∧
    ffmpeg_encode env outputs framerate = Ok video ∧
    (¬ tempdir env `prefix_of` output_path →
     files (world (process_video env input_path output_path model_name
                     progress_callback w)) !! output_path = Some video) ∧
    progress_calls (events (process_video env input_path output_path model_name
                              progress_callback w)) =
      match progress_callback with
      | Some _ => (λ k, (Z.of_nat k, Z.of_nat (length frames))) <$>
                    seq 1 (length frames)
      | None => []
      end.
Proof.
  intros Hwf Hwd.
  pose proof (process_video_cases env input_path output_path model_name
                progress_callback w) as H.
  pose proof (λ tmp, mkdtemp_returns env "rekrea_rembg_" w tmp Hwf Hwd) as Hmk.
  destruct (mkdtemp_spec env "rekrea_rembg_" w) as (_ & _ & Hev).
  apply mkdir_events_silent in Hev as (Hp0 & _).
  set (mk := mkdtemp env "rekrea_rembg_" w) in *. clearbody mk.
  destruct (result mk) as [tmp|e]; rewrite H; cbn [result world events]; [|done].
  destruct (Hmk tmp eq_refl) as (Hpar & Hf & Hid & Hwf0 & Hfresh).
  intros Hok.
  destruct (process_video_body_returns tmp (world mk) Hwf0 Hfresh Hok)
    as (data & probe & r & frames & outputs & video &
        Hv & Hprobe & Hrate & Hdec & Hne & Hall & Henc & Hvideo & Hprog).
  rewrite Hf in Hv. rewrite Hid in Hall.
  exists data, probe, r, frames, outputs, video. split_and!; try done.
  - intros Hout. rewrite elem_of_rmtree_files, decide_False; [done|].
    intros Hpre. apply Hout. rewrite <- Hpar. etrans; [apply parent_prefix|done].
  - rewrite !progress_calls_app, Hp0, Hprog.
    change (progress_calls [EvMkdtemp tmp]) with (@nil (Z * Z)).
    change (progress_calls [EvCleanup tmp]) with (@nil (Z * Z)).
    by rewrite app_nil_r.
Qed.

(** X14. In a store where every file and every directory lies in a directory,
    a [process_video] that returns has left, at an output path outside
    the temporary directory, ffmpeg's encoding, at the frame rate probed
    from the input video, of what the model infers, on one session, from
    the frames ffmpeg decodes from the input video, in their order; the
    video has at least one frame. *)
Theorem process_video_encodes_inferred_frames w :
  wf_files w → wf_dirs w → ¬ tempdir env `prefix_of` output_path →
  result (process_video env input_path output_path model_name progress_callback w)
    = Ok tt →
  ∃ data probe framerate frames outputs video,
    files w !! input_path = Some data ∧
    ffprobe env data = Ok probe ∧ framerate_of_probe probe = Ok framerate ∧
    ffmpeg_decode env data = (frames, None) ∧ frames ≠ [] ∧
    Forall2 (λ f o, infer env (mkSession model_name (next_id w)) f = Ok o)
            frames outputs ∧
    ffmpeg_encode env outputs framerate = Ok video ∧
    files (world (process_video env input_path output_path model_name
                    progress_callback w)) !! output_path = Some video.
Proof.
  intros Hwf Hwd Hout Hok.
  destruct (process_video_returns w Hwf Hwd Hok)
    as (data & probe & r & frames & outputs & video &
        Hv & Hprobe & Hrate & Hdec & Hne & Hall & Henc & Hvideo & _).
  exists data, probe, r, frames, outputs, video. split_and!; try done.
  by apply Hvideo.
Qed.

(** X15. A [process_video] that returns has called its progress callback once
    per frame decoded from the input video, with [(1, N)], ..., [(N, N)]
    in this order, N at least 1: the last call reports completion. *)
Theorem process_video_reports_every_frame cb w :
  progress_callback = Some cb →
  wf_files w → wf_dirs w →
  result (process_video env input_path output_path model_name progress_callback w)
    = Ok tt →
  ∃ data frames,
    files w !! input_path = Some data ∧
    ffmpeg_decode env data = (frames, None) ∧
    progress_calls (events (process_video env input_path output_path model_name
                              progress_callback w)) =
      (λ k, (Z.of_nat k, Z.of_nat (length frames))) <$> seq 1 (length frames) ∧
    last (progress_calls (events (process_video env input_path output_path
                                    model_name progress_callback w))) =
      Some (Z.of_nat (length frames), Z.of_nat (length frames)).
Proof.
  intros Hcb Hwf Hwd Hok.
  destruct (process_video_returns w Hwf Hwd Hok)
    as (data & probe & r & frames & outputs & video &
        Hv & _ & _ & Hdec & Hne & _ & _ & _ & Hprog).
  exists data, frames. rewrite Hprog, Hcb. split_and!; try done.
  destruct frames as [|f rest _] using rev_ind; [done|].
  rewrite length_app, Nat.add_1_r. cbn [length].
  rewrite seq_S, fmap_app. cbn [fmap list_fmap]. rewrite last_snoc.
  do 3 f_equal; lia.
Qed.

(** However [process_video] ends, every pair its progress callback has
    received has [1 <= current <= total]. *)
Lemma process_video_progress_range w current total :
  (current, total) ∈ progress_calls (events (process_video env input_path
                        output_path model_name progress_callback w)) →
  (1 ≤ current ≤ total)%Z.
Proof.
  pose proof (process_video_cases env input_path output_path model_name
                progress_callback w) as H.
  destruct (mkdtemp_spec env "rekrea_rembg_" w) as (_ & _ & Hev).
  apply mkdir_events_silent in Hev as (Hp0 & _).
  set (mk := mkdtemp env "rekrea_rembg_" w) in *. clearbody mk.
  destruct (result mk) as [tmp|e]; rewrite H; cbn [events];
    rewrite ?progress_calls_app, ?Hp0; [|by intros ?%elem_of_nil].
  change (progress_calls [EvMkdtemp tmp]) with (@nil (Z * Z)).
  change (progress_calls [EvCleanup tmp]) with (@nil (Z * Z)).
  rewrite app_nil_r. cbn [app].
  destruct (extract_frames_silent env input_path (tmp </> "frames") (world mk))
    as (Hp1 & _).
  set (w1 := world (extract_frames env input_path (tmp </> "frames") (world mk))) in *.
  destruct (rbff_prefix env (tmp </> "frames") (tmp </> "output_frames") model_name
              progress_callback w1) as (_ & _ & _ & _ & [rest Hpre]).
  intros Hin.
  assert ((current, total) ∈ progress_calls (events
            (remove_background_from_frames env (tmp </> "frames")
               (tmp </> "output_frames") model_name progress_callback w1))) as Hin2.
  { destruct (process_video_body_cases env input_path output_path model_name
                progress_callback tmp (world mk))
      as [(e & _ & Hb) | [(r & e & _ & _ & Hb) | (r & _ & _ & Hb)]];
      cbv zeta in Hb; fold w1 in Hb; rewrite Hb in Hin; cbn [events] in Hin;
      rewrite ?progress_calls_app, ?Hp1 in Hin; cbn [app] in Hin.
    - by apply elem_of_nil in Hin.
    - done.
    - destruct (rebuild_video_silent env (tmp </> "output_frames") output_path (Some r)
                  (world (remove_background_from_frames env (tmp </> "frames")
                            (tmp </> "output_frames") model_name progress_callback w1)))
        as (Hp3 & _).
      by rewrite Hp3, app_nil_r in Hin. }
  assert ((current, total) ∈
          (λ k, (Z.of_nat k,
                 Z.of_nat (length (listing (world (mkdir (tmp </> "output_frames") w1))
                                     (tmp </> "frames"))))) <$>
            seq 1 (length (listing (world (mkdir (tmp </> "output_frames") w1))
                             (tmp </> "frames")))) as Hfull.
  { rewrite Hpre. apply elem_of_app. by left. }
  apply list_elem_of_fmap in Hfull as (i & [= -> ->] & Hi).
  apply elem_of_seq in Hi. lia.
Qed.

End ProcessVideoReturns.

(** ** The script: worker, percentage and output path *)

(** A proper fraction of positive integers neither divides by zero nor
    overflows. *)
Lemma truediv_fraction a b :
  (1 ≤ a ≤ b)%Z → truediv a b = Ok (inject_Z a / inject_Z b)%Q.
Proof.
  intros Hr. unfold truediv.
  destruct (Z.eqb_spec b 0) as [->|_]; [lia|].
  assert (HT : (2 ≤ 2 ^ 1024 - 2 ^ 970)%Z) by (vm_compute; discriminate).
  rewrite !Z.abs_eq by lia.
  by rewrite (proj2 (Z.leb_gt _ _)) by nia.
Qed.

(** [poll]'s percentage of a pair in range: the division is defined and
    the result lies in (0, 100]. *)
Lemma progress_pct_in_range current total :
  (1 ≤ current ≤ total)%Z →
  ∃ pct, progress_pct current total = Ok pct ∧ (0 < pct)%Q ∧ (pct <= 100)%Q.
Proof.
  intros Hr. unfold progress_pct. rewrite truediv_fraction by done.
  eexists. split; [done|].
  destruct total as [|t|t]; [lia | | lia].
  destruct current as [|c|c]; [lia | | lia].
  unfold Qlt, Qle, Qdiv, Qmult, Qinv, inject_Z. cbn [Qnum Qden]. lia.
Qed.

Lemma rfind_lookup c l i : rfind c l = Some i → l !! i = Some c.
Proof.
  revert i. induction l as [|x l IH]; intros i; [done|].
  cbn [rfind]. destruct (rfind c l) as [j|].
  - intros [= <-]. by apply IH.
  - destruct (Ascii.eqb_spec x c) as [->|_]; [|done]. by intros [= <-].
Qed.

(** A name is never its own stem followed by a non-empty suffix that
    does not start with a dot. *)
Lemma stem_suffix_differs n c suffix :
  c ≠ "."%char → stem n +:+ String c suffix ≠ n.
Proof.
  intros Hc Heq.
  apply (f_equal String.list_ascii_of_string) in Heq.
  rewrite list_ascii_of_string_app in Heq. cbn [String.list_ascii_of_string] in Heq.
  unfold stem in Heq.
  set (l := String.list_ascii_of_string n) in *.
  assert (Hself : l ++ c :: String.list_ascii_of_string suffix ≠ l).
  { intros H. apply (f_equal length) in H. rewrite length_app in H. simpl in H. lia. }
  destruct (rfind "." l) as [i|] eqn:Hi; [|done].
  destruct ((0 <? i)%nat && (i <? length l - 1)%nat) eqn:Hb; [|done].
  apply andb_prop in Hb as [_ Hlt%Nat.ltb_lt].
  rewrite String.list_ascii_of_string_of_list_ascii in Heq.
  apply rfind_lookup in Hi. rewrite <- Heq in Hi.
  rewrite lookup_app_r in Hi by (rewrite length_take; lia).
  rewrite length_take, Nat.min_l, Nat.sub_diag in Hi by lia.
  simpl in Hi. congruence.
Qed.

Section Script.
Context (env : Env) (str_exc : exn → string).

(** X16. [main] never asks [process_video] to write over the video it reads:
    the output path differs from the input path, whatever the output
    directory and the name of the input. *)
Theorem output_path_differs_from_input output_dir input_path :
  output_path_for output_dir input_path ≠ input_path.
Proof.
  unfold output_path_for. intros Heq.
  pose proof (f_equal name Heq) as Hn. rewrite name_child in Hn.
  by apply (stem_suffix_differs (name input_path) "_" "no_bg.mp4").
Qed.

(** X17. The worker lets no exception of [process_video] escape: it adds to
    the queue progress messages and then one verdict, done or error,
    which is the last message. Every progress message has
    [1 <= current <= total], so that the percentage [poll] computes from
    it is defined (no division by zero) and lies in (0, 100]. *)
Theorem worker_posts_progress_then_verdict input_path output_path progress_queue w :
  ∃ posted final,
    (_run_pipeline env str_exc input_path output_path progress_queue w).1
      = progress_queue ++ posted ++ [final] ∧
    Forall (λ m, ∃ current total pct,
                   m = MsgProgress current total ∧ (1 ≤ current ≤ total)%Z ∧
                   progress_pct current total = Ok pct ∧
                   (0 < pct)%Q ∧ (pct <= 100)%Q) posted ∧
    (final = MsgDone (path_str output_path) ∨ ∃ e, final = MsgError (str_exc e)).
Proof.
  unfold _run_pipeline. cbn [fst]. eexists _, _. split; [done|]. split.
  - apply Forall_fmap, Forall_forall. intros [c t] Hin. cbn [fst snd compose].
    apply process_video_progress_range in Hin.
    destruct (progress_pct_in_range c t Hin) as (pct & Hpct & Hlo & Hhi).
    by exists c, t, pct.
  - destruct (result (process_video _ _ _ _ _ _)) as [[]|e]; [by left | right; eauto].
Qed.

(** X18. In a store where every file and every directory lies in a directory,
    a worker that reports done has posted before it one progress message
    per frame of the video, the last of them at 100 percent, and the
    file it names exists when the path is outside the temporary
    directory. *)
Theorem worker_done_after_full_progress input_path output_path progress_queue w s :
  wf_files w → wf_dirs w →
  last (_run_pipeline env str_exc input_path output_path progress_queue w).1
    = Some (MsgDone s) →
  ∃ n : nat,
    (_run_pipeline env str_exc input_path output_path progress_queue w).1
      = progress_queue ++
        ((λ k, MsgProgress (Z.of_nat k) (Z.of_nat (S n))) <$> seq 1 (S n)) ++
        [MsgDone (path_str output_path)] ∧
    (∃ pct, progress_pct (Z.of_nat (S n)) (Z.of_nat (S n)) = Ok pct ∧ (pct == 100)%Q) ∧
    (¬ tempdir env `prefix_of` output_path →
     is_Some (files (_run_pipeline env str_exc input_path output_path
                       progress_queue w).2 !! output_path)).
Proof.
  unfold _run_pipeline. cbn [fst snd]. intros Hwf Hwd.
  rewrite !app_assoc, last_snoc, <- !app_assoc.
  pose proof (process_video_returns env input_path output_path default_model_name
                (Some on_progress) w Hwf Hwd) as Hret.
  destruct (result (process_video _ _ _ _ _ _)) as [[]|e]; [|done].
  intros _.
  destruct (Hret eq_refl) as (data & probe & r & frames & outputs & video &
                              _ & _ & _ & _ & Hne & _ & _ & Hvideo & Hprog).
  destruct frames as [|f rest]; [done|]. cbn [length] in Hprog.
  exists (length rest). split_and!.
  - rewrite Hprog, <- list_fmap_compose. done.
  - unfold progress_pct. rewrite truediv_fraction by lia.
    change (Z.of_nat (S (length rest))) with (Z.pos (Pos.of_succ_nat (length rest))).
    eexists. split; [done|].
    unfold Qeq, Qdiv, Qmult, Qinv, inject_Z. cbn [Qnum Qden]. lia.
  - intros Hout. rewrite (Hvideo Hout). by eexists.
Qed.

(** X19. In such a store the worker, run as [main] runs it, leaves the video
    it reads as it was, however the run ends. *)
Theorem worker_keeps_the_input output_dir input_path progress_queue w :
  wf_files w → wf_dirs w →
  files (_run_pipeline env str_exc input_path
           (output_path_for output_dir input_path) progress_queue w).2 !! input_path
    = files w !! input_path.
Proof.
  intros Hwf Hwd. unfold _run_pipeline. cbn [snd].
  apply process_video_frame; [done..|].
  intros Heq. symmetry in Heq. revert Heq. unfold output_path_for. intros Heq.
  pose proof (f_equal name Heq) as Hn. rewrite name_child in Hn.
  by apply (stem_suffix_differs (name input_path) "_" "no_bg.mp4").
Qed.

End Script.

(* ===================================================================== *)
(** * The further properties at work on the concrete environment *)
(* ===================================================================== *)

Module FurtherChecks.
Import Demo.

Lemma wf_files_w_frames : wf_files w_frames.
Proof. apply (bool_decide_unpack _). by vm_compute. Defined.

Lemma wf_files_w_videos : wf_files w_videos.
Proof. apply (bool_decide_unpack _). by vm_compute. Defined.

Lemma wf_dirs_w_videos : wf_dirs w_videos.
Proof. apply (bool_decide_unpack _). by vm_compute. Defined.

Lemma audio_is_no_video :
  ∃ c, getitem audio_stream "codec_type" = Ok c ∧ c ≠ "video".
Proof. exists "audio". split; [reflexivity | discriminate]. Defined.

Lemma framerate_of_first_video_stream_witness :
  result (ffmpeg_probe env ["v"; "ok.mp4"] w_videos)
    = Ok (mkProbe [audio_stream; video_stream]) ∧
  streams (mkProbe [audio_stream; video_stream]) = [audio_stream] ++ video_stream :: [] ∧
  Forall (λ s, ∃ c, getitem s "codec_type" = Ok c ∧ c ≠ "video") [audio_stream] ∧
  getitem video_stream "codec_type" = Ok "video" ∧
  Forall (λ s, ∃ c, getitem s "codec_type" = Ok c ∧ c ≠ "video")
         [audio_stream; audio_stream] ∧
  result (_get_video_framerate env ["v"; "ok.mp4"] w_videos) =
    framerate_of_probe
      (mkProbe ([audio_stream; audio_stream] ++ video_stream :: [plain_stream])).
Proof.
  assert (H1 : result (ffmpeg_probe env ["v"; "ok.mp4"] w_videos)
               = Ok (mkProbe [audio_stream; video_stream]))
    by (vm_compute; reflexivity).
  assert (H3 : Forall (λ s, ∃ c, getitem s "codec_type" = Ok c ∧ c ≠ "video")
                      [audio_stream])
    by (repeat constructor; exact audio_is_no_video).
  assert (H5 : Forall (λ s, ∃ c, getitem s "codec_type" = Ok c ∧ c ≠ "video")
                      [audio_stream; audio_stream])
    by (repeat constructor; exact audio_is_no_video).
  split; [exact H1|]. split; [reflexivity|]. split; [exact H3|].
  split; [reflexivity|]. split; [exact H5|].
  exact (framerate_of_first_video_stream env ["v"; "ok.mp4"] w_videos
           (mkProbe [audio_stream; video_stream]) [audio_stream] video_stream []
           H1 eq_refl H3 eq_refl [audio_stream; audio_stream] [plain_stream] H5).
Defined.

Lemma twenty_five_is_a_double : is_binary64 (inject_Z (Z.of_nat 25) / inject_Z (Z.of_nat 1)).
Proof.
  exists 25%Z, 0%Z. split; [by vm_compute|]. split; [lia|]. by vm_compute.
Defined.

Lemma framerate_of_printed_rational_witness :
  result (ffmpeg_probe env_pal ["v"; "ok.mp4"] w_videos) = Ok (mkProbe [pal_stream]) ∧
  streams (mkProbe [pal_stream]) = [] ++ pal_stream :: [] ∧
  Forall (λ s, ∃ c, getitem s "codec_type" = Ok c ∧ c ≠ "video") [] ∧
  getitem pal_stream "codec_type" = Ok "video" ∧
  getitem pal_stream "r_frame_rate" =
    Ok (NilEmpty.string_of_uint (Nat.to_uint 25) +:+ "/" +:+
        NilEmpty.string_of_uint (Nat.to_uint 1)) ∧
  (String.length (NilEmpty.string_of_uint (Nat.to_uint 25)) ≤ int_max_str_digits)%nat ∧
  (String.length (NilEmpty.string_of_uint (Nat.to_uint 1)) ≤ int_max_str_digits)%nat ∧
  is_binary64 (inject_Z (Z.of_nat 25) / inject_Z (Z.of_nat 1)) ∧
  result (_get_video_framerate env_pal ["v"; "ok.mp4"] w_videos) =
    Ok (inject_Z (Z.of_nat 25) / inject_Z (Z.of_nat 1))%Q.
Proof.
  assert (H1 : result (ffmpeg_probe env_pal ["v"; "ok.mp4"] w_videos)
               = Ok (mkProbe [pal_stream]))
    by (vm_compute; reflexivity).
  split; [exact H1|]. split; [reflexivity|]. split; [constructor|].
  assert (Ha : (String.length (NilEmpty.string_of_uint (Nat.to_uint 25))
                ≤ int_max_str_digits)%nat) by (vm_compute; lia).
  assert (Hb : (String.length (NilEmpty.string_of_uint (Nat.to_uint 1))
                ≤ int_max_str_digits)%nat) by (vm_compute; lia).
  split; [reflexivity|]. split; [reflexivity|].
  split; [exact Ha|]. split; [exact Hb|].
  split; [exact twenty_five_is_a_double|].
  refine (proj2 (proj2 (framerate_of_printed_rational env_pal ["v"; "ok.mp4"] w_videos
                          (mkProbe [pal_stream]) [] pal_stream []
                          H1 eq_refl (Forall_nil_2 _) eq_refl 25 1 eq_refl Ha Hb))
            _ twenty_five_is_a_double).
  discriminate.
Defined.

Lemma framerate_needs_one_slash_witness :
  result (ffmpeg_probe env_plain_rate ["v"; "ok.mp4"] w_videos)
    = Ok (mkProbe [plain_stream]) ∧
  streams (mkProbe [plain_stream]) = [] ++ plain_stream :: [] ∧
  Forall (λ s, ∃ c, getitem s "codec_type" = Ok c ∧ c ≠ "video") [] ∧
  getitem plain_stream "codec_type" = Ok "video" ∧
  getitem plain_stream "r_frame_rate" = Ok "25" ∧
  length (filter (λ c, c = "/"%char) (String.list_ascii_of_string "25")) ≠ 1%nat ∧
  ∃ msg, result (_get_video_framerate env_plain_rate ["v"; "ok.mp4"] w_videos)
         = Raise (ValueError msg).
Proof.
  assert (H1 : result (ffmpeg_probe env_plain_rate ["v"; "ok.mp4"] w_videos)
               = Ok (mkProbe [plain_stream]))
    by (vm_compute; reflexivity).
  assert (H6 : length (filter (λ c, c = "/"%char) (String.list_ascii_of_string "25"))
               ≠ 1%nat)
    by (vm_compute; discriminate).
  split; [exact H1|]. split; [reflexivity|]. split; [constructor|].
  split; [reflexivity|]. split; [reflexivity|]. split; [exact H6|].
  exact (framerate_needs_one_slash env_plain_rate ["v"; "ok.mp4"] w_videos
           (mkProbe [plain_stream]) [] plain_stream []
           H1 eq_refl (Forall_nil_2 _) eq_refl "25" eq_refl H6).
Defined.

Lemma no_percent_f : no_percent ["f"].
Proof. apply (bool_decide_unpack _). by vm_compute. Defined.

Lemma extract_frames_writes_numbered_frames_witness :
  no_percent ["f"] ∧
  result (extract_frames env ["v"; "ok.mp4"] ["f"] w_videos) = Ok (30000 # 1001)%Q ∧
  ∃ data frames,
    files w_videos !! ["v"; "ok.mp4"] = Some data ∧
    ffmpeg_decode env data = (frames, None) ∧
    is_dir (world (extract_frames env ["v"; "ok.mp4"] ["f"] w_videos)) ["f"] = true ∧
    (∀ k f, frames !! k = Some f →
            files (world (extract_frames env ["v"; "ok.mp4"] ["f"] w_videos))
              !! (["f"] </> frame_name (S k)) = Some f) ∧
    result (_get_video_framerate env ["v"; "ok.mp4"] w_videos) = Ok (30000 # 1001)%Q.
Proof.
  assert (H : result (extract_frames env ["v"; "ok.mp4"] ["f"] w_videos)
              = Ok (30000 # 1001)%Q)
    by (vm_compute; reflexivity).
  split; [exact no_percent_f|]. split; [exact H|].
  exact (extract_frames_writes_numbered_frames env ["v"; "ok.mp4"] ["f"] w_videos
           (30000 # 1001)%Q no_percent_f H).
Defined.

Lemma extract_frames_touches_only_frames_witness :
  no_percent ["f"] ∧
  (∀ k, ["v"; "ok.mp4"] ≠ ["f"] </> frame_name (S k)) ∧
  files (world (extract_frames env ["v"; "ok.mp4"] ["f"] w_videos)) !! ["v"; "ok.mp4"]
    = files w_videos !! ["v"; "ok.mp4"].
Proof.
  assert (H : ∀ k, ["v"; "ok.mp4"] ≠ ["f"] </> frame_name (S k))
    by (intros k Heq; cbn [child app] in Heq; congruence).
  split; [exact no_percent_f|]. split; [exact H|].
  exact (extract_frames_touches_only_frames env ["v"; "ok.mp4"] ["f"] w_videos
           ["v"; "ok.mp4"] no_percent_f H).
Defined.

Lemma extract_frames_probes_first_witness :
  result (mkdir ["f"] w_videos) = Ok tt ∧
  result (_get_video_framerate env ["v"; "audio.mp4"] w_videos) = Raise StopIteration ∧
  result (extract_frames env ["v"; "audio.mp4"] ["f"] w_videos) = Raise StopIteration ∧
  events (extract_frames env ["v"; "audio.mp4"] ["f"] w_videos) =
    events (mkdir ["f"] w_videos) ++ [EvProbe ["v"; "audio.mp4"]] ∧
  files (world (extract_frames env ["v"; "audio.mp4"] ["f"] w_videos)) = files w_videos ∧
  is_dir (world (extract_frames env ["v"; "audio.mp4"] ["f"] w_videos)) ["f"] = true.
Proof.
  assert (H1 : result (mkdir ["f"] w_videos) = Ok tt) by (vm_compute; reflexivity).
  assert (H2 : result (_get_video_framerate env ["v"; "audio.mp4"] w_videos)
               = Raise StopIteration) by (vm_compute; reflexivity).
  split; [exact H1|]. split; [exact H2|].
  exact (extract_frames_probes_first env ["v"; "audio.mp4"] ["f"] w_videos
           StopIteration H1 H2).
Defined.

Lemma outputs_are_inferred_from_inputs_witness :
  wf_files w_frames ∧
  result (remove_background_from_frames env ["in"] ["out"] "u2net" None w_frames)
    = Ok tt ∧
  "frame_00002.png" ∈ frame_files_in w_frames ["in"] ∧
  ∃ input output,
    files w_frames !! (["in"] </> "frame_00002.png") = Some input ∧
    infer env (mkSession "u2net" (next_id w_frames)) input = Ok output ∧
    files (world (remove_background_from_frames env ["in"] ["out"] "u2net" None
                    w_frames)) !! (["out"] </> "frame_00002.png") = Some output.
Proof.
  assert (H2 : result (remove_background_from_frames env ["in"] ["out"] "u2net" None
                         w_frames) = Ok tt) by (vm_compute; reflexivity).
  assert (H3 : "frame_00002.png" ∈ frame_files_in w_frames ["in"]).
  { apply elem_of_frame_files_in. split; [by vm_compute|]. vm_compute. eauto. }
  split; [exact wf_files_w_frames|]. split; [exact H2|]. split; [exact H3|].
  exact (outputs_are_inferred_from_inputs env ["in"] ["out"] "u2net" None w_frames
           "frame_00002.png" wf_files_w_frames H2 H3).
Defined.

Lemma callback_error_ends_run_witness :
  EvProgress 2 3 ∈ events (remove_background_from_frames env ["in"] ["out"] "u2net"
                             (Some stop_cb) w_frames) ∧
  stop_cb 2 3 = Some (ValueError "stop") ∧
  result (remove_background_from_frames env ["in"] ["out"] "u2net" (Some stop_cb)
            w_frames) = Raise (ValueError "stop") ∧
  Z.of_nat (length (writes (events (remove_background_from_frames env ["in"] ["out"]
                                      "u2net" (Some stop_cb) w_frames)))) = 2%Z ∧
  last (events (remove_background_from_frames env ["in"] ["out"] "u2net"
                  (Some stop_cb) w_frames)) = Some (EvProgress 2 3).
Proof.
  assert (H1 : EvProgress 2 3 ∈ events (remove_background_from_frames env ["in"]
                                          ["out"] "u2net" (Some stop_cb) w_frames)).
  { apply list_elem_of_In. vm_compute. tauto. }
  split; [exact H1|]. split; [reflexivity|].
  exact (callback_error_ends_run env ["in"] ["out"] "u2net" stop_cb w_frames 2 3
           (ValueError "stop") H1 eq_refl).
Defined.

Lemma rebuild_writes_only_the_video_witness :
  ["in"; "notes.txt"] ≠ ["o"; "r.mp4"] ∧
  files (world (rebuild_video env ["in"] ["o"; "r.mp4"] None w_frames))
    !! ["in"; "notes.txt"] = files w_frames !! ["in"; "notes.txt"].
Proof.
  assert (H : ["in"; "notes.txt"] ≠ ["o"; "r.mp4"]) by congruence.
  split; [exact H|].
  exact (rebuild_writes_only_the_video env ["in"] ["o"; "r.mp4"] None w_frames
           ["in"; "notes.txt"] H).
Defined.

Lemma process_video_changes_only_the_output_witness :
  wf_files w_videos ∧ wf_dirs w_videos ∧ ["v"; "ok.mp4"] ≠ ["o"; "r.mp4"] ∧
  files (world (process_video env ["v"; "ok.mp4"] ["o"; "r.mp4"] "u2net" None
                  w_videos)) !! ["v"; "ok.mp4"] = files w_videos !! ["v"; "ok.mp4"].
Proof.
  assert (H : ["v"; "ok.mp4"] ≠ ["o"; "r.mp4"]) by congruence.
  split; [exact wf_files_w_videos|]. split; [exact wf_dirs_w_videos|].
  split; [exact H|].
  exact (process_video_changes_only_the_output env ["v"; "ok.mp4"] ["o"; "r.mp4"]
           "u2net" None w_videos ["v"; "ok.mp4"]
           wf_files_w_videos wf_dirs_w_videos H).
Defined.

Lemma process_video_encodes_inferred_frames_witness :
  wf_files w_videos ∧ wf_dirs w_videos ∧
  ¬ tempdir env `prefix_of` ["o"; "r.mp4"] ∧
  result (process_video env ["v"; "ok.mp4"] ["o"; "r.mp4"] "u2net" None w_videos)
    = Ok tt ∧
  ∃ data probe framerate frames outputs video,
    files w_videos !! ["v"; "ok.mp4"] = Some data ∧
    ffprobe env data = Ok probe ∧ framerate_of_probe probe = Ok framerate ∧
    ffmpeg_decode env data = (frames, None) ∧ frames ≠ [] ∧
    Forall2 (λ f o, infer env (mkSession "u2net" (next_id w_videos)) f = Ok o)
            frames outputs ∧
    ffmpeg_encode env outputs framerate = Ok video ∧
    files (world (process_video env ["v"; "ok.mp4"] ["o"; "r.mp4"] "u2net" None
                    w_videos)) !! ["o"; "r.mp4"] = Some video.
Proof.
  assert (H3 : ¬ tempdir env `prefix_of` ["o"; "r.mp4"])
    by (intros [k Hk]; cbn in Hk; congruence).
  assert (H4 : result (process_video env ["v"; "ok.mp4"] ["o"; "r.mp4"] "u2net" None
                         w_videos) = Ok tt) by (vm_compute; reflexivity).
  split; [exact wf_files_w_videos|]. split; [exact wf_dirs_w_videos|].
  split; [exact H3|]. split; [exact H4|].
  exact (process_video_encodes_inferred_frames env ["v"; "ok.mp4"] ["o"; "r.mp4"]
           "u2net" None w_videos wf_files_w_videos wf_dirs_w_videos H3 H4).
Defined.

Lemma process_video_reports_every_frame_witness :
  Some log_cb = Some log_cb ∧ wf_files w_videos ∧ wf_dirs w_videos ∧
  result (process_video env ["v"; "ok.mp4"] ["o"; "r.mp4"] "u2net" (Some log_cb)
            w_videos) = Ok tt ∧
  ∃ data frames,
    files w_videos !! ["v"; "ok.mp4"] = Some data ∧
    ffmpeg_decode env data = (frames, None) ∧
    progress_calls (events (process_video env ["v"; "ok.mp4"] ["o"; "r.mp4"] "u2net"
                              (Some log_cb) w_videos)) =
      (λ k, (Z.of_nat k, Z.of_nat (length frames))) <$> seq 1 (length frames) ∧
    last (progress_calls (events (process_video env ["v"; "ok.mp4"] ["o"; "r.mp4"]
                                    "u2net" (Some log_cb) w_videos))) =
      Some (Z.of_nat (length frames), Z.of_nat (length frames)).
Proof.
  assert (H4 : result (process_video env ["v"; "ok.mp4"] ["o"; "r.mp4"] "u2net"
                         (Some log_cb) w_videos) = Ok tt) by (vm_compute; reflexivity).
  split; [reflexivity|]. split; [exact wf_files_w_videos|].
  split; [exact wf_dirs_w_videos|]. split; [exact H4|].
  exact (process_video_reports_every_frame env ["v"; "ok.mp4"] ["o"; "r.mp4"]
           "u2net" (Some log_cb) log_cb w_videos eq_refl
           wf_files_w_videos wf_dirs_w_videos H4).
Defined.

Lemma worker_done_after_full_progress_witness :
  wf_files w_videos ∧ wf_dirs w_videos ∧
  last (_run_pipeline env str_exc ["v"; "ok.mp4"] ["o"; "ok_no_bg.mp4"] [] w_videos).1
    = Some (MsgDone "/o/ok_no_bg.mp4") ∧
  ∃ n : nat,
    (_run_pipeline env str_exc ["v"; "ok.mp4"] ["o"; "ok_no_bg.mp4"] [] w_videos).1
      = [] ++ ((λ k, MsgProgress (Z.of_nat k) (Z.of_nat (S n))) <$> seq 1 (S n)) ++
        [MsgDone (path_str ["o"; "ok_no_bg.mp4"])] ∧
    (∃ pct, progress_pct (Z.of_nat (S n)) (Z.of_nat (S n)) = Ok pct ∧ (pct == 100)%Q) ∧
    (¬ tempdir env `prefix_of` ["o"; "ok_no_bg.mp4"] →
     is_Some (files (_run_pipeline env str_exc ["v"; "ok.mp4"] ["o"; "ok_no_bg.mp4"]
                       [] w_videos).2 !! ["o"; "ok_no_bg.mp4"])).
Proof.
  assert (H3 : last (_run_pipeline env str_exc ["v"; "ok.mp4"] ["o"; "ok_no_bg.mp4"]
                       [] w_videos).1 = Some (MsgDone "/o/ok_no_bg.mp4"))
    by (vm_compute; reflexivity).
  split; [exact wf_files_w_videos|]. split; [exact wf_dirs_w_videos|].
  split; [exact H3|].
  exact (worker_done_after_full_progress env str_exc ["v"; "ok.mp4"]
           ["o"; "ok_no_bg.mp4"] [] w_videos "/o/ok_no_bg.mp4"
           wf_files_w_videos wf_dirs_w_videos H3).
Defined.

Lemma worker_keeps_the_input_witness :
  wf_files w_videos ∧ wf_dirs w_videos ∧
  files (_run_pipeline env str_exc ["v"; "ok.mp4"]
           (output_path_for ["o"] ["v"; "ok.mp4"]) [] w_videos).2 !! ["v"; "ok.mp4"]
    = files w_videos !! ["v"; "ok.mp4"].
Proof.
  split; [exact wf_files_w_videos|]. split; [exact wf_dirs_w_videos|].
  exact (worker_keeps_the_input env str_exc ["o"] ["v"; "ok.mp4"] [] w_videos
           wf_files_w_videos wf_dirs_w_videos).
Defined.

(** [main]'s output path for a few input names. *)
Example output_paths :
  output_path_for ["o"] ["v"; "ok.mp4"] = ["o"; "ok_no_bg.mp4"] ∧
  output_path_for ["o"] ["v"; "a.b.mov"] = ["o"; "a.b_no_bg.mp4"] ∧
  output_path_for ["o"] ["v"; ".hidden"] = ["o"; ".hidden_no_bg.mp4"] ∧
  output_path_for ["o"] ["v"; "clip."] = ["o"; "clip._no_bg.mp4"] ∧
  output_path_for ["o"] ["v"; "clip"] = ["o"; "clip_no_bg.mp4"].
Proof. by vm_compute. Qed.

(** The worker on a two-frame video, and on an audio-only file. *)
Example worker_messages :
  (_run_pipeline env str_exc ["v"; "ok.mp4"] ["o"; "ok_no_bg.mp4"] [] w_videos).1
    = [MsgProgress 1 2; MsgProgress 2 2; MsgDone "/o/ok_no_bg.mp4"] ∧
  (_run_pipeline env str_exc ["v"; "audio.mp4"] ["o"; "audio_no_bg.mp4"] [] w_videos).1
    = [MsgError "error"].
Proof. by vm_compute. Qed.

End FurtherChecks.
